(** * termshot: the image scaffold ([internal/img/output.go])

    A shallow embedding of the rendering scaffold of termshot: the styled
    content buffer and its hard wrap, the colorscheme loader with its hex
    parser, the ANSI colour resolver, the measurer, the compositor's drawing
    calls and the canvas clip, followed by the properties of the written
    specification settled against it. The source file holds two texts of
    the package; the embedding follows the later one, with per-side margins
    and paddings, the border toggle and [findClosestColor].

    Conventions.
    - A Go [int] is a [Z] wrapped to 64 bits by [wrap64] after every
      arithmetic operation of the source; [uint64] style bits are a [Z].
    - A Go [float64] is a primitive binary64 float, every operation rounded
      on its own (no fused multiply-add, as on amd64).
    - A Go [string] that the source inspects byte by byte ([parseHexColor])
      is a [string]; text that the source handles rune by rune is a list of
      code points ([list rune]).
    - A function that can return an [error] returns [error + A]; a method
      that mutates its receiver returns the new receiver as well.
    - What the repository calls from other packages (the bunt decoder and
      encoder, the terminal size, the file system, the JSON decoder, the blur
      filter, gg's rasteriser, the PNG encoder, writers) is a field of the
      class [Externals]. The small parts of Go's [strings], [encoding/hex]
      and [image] packages that the properties turn on are written out.
    - A call that can panic returns an [outcome]: [strings.Repeat] on a
      negative count, and [gg.NewContext] on a canvas that [image.NewRGBA]
      rejects or that the runtime cannot allocate.
    - [NewImageCreator] and [AddCommand] are not embedded: the first only
      stores constants and the faces of an external font, the second only
      formats its arguments with bunt and calls [AddContent]. *)

From Stdlib Require Import ZArith List String Ascii Lia Bool Floats.
From stdpp Require Import base option list gmap strings pretty.

Local Open Scope Z_scope.

(** ** Go integers *)

Module GoInt.

Definition MaxInt : Z := 2 ^ 63 - 1.
Definition MinInt : Z := - 2 ^ 63.

(** Two's complement wrap-around of a 64-bit [int]. *)
Definition wrap64 (z : Z) : Z := (z + 2 ^ 63) mod 2 ^ 64 - 2 ^ 63.

Definition add (a b : Z) : Z := wrap64 (a + b).
Definition sub (a b : Z) : Z := wrap64 (a - b).
Definition mul (a b : Z) : Z := wrap64 (a * b).

End GoInt.

(** ** Errors and panics *)

(** Go [error] values: the sentinel and typed errors of [encoding/hex], an
    error reported by an external collaborator, and [fmt.Errorf] without
    and with a wrapped cause ([%w]). *)
Inductive error : Type :=
| ErrLength
| InvalidByteError (b : ascii)
| ErrExternal (msg : string)
| Errorf (msg : string)
| ErrorfW (msg : string) (cause : error).

(** A call either returns or panics. *)
Inductive outcome (A : Type) : Type :=
| Returns (a : A)
| Panics (msg : string).
Arguments Returns {A} a.
Arguments Panics {A} msg.

(** ** Colours *)

(** [color.Color] is an interface. The values the scaffold builds itself are
    [color.RGBA]; [PaletteColor] stands for a colour of another
    implementation, such as [bunt.LightGray]. *)
Inductive Color : Type :=
| RGBA (R G B A : Z)
| PaletteColor (name : string).

(** ** [encoding/hex] *)

(** [reverseHexTable]: the value of a hex digit, [None] where the table holds
    [0xff]. *)
Definition fromHexChar (c : ascii) : option Z :=
  let n := Z.of_N (N_of_ascii c) in
  if (48 <=? n) && (n <=? 57) then Some (n - 48)
  else if (97 <=? n) && (n <=? 102) then Some (n - 97 + 10)
  else if (65 <=? n) && (n <=? 70) then Some (n - 65 + 10)
  else None.

(** [hex.DecodeString]: two digits a byte; a bad digit is reported before a
    bad length. *)
Fixpoint hex_DecodeString (src : string) : error + list Z :=
  match src with
  | EmptyString => inr []
  | String p EmptyString =>
      match fromHexChar p with
      | None => inl (InvalidByteError p)
      | Some _ => inl ErrLength
      end
  | String p (String q rest) =>
      match fromHexChar p with
      | None => inl (InvalidByteError p)
      | Some a =>
          match fromHexChar q with
          | None => inl (InvalidByteError q)
          | Some b =>
              match hex_DecodeString rest with
              | inl e => inl e
              | inr bs => inr (Z.lor (Z.shiftl a 4) b :: bs)
              end
          end
      end
  end.

(** [strings.TrimPrefix s "#"] *)
Definition TrimPrefix_hash (s : string) : string :=
  match s with
  | String "#"%char rest => rest
  | _ => s
  end.

(** [parseHexColor]. The index expressions [rgb[0]], [rgb[1]], [rgb[2]]
    are written with a default: six digits decode to three bytes
    ([hex_DecodeString_length]), so no index is out of range. *)
Definition parseHexColor (hexStr : string) : error + Color :=
  let hexStr := TrimPrefix_hash hexStr in
  if negb (Z.of_nat (String.length hexStr) =? 6) then
    inl (Errorf "hex color must be 6 characters long")
  else
    match hex_DecodeString hexStr with
    | inl err => inl (ErrorfW "invalid hex color" err)
    | inr rgb => inr (RGBA (nth 0 rgb 0) (nth 1 rgb 0) (nth 2 rgb 0) 255)
    end.

(** ** Floats and conversions *)

(** [float64(i)] for an integer [i] of magnitude below [2^63]. *)
Definition float64_of_int (z : Z) : float :=
  if z <? 0 then PrimFloat.opp (PrimFloat.of_uint63 (Uint63.of_Z (- z)))
  else PrimFloat.of_uint63 (Uint63.of_Z z).

(** [int(f)]: truncation towards zero. Out of range, infinite and NaN
    arguments are implementation-specific in Go; amd64 yields [MinInt]. *)
Definition int_of_float64 (f : float) : Z :=
  match Prim2SF f with
  | S754_zero _ => 0
  | S754_finite sgn m e =>
      let mag := if 0 <=? e then Z.pos m * 2 ^ e else Z.pos m / 2 ^ (- e) in
      let v := if sgn then - mag else mag in
      if (GoInt.MinInt <=? v) && (v <=? GoInt.MaxInt) then v else GoInt.MinInt
  | _ => GoInt.MinInt
  end.

(** [math.Max], with its special cases for infinities, NaN and zeros. *)
Definition math_Max (x y : float) : float :=
  if PrimFloat.eqb x infinity || PrimFloat.eqb y infinity then infinity
  else if PrimFloat.is_nan x || PrimFloat.is_nan y then nan
  else if PrimFloat.eqb x 0 && PrimFloat.eqb x y then
    if PrimFloat.get_sign x then y else x
  else if PrimFloat.ltb y x then x else y.

(** ** Text *)

(** A [rune] is a code point ([int32]). *)
Definition rune : Type := Z.

Definition newline : rune := 10.
Definition tab : rune := 9.

(** [string(r)] and each element of [string([]rune)]: a value that is no
    code point becomes U+FFFD. A Go string built this way is kept as the
    list of its code points: UTF-8 is self-synchronising, so searching and
    splitting such a string on ["\n"] acts on whole code points. *)
Definition valid_rune (r : rune) : bool :=
  (0 <=? r) && (r <=? 1114111) && negb ((55296 <=? r) && (r <=? 57343)).

Definition string_of_rune (r : rune) : list rune :=
  [if valid_rune r then r else 65533].

Definition string_of_runes (rs : list rune) : list rune :=
  map (fun r => if valid_rune r then r else 65533) rs.

(** [strings.TrimSuffix s "\n"] *)
Definition TrimSuffix_newline (s : list rune) : list rune :=
  match rev s with
  | c :: r => if c =? newline then rev r else s
  | [] => s
  end.

(** [strings.Split s "\n"]: the pieces between the separators, one more
    than there are separators. *)
Fixpoint Split_newline (s : list rune) : list (list rune) :=
  match s with
  | [] => [[]]
  | c :: r =>
      if c =? newline then [] :: Split_newline r
      else
        match Split_newline r with
        | h :: t => (c :: h) :: t
        | [] => [[c]]
        end
  end.

(** [strings.Repeat "a" count] panics on a negative count. *)
Definition Repeat_a (count : Z) : outcome (list rune) :=
  if count <? 0 then Panics "strings: negative Repeat count"
  else Returns (repeat 97 (Z.to_nat count)).

(** ** Styled content ([bunt.ColoredRune], [bunt.String]) *)

Record ColoredRune : Type := mkColoredRune {
  Symbol : rune;
  Settings : Z  (* uint64 *)
}.

(** ** Rasters ([image.Rectangle], [image.RGBA]) *)

Record Point : Type := mkPoint { X : Z; Y : Z }.

Record Rectangle : Type := mkRectangle { Min : Point; Max : Point }.

(** [image.Rect]: the rectangle with its corners put in order. *)
Definition image_Rect (x0 y0 x1 y1 : Z) : Rectangle :=
  let '(x0, x1) := if x0 >? x1 then (x1, x0) else (x0, x1) in
  let '(y0, y1) := if y0 >? y1 then (y1, y0) else (y0, y1) in
  mkRectangle (mkPoint x0 y0) (mkPoint x1 y1).

Definition Rectangle_Empty (r : Rectangle) : bool :=
  (X (Min r) >=? X (Max r)) || (Y (Min r) >=? Y (Max r)).

Definition ZR : Rectangle := mkRectangle (mkPoint 0 0) (mkPoint 0 0).

Definition Rectangle_Intersect (r s : Rectangle) : Rectangle :=
  let minX := if X (Min r) <? X (Min s) then X (Min s) else X (Min r) in
  let minY := if Y (Min r) <? Y (Min s) then Y (Min s) else Y (Min r) in
  let maxX := if X (Max r) >? X (Max s) then X (Max s) else X (Max r) in
  let maxY := if Y (Max r) >? Y (Max s) then Y (Max s) else Y (Max r) in
  let r' := mkRectangle (mkPoint minX minY) (mkPoint maxX maxY) in
  if Rectangle_Empty r' then ZR else r'.

(** [Point.In]: the maximum corner is exclusive. *)
Definition Point_In (p : Point) (r : Rectangle) : bool :=
  (X (Min r) <=? X p) && (X p <? X (Max r)) &&
  (Y (Min r) <=? Y p) && (Y p <? Y (Max r)).

(** [Rectangle.Dx] and [Rectangle.Dy] *)
Definition Rectangle_Dx (r : Rectangle) : Z := GoInt.sub (X (Max r)) (X (Min r)).
Definition Rectangle_Dy (r : Rectangle) : Z := GoInt.sub (Y (Max r)) (Y (Min r)).

(** [bits.Mul64]: the high and the low word of the product of two
    [uint64]. *)
Definition bits_Mul64 (x y : Z) : Z * Z := ((x * y) / 2 ^ 64, (x * y) mod 2 ^ 64).

(** [mul3NonNeg] of package [image]: [x * y * z], or [-1] when an argument
    is negative or the product leaves the range of [int]. *)
Definition mul3NonNeg (x y z : Z) : Z :=
  if (x <? 0) || (y <? 0) || (z <? 0) then -1
  else
    let '(hi, lo) := bits_Mul64 (x mod 2 ^ 64) (y mod 2 ^ 64) in
    if negb (hi =? 0) then -1
    else
      let '(hi, lo) := bits_Mul64 lo (z mod 2 ^ 64) in
      if negb (hi =? 0) then -1
      else
        let a := GoInt.wrap64 lo in
        if (a <? 0) || negb (a mod 2 ^ 64 =? lo) then -1 else a.

(** [pixelBufferLength] of package [image], for [image.NewRGBA]: the
    length of the pixel buffer of a rectangle, or a panic. *)
Definition pixelBufferLength (bytesPerPixel : Z) (r : Rectangle)
    (imageTypeName : string) : outcome Z :=
  let totalLength := mul3NonNeg bytesPerPixel (Rectangle_Dx r) (Rectangle_Dy r) in
  if totalLength <? 0 then
    Panics ("image: New" +:+ imageTypeName
            +:+ " Rectangle has huge or negative dimensions")
  else Returns totalLength.

(** [image.RGBA]: four bytes a pixel, rows [Stride] bytes apart. *)
Record RGBA_image : Type := mkRGBA_image {
  Pix : list Z;
  Stride : Z;
  Rect : Rectangle
}.

Definition PixOffset (p : RGBA_image) (x y : Z) : Z :=
  (y - Y (Min (Rect p))) * Stride p + (x - X (Min (Rect p))) * 4.

(** [RGBA.At], the four bytes of the [color.RGBA] it returns; the zero
    colour outside the bounds. *)
Definition RGBAAt (p : RGBA_image) (x y : Z) : Z * Z * Z * Z :=
  if negb (Point_In (mkPoint x y) (Rect p)) then (0, 0, 0, 0)
  else
    let i := Z.to_nat (PixOffset p x y) in
    (nth i (Pix p) 0, nth (i + 1) (Pix p) 0,
     nth (i + 2) (Pix p) 0, nth (i + 3) (Pix p) 0).

(** [color.RGBA.RGBA]: each byte [v] widened to 16 bits as [v | v << 8]. *)
Definition RGBA_channels (c : Z * Z * Z * Z) : Z * Z * Z * Z :=
  let '(r, g, b, a) := c in
  let widen v := Z.lor v (Z.shiftl v 8) in
  (widen r, widen g, widen b, widen a).

(** [RGBA.SubImage]: shares the pixels, from the offset of the new
    minimum corner on. *)
Definition SubImage (p : RGBA_image) (r : Rectangle) : RGBA_image :=
  let r := Rectangle_Intersect r (Rect p) in
  if Rectangle_Empty r then mkRGBA_image [] 0 ZR
  else
    let i := PixOffset p (X (Min r)) (Y (Min r)) in
    mkRGBA_image (drop (Z.to_nat i) (Pix p)) (Stride p) r.

(** ** Fonts and the drawing context *)

(** [imgfont.Face], by the two observations the scaffold makes of a face:
    the line height of its metrics and the advance [font.Drawer] measures
    for a string, both in 26.6 fixed point. *)
Record Face : Type := mkFace {
  Metrics_Height : Z;
  Drawer_MeasureString : list rune -> Z
}.

(** The calls made on a [gg.Context], in order. *)
Inductive DrawOp : Type :=
| DrawRoundedRectangle (x y w h r : float)
| DrawRectangle (x y w h : float)
| DrawCircle (x y r : float)
| DrawLine (x1 y1 x2 y2 : float)
| DrawString (s : list rune) (x y : float)
| DrawImage (im : RGBA_image) (x y : Z)
| SetHexColor (x : string)
| SetColor (c : Color)
| SetRGB255 (r g b : Z)
| SetLineWidth (w : float)
| SetFontFace (f : Face)
| Fill
| Stroke.

(** A [gg.Context] created by [gg.NewContext w h], with the calls made on it
    so far. *)
Record Context : Type := mkContext {
  ctxWidth : Z;
  ctxHeight : Z;
  calls : list DrawOp
}.

(** The two canvases of a render: [dc], which becomes the picture, and
    [bc], the offscreen canvas of the shadow. *)
Inductive Canvas : Type := canvas_dc | canvas_bc.

Definition draw (dc : Context) (ops : list DrawOp) : Context :=
  mkContext (ctxWidth dc) (ctxHeight dc) (calls dc ++ ops).

(** [Context.MeasureString] under the face last set: the advance in
    whole pixels and the face's line height. *)
Definition gg_MeasureString (f : Face) (s : list rune) : float * float :=
  (float64_of_int (Z.shiftr (Drawer_MeasureString f s) 6),
   PrimFloat.div (float64_of_int (Metrics_Height f)) 64%float).

(** ** The scaffold *)

Record Scaffold : Type := mkScaffold {
  content : list ColoredRune;
  factor : float;
  columns : Z;
  defaultForegroundColor : Color;
  defaultBackgroundColor : Color;
  (** [map[int]color.Color]; [None] is the nil map. *)
  customColors : option (gmap Z Color);
  clipCanvas : bool;
  drawDecorations : bool;
  drawShadow : bool;
  shadowBaseColor : string;
  shadowRadius : Z;
  shadowOffsetX : float;
  shadowOffsetY : float;
  paddingTop : float;
  paddingRight : float;
  paddingBottom : float;
  paddingLeft : float;
  drawBorder : bool;
  marginTop : float;
  marginRight : float;
  marginBottom : float;
  marginLeft : float;
  regular : Face;
  bold : Face;
  italic : Face;
  boldItalic : Face;
  lineSpacing : float;
  tabSpaces : Z
}.

Definition with_content (s : Scaffold) (v : list ColoredRune) : Scaffold :=
  mkScaffold v (factor s) (columns s) (defaultForegroundColor s)
    (defaultBackgroundColor s) (customColors s) (clipCanvas s)
    (drawDecorations s) (drawShadow s) (shadowBaseColor s) (shadowRadius s)
    (shadowOffsetX s) (shadowOffsetY s) (paddingTop s) (paddingRight s)
    (paddingBottom s) (paddingLeft s) (drawBorder s) (marginTop s)
    (marginRight s) (marginBottom s) (marginLeft s) (regular s) (bold s)
    (italic s) (boldItalic s) (lineSpacing s) (tabSpaces s).

Definition with_customColors (s : Scaffold) (v : option (gmap Z Color)) : Scaffold :=
  mkScaffold (content s) (factor s) (columns s) (defaultForegroundColor s)
    (defaultBackgroundColor s) v (clipCanvas s)
    (drawDecorations s) (drawShadow s) (shadowBaseColor s) (shadowRadius s)
    (shadowOffsetX s) (shadowOffsetY s) (paddingTop s) (paddingRight s)
    (paddingBottom s) (paddingLeft s) (drawBorder s) (marginTop s)
    (marginRight s) (marginBottom s) (marginLeft s) (regular s) (bold s)
    (italic s) (boldItalic s) (lineSpacing s) (tabSpaces s).

Definition with_defaultForegroundColor (s : Scaffold) (v : Color) : Scaffold :=
  mkScaffold (content s) (factor s) (columns s) v
    (defaultBackgroundColor s) (customColors s) (clipCanvas s)
    (drawDecorations s) (drawShadow s) (shadowBaseColor s) (shadowRadius s)
    (shadowOffsetX s) (shadowOffsetY s) (paddingTop s) (paddingRight s)
    (paddingBottom s) (paddingLeft s) (drawBorder s) (marginTop s)
    (marginRight s) (marginBottom s) (marginLeft s) (regular s) (bold s)
    (italic s) (boldItalic s) (lineSpacing s) (tabSpaces s).

Definition with_defaultBackgroundColor (s : Scaffold) (v : Color) : Scaffold :=
  mkScaffold (content s) (factor s) (columns s) (defaultForegroundColor s)
    v (customColors s) (clipCanvas s)
    (drawDecorations s) (drawShadow s) (shadowBaseColor s) (shadowRadius s)
    (shadowOffsetX s) (shadowOffsetY s) (paddingTop s) (paddingRight s)
    (paddingBottom s) (paddingLeft s) (drawBorder s) (marginTop s)
    (marginRight s) (marginBottom s) (marginLeft s) (regular s) (bold s)
    (italic s) (boldItalic s) (lineSpacing s) (tabSpaces s).

(** [SetColumns], [DrawDecorations], [DrawShadow], [ClipCanvas] *)
Definition SetColumns (s : Scaffold) (v : Z) : Scaffold :=
  mkScaffold (content s) (factor s) v (defaultForegroundColor s)
    (defaultBackgroundColor s) (customColors s) (clipCanvas s)
    (drawDecorations s) (drawShadow s) (shadowBaseColor s) (shadowRadius s)
    (shadowOffsetX s) (shadowOffsetY s) (paddingTop s) (paddingRight s)
    (paddingBottom s) (paddingLeft s) (drawBorder s) (marginTop s)
    (marginRight s) (marginBottom s) (marginLeft s) (regular s) (bold s)
    (italic s) (boldItalic s) (lineSpacing s) (tabSpaces s).

Definition DrawDecorations (s : Scaffold) (v : bool) : Scaffold :=
  mkScaffold (content s) (factor s) (columns s) (defaultForegroundColor s)
    (defaultBackgroundColor s) (customColors s) (clipCanvas s)
    v (drawShadow s) (shadowBaseColor s) (shadowRadius s)
    (shadowOffsetX s) (shadowOffsetY s) (paddingTop s) (paddingRight s)
    (paddingBottom s) (paddingLeft s) (drawBorder s) (marginTop s)
    (marginRight s) (marginBottom s) (marginLeft s) (regular s) (bold s)
    (italic s) (boldItalic s) (lineSpacing s) (tabSpaces s).

Definition DrawShadow (s : Scaffold) (v : bool) : Scaffold :=
  mkScaffold (content s) (factor s) (columns s) (defaultForegroundColor s)
    (defaultBackgroundColor s) (customColors s) (clipCanvas s)
    (drawDecorations s) v (shadowBaseColor s) (shadowRadius s)
    (shadowOffsetX s) (shadowOffsetY s) (paddingTop s) (paddingRight s)
    (paddingBottom s) (paddingLeft s) (drawBorder s) (marginTop s)
    (marginRight s) (marginBottom s) (marginLeft s) (regular s) (bold s)
    (italic s) (boldItalic s) (lineSpacing s) (tabSpaces s).

Definition ClipCanvas (s : Scaffold) (v : bool) : Scaffold :=
  mkScaffold (content s) (factor s) (columns s) (defaultForegroundColor s)
    (defaultBackgroundColor s) (customColors s) v
    (drawDecorations s) (drawShadow s) (shadowBaseColor s) (shadowRadius s)
    (shadowOffsetX s) (shadowOffsetY s) (paddingTop s) (paddingRight s)
    (paddingBottom s) (paddingLeft s) (drawBorder s) (marginTop s)
    (marginRight s) (marginBottom s) (marginLeft s) (regular s) (bold s)
    (italic s) (boldItalic s) (lineSpacing s) (tabSpaces s).

(** The anonymous struct the colorscheme JSON is decoded into; a nil
    [Colors] map reads like an empty one. *)
Record Scheme : Type := mkScheme { Colors : gmap string string }.

(** ** External collaborators *)

Class Externals : Type := {
  (** an [io.Reader] and an [io.Writer] *)
  Reader : Type;
  Writer : Type;
  Writer_Write : Writer -> string -> Writer * option error;
  (** [bunt.ParseStream] and [bunt.String.String] *)
  bunt_ParseStream : Reader -> error + list ColoredRune;
  bunt_String : list ColoredRune -> string;
  (** the columns [term.GetTerminalSize] reports *)
  term_columns : Z;
  (** [os.ReadFile] *)
  os_ReadFile : string -> error + string;
  (** [json.Unmarshal] into a slice of schemes and into one scheme *)
  json_Unmarshal_schemes : string -> error + list Scheme;
  json_Unmarshal_scheme : string -> error + Scheme;
  (** [stackblur.Process] *)
  stackblur_Process : RGBA_image -> Z -> error + RGBA_image;
  (** what the runtime does when [gg.NewContext] allocates the buffers of
      a canvas of [w] by [h] that [image.NewRGBA] has accepted: nothing, or
      a panic (or a fatal error) with this message; the canvases of a
      render are allocated one after the other, each with an outcome of
      its own *)
  runtime_alloc : Canvas -> Z -> Z -> option string;
  (** [Context.Image]: the raster gg has painted for the calls made *)
  gg_Image : Context -> RGBA_image;
  (** [png.Encode] *)
  png_Encode : Writer -> RGBA_image -> Writer * option error
}.

(** ** Loading a colorscheme *)

(** Code that updates the scaffold and may stop with an error: the state
    reached so far is kept when it stops. *)
Definition Load (A : Type) : Type := Scaffold -> Scaffold * (error + A).

Definition ret {A} (a : A) : Load A := fun s => (s, inr a).

Definition fail {A} (e : error) : Load A := fun s => (s, inl e).

Definition bind {A B} (m : Load A) (k : A -> Load B) : Load B :=
  fun s =>
    match m s with
    | (s', inl e) => (s', inl e)
    | (s', inr a) => k a s'
    end.

Definition modify (f : Scaffold -> Scaffold) : Load unit :=
  fun s => (f s, inr tt).

#[local] Instance Load_ret : MRet Load := @ret.
#[local] Instance Load_bind : MBind Load := fun A B k m => bind m k.

(** [c, err := parseHexColor(hex); if err != nil { return wrap(err) }] *)
Definition parse_or (hex : string) (wrap : error -> error) : Load Color :=
  match parseHexColor hex with
  | inl err => fail (wrap err)
  | inr c => ret c
  end.

(** [s.customColors[i] = c], on the map made at the start of the load. *)
Definition set_customColor (i : Z) (c : Color) (s : Scaffold) : Scaffold :=
  with_customColors s (Some (<[i := c]> (default ∅ (customColors s)))).

(** [fmt.Sprintf("color%d", i)] *)
Definition colorKey (i : Z) : string := "color" +:+ pretty i.

(** [for i := 0; i < 16; i++ { ... }], over the indices still to visit. *)
Fixpoint load_colors (scheme : Scheme) (indices : list Z) : Load unit :=
  match indices with
  | [] => ret tt
  | i :: rest =>
      match Colors scheme !! colorKey i with
      | Some hexColor =>
          c ← parse_or hexColor
                (ErrorfW ("invalid color " +:+ hexColor +:+ " for " +:+ colorKey i));
          modify (set_customColor i c);;
          load_colors scheme rest
      | None => load_colors scheme rest
      end
  end.

Definition load_foreground (scheme : Scheme) : Load unit :=
  match Colors scheme !! "foreground"%string with
  | Some foregroundHex =>
      c ← parse_or foregroundHex
            (ErrorfW ("invalid foreground color " +:+ foregroundHex));
      modify (fun s => with_defaultForegroundColor s c)
  | None => ret tt
  end.

Definition load_background (scheme : Scheme) : Load unit :=
  match Colors scheme !! "background"%string with
  | Some backgroundHex =>
      c ← parse_or backgroundHex
            (ErrorfW ("invalid background color " +:+ backgroundHex));
      modify (fun s => with_defaultBackgroundColor s c)
  | None => ret tt
  end.

(** The body both decoding branches of [LoadColorscheme] share, written
    twice in the source: the sixteen indexed colours, then the foreground,
    then the background. *)
Definition apply_scheme (scheme : Scheme) : Load unit :=
  load_colors scheme (seqZ 0 16);;
  load_foreground scheme;;
  load_background scheme.

Definition error_of (r : error + unit) : option error :=
  match r with
  | inl e => Some e
  | inr _ => None
  end.

Definition LoadColorscheme `{Externals} (s : Scaffold) (colorschemeFile : string)
  : Scaffold * option error :=
  match os_ReadFile colorschemeFile with
  | inl err => (s, Some (ErrorfW "failed to read colorscheme file" err))
  | inr data =>
      let s := with_customColors s (Some ∅) in
      match json_Unmarshal_schemes data with
      | inr (scheme :: _) =>
          let '(s', r) := apply_scheme scheme s in (s', error_of r)
      | _ =>
          match json_Unmarshal_scheme data with
          | inl err => (s, Some (ErrorfW "failed to parse colorscheme JSON" err))
          | inr scheme =>
              let '(s', r) := apply_scheme scheme s in (s', error_of r)
          end
      end
  end.

(** ** The colour resolver *)

(** [getColor] *)
Definition getColor (s : Scaffold) (ansiColorIndex : Z) (fallbackColor : Color) : Color :=
  match customColors s with
  | Some m =>
      match m !! ansiColorIndex with
      | Some customColor => customColor
      | None => fallbackColor
      end
  | None => fallbackColor
  end.

(** The entries of the [standardColors] literal of [mapStandardColor], in
    source order, repeated keys included. *)
Definition standardColors_entries : list ((Z * Z * Z) * Z) :=
  [ ((0, 0, 0), 0); ((128, 0, 0), 1); ((0, 128, 0), 2); ((128, 128, 0), 3);
    ((0, 0, 128), 4); ((128, 0, 128), 5); ((0, 128, 128), 6);
    ((192, 192, 192), 7); ((128, 128, 128), 8); ((255, 0, 0), 9);
    ((0, 255, 0), 10); ((255, 255, 0), 11); ((0, 0, 255), 12);
    ((255, 0, 255), 13); ((0, 255, 255), 14); ((255, 255, 255), 15);
    ((0, 0, 0), 0); ((205, 0, 0), 1); ((0, 205, 0), 2); ((205, 205, 0), 3);
    ((0, 0, 238), 4); ((205, 0, 205), 5); ((0, 205, 205), 6);
    ((229, 229, 229), 7); ((127, 127, 127), 8); ((255, 0, 0), 9);
    ((0, 255, 0), 10); ((255, 255, 0), 11); ((92, 92, 255), 12);
    ((255, 0, 255), 13); ((0, 255, 255), 14); ((255, 255, 255), 15);
    ((0, 0, 0), 0); ((194, 54, 33), 1); ((37, 188, 36), 2); ((173, 173, 39), 3);
    ((73, 46, 225), 4); ((211, 56, 211), 5); ((51, 187, 200), 6);
    ((203, 204, 205), 7); ((129, 131, 131), 8); ((252, 57, 31), 9);
    ((49, 231, 34), 10); ((234, 236, 35), 11); ((88, 51, 255), 12);
    ((249, 53, 248), 13); ((20, 240, 240), 14); ((233, 235, 235), 15) ].

(** The map the literal denotes: a later entry replaces an earlier one of
    the same key. *)
Definition standardColors : gmap (Z * Z * Z) Z :=
  fold_left (fun m kv => <[kv.1 := kv.2]> m) standardColors_entries ∅.

(** The [ansiColors] table of [findClosestColor]: r, g, b, index. *)
Definition ansiColors : list (Z * Z * Z * Z) :=
  [ (0, 0, 0, 0); (128, 0, 0, 1); (0, 128, 0, 2); (128, 128, 0, 3);
    (0, 0, 128, 4); (128, 0, 128, 5); (0, 128, 128, 6); (192, 192, 192, 7);
    (128, 128, 128, 8); (255, 0, 0, 9); (0, 255, 0, 10); (255, 255, 0, 11);
    (0, 0, 255, 12); (255, 0, 255, 13); (0, 255, 255, 14); (255, 255, 255, 15) ].

(** [dr*dr + dg*dg + db*db] in [int] arithmetic. *)
Definition distance_to (r g b : Z) (ansiColor : Z * Z * Z * Z) : Z :=
  let '(ar, ag, ab, _) := ansiColor in
  let dr := GoInt.sub r ar in
  let dg := GoInt.sub g ag in
  let db := GoInt.sub b ab in
  GoInt.add (GoInt.add (GoInt.mul dr dr) (GoInt.mul dg dg)) (GoInt.mul db db).

(** One round of the search loop on [(minDistance, closestIndex)]. *)
Definition closest_step (r g b : Z) (st : Z * Z) (ansiColor : Z * Z * Z * Z) : Z * Z :=
  let '(minDistance, closestIndex) := st in
  let distance := distance_to r g b ansiColor in
  if distance <? minDistance then (distance, ansiColor.2) else st.

(** [findClosestColor]; [None] is [(nil, false)]. *)
Definition findClosestColor (s : Scaffold) (r g b : Z) : option Color :=
  match customColors s with
  | None => None
  | Some m =>
      let '(minDistance, closestIndex) :=
        fold_left (closest_step r g b) ansiColors (GoInt.MaxInt, -1) in
      if (closestIndex >=? 0) && (minDistance <? 10000) then m !! closestIndex
      else None
  end.

(** [mapStandardColor]; [None] is [(nil, false)]. *)
Definition mapStandardColor (s : Scaffold) (r g b : Z) : option Color :=
  match customColors s with
  | None => None
  | Some m =>
      match standardColors !! (r, g, b) ≫= (fun colorIndex => m !! colorIndex) with
      | Some customColor => Some customColor
      | None => findClosestColor s r g b
      end
  end.

(** ** The content buffer *)

Section Pipeline.
Context `{Externals}.

(** [GetFixedColumns] *)
Definition GetFixedColumns (s : Scaffold) : Z :=
  if negb (columns s =? 0) then columns s else term_columns.

(** The synthetic newline of a wrap: the style of the rune that caused it. *)
Definition wrap_newline (cr : ColoredRune) : ColoredRune :=
  mkColoredRune newline (Settings cr).

(** One round of the loop of [AddContent] on [(tmp, counter)]. *)
Definition wrap_step (fixedColumns : Z) (st : list ColoredRune * Z) (cr : ColoredRune)
  : list ColoredRune * Z :=
  let '(tmp, counter) := st in
  let counter := GoInt.add counter 1 in
  let counter := if Symbol cr =? newline then 0 else counter in
  if counter >? fixedColumns then (tmp ++ [wrap_newline cr; cr], 0)
  else (tmp ++ [cr], counter).

(** The loop of [AddContent]: what is appended for the parsed runes. *)
Definition wrap (fixedColumns : Z) (parsed : list ColoredRune) : list ColoredRune :=
  (fold_left (wrap_step fixedColumns) parsed ([], 0)).1.

(** [AddContent] *)
Definition AddContent (s : Scaffold) (input : Reader) : Scaffold * option error :=
  match bunt_ParseStream input with
  | inl err => (s, Some (ErrorfW "failed to parse input stream" err))
  | inr parsed =>
      (with_content s (content s ++ wrap (GetFixedColumns s) parsed), None)
  end.

(** [WriteRaw] *)
Definition WriteRaw (s : Scaffold) (w : Writer) : Writer * option error :=
  Writer_Write w (bunt_String (content s)).

(** ** Measuring *)

(** [fontHeight] *)
Definition fontHeight (s : Scaffold) : float :=
  float64_of_int (Z.shiftr (Metrics_Height (regular s)) 6).

(** The lines [measureContent] counts and measures. *)
Definition content_lines (s : Scaffold) : list (list rune) :=
  Split_newline (TrimSuffix_newline (string_of_runes (map Symbol (content s)))).

(** One round of the loop over the lines in the unlimited case. *)
Definition widest_step (face : Face) (width : float) (line : list rune) : float :=
  let lineWidth := float64_of_int (Z.shiftr (Drawer_MeasureString face line) 6) in
  if PrimFloat.ltb width lineWidth then lineWidth else width.

(** [measureContent] *)
Definition measureContent (s : Scaffold) : outcome (float * float) :=
  let lines := content_lines s in
  let width :=
    if columns s =? 0 then Returns (fold_left (widest_step (regular s)) lines 0%float)
    else
      match Repeat_a (GetFixedColumns s) with
      | Panics msg => Panics msg
      | Returns reference =>
          Returns (float64_of_int (Z.shiftr (Drawer_MeasureString (regular s) reference) 6))
      end in
  match width with
  | Panics msg => Panics msg
  | Returns width =>
      let height :=
        (float64_of_int (Z.of_nat (length lines)) * fontHeight s * lineSpacing s)%float in
      Returns (width, height)
  end.

(** ** Compositing *)

(** [f := func(value float64) float64 { return s.factor * value }] *)
Definition scaled (s : Scaffold) (value : float) : float :=
  (factor s * value)%float.

(** The face the first [switch] of the glyph loop sets. *)
Definition face_of (s : Scaffold) (settings : Z) : Face :=
  let emphasis := Z.land settings 28 in
  if emphasis =? 4 then bold s
  else if emphasis =? 8 then italic s
  else if emphasis =? 12 then boldItalic s
  else regular s.

(** [if customColor, found := s.mapStandardColor(r, g, b); found
     { dc.SetColor(customColor) } else { dc.SetRGB255(r, g, b) }] *)
Definition set_resolved (s : Scaffold) (r g b : Z) : DrawOp :=
  match mapStandardColor s r g b with
  | Some customColor => SetColor customColor
  | None => SetRGB255 r g b
  end.

(** The calls of the underline: made when the bits under the mask [0x1C]
    equal 16. *)
Definition underline_ops (s : Scaffold) (settings : Z) (x y w : float) : list DrawOp :=
  if Z.land settings 28 =? 16 then
    [ DrawLine x (y + scaled s 4) (x + w) (y + scaled s 4)%float;
      SetLineWidth (scaled s 1);
      Stroke ]
  else [].

(** One round of the glyph loop on the calls made and the cursor [(x, y)];
    [left] is [xOffset + paddingLeft]. *)
Definition draw_rune (s : Scaffold) (left : float)
    (st : list DrawOp * float * float) (cr : ColoredRune)
  : list DrawOp * float * float :=
  let '(ops, x, y) := st in
  let settings := Settings cr in
  let ops := ops ++ [SetFontFace (face_of s settings)] in
  let str := string_of_rune (Symbol cr) in
  let '(w, h) := gg_MeasureString (face_of s settings) str in
  let ops :=
    if Z.land settings 2 =? 2 then
      let r := Z.land (Z.shiftr settings 32) 255 in
      let g := Z.land (Z.shiftr settings 40) 255 in
      let b := Z.land (Z.shiftr settings 48) 255 in
      ops ++ [set_resolved s r g b; DrawRectangle x (y - h + 12) w h; Fill]
    else ops in
  let ops :=
    if Z.land settings 1 =? 1 then
      let r := Z.land (Z.shiftr settings 8) 255 in
      let g := Z.land (Z.shiftr settings 16) 255 in
      let b := Z.land (Z.shiftr settings 24) 255 in
      ops ++ [set_resolved s r g b]
    else ops ++ [SetColor (defaultForegroundColor s)] in
  if bool_decide (str = [newline]) then (ops, left, (y + h * lineSpacing s)%float)
  else if bool_decide (str = [tab]) then
    (ops, (x + w * float64_of_int (tabSpaces s))%float, y)
  else
    let str :=
      if bool_decide (str = [10007]) || bool_decide (str = [739]) then [215]
      else str in
    let ops := ops ++ [DrawString str x y] in
    let ops := ops ++ underline_ops s settings x y w in
    (ops, (x + w)%float, y).

(** The three window buttons. *)
Definition decoration_ops (s : Scaffold) (xOffset yOffset : float) : list DrawOp :=
  flat_map
    (fun ic : Z * string =>
       [ DrawCircle
           (xOffset + paddingLeft s + float64_of_int ic.1 * scaled s 25 + scaled s 4)
           (yOffset + paddingTop s + scaled s 4)
           (scaled s 9);
         SetHexColor ic.2;
         Fill ])%float
    [(0, "#ED655A"%string); (1, "#E1C04C"%string); (2, "#71BD47"%string)].

(** The local variables of [image] that lay the canvas out. *)
Record Layout : Type := mkLayout {
  innerWidth : float;
  innerHeight : float;
  width : float;
  height : float;
  titleOffset : float
}.

(** [image] up to the creation of [dc]: measuring and sizing. *)
Definition layout (s : Scaffold) : outcome Layout :=
  let radius := scaled s 9 in
  let distance := scaled s 25 in
  match measureContent s with
  | Panics msg => Panics msg
  | Returns (contentWidth, contentHeight) =>
      let contentWidth := math_Max contentWidth (3 * distance + 3 * radius)%float in
      let titleOffset := if drawDecorations s then scaled s 40 else 0%float in
      let innerWidth := (contentWidth + paddingLeft s + paddingRight s)%float in
      let innerHeight :=
        (contentHeight + paddingTop s + paddingBottom s + titleOffset)%float in
      let width := (innerWidth + marginLeft s + marginRight s)%float in
      let height := (innerHeight + marginTop s + marginBottom s)%float in
      Returns (mkLayout innerWidth innerHeight width height titleOffset)
  end.

(** [gg.NewContext w h], which is
    [NewContextForRGBA(image.NewRGBA(image.Rect(0, 0, w, h)))]:
    [image.NewRGBA] panics on a rectangle whose buffer length leaves the
    range of [int], and the allocation of the buffers is the runtime's. *)
Definition NewContext (canvas : Canvas) (w h : Z) : outcome Context :=
  match pixelBufferLength 4 (image_Rect 0 0 w h) "RGBA" with
  | Panics msg => Panics msg
  | Returns _ =>
      match runtime_alloc canvas w h with
      | Some msg => Panics msg
      | None => Returns (mkContext w h [])
      end
  end.

(** The offscreen context [bc] of the shadow stage, once its rectangle is
    filled; [xOffset] and [yOffset] are already moved by half the shadow
    offsets. *)
Definition shadow_layer (s : Scaffold) (bc : Context) (l : Layout)
    (xOffset yOffset : float) : Context :=
  draw bc
    [ DrawRoundedRectangle (xOffset + shadowOffsetX s) (yOffset + shadowOffsetY s)
        (innerWidth l) (innerHeight l) (scaled s 6);
      SetHexColor (shadowBaseColor s);
      Fill ]%float.

(** [image] from the window body on: the calls made on [dc] once the shadow
    stage is over. *)
Definition paint_window (s : Scaffold) (dc : Context) (l : Layout)
    (xOffset yOffset : float) : Context :=
  let corner := scaled s 6 in
  let dc :=
    draw dc [ DrawRoundedRectangle xOffset yOffset (innerWidth l) (innerHeight l) corner;
              SetColor (defaultBackgroundColor s);
              Fill ] in
  let dc :=
    if drawBorder s then
      draw dc [ DrawRoundedRectangle xOffset yOffset (innerWidth l) (innerHeight l) corner;
                SetHexColor "#404040";
                SetLineWidth (scaled s 1);
                Stroke ]
    else dc in
  let dc :=
    if drawDecorations s then draw dc (decoration_ops s xOffset yOffset) else dc in
  let left := (xOffset + paddingLeft s)%float in
  let y := (yOffset + paddingTop s + titleOffset l + fontHeight s)%float in
  draw dc (fold_left (draw_rune s left) (content s) ([], left, y)).1.1.

(** [image] *)
Definition image (s : Scaffold) : outcome (error + RGBA_image) :=
  match layout s with
  | Panics msg => Panics msg
  | Returns l =>
      let xOffset := marginLeft s in
      let yOffset := marginTop s in
      match NewContext canvas_dc (int_of_float64 (width l))
              (int_of_float64 (height l)) with
      | Panics msg => Panics msg
      | Returns dc =>
          if drawShadow s then
            let xOffset := (xOffset - shadowOffsetX s / 2)%float in
            let yOffset := (yOffset - shadowOffsetY s / 2)%float in
            match NewContext canvas_bc (int_of_float64 (width l))
                    (int_of_float64 (height l)) with
            | Panics msg => Panics msg
            | Returns bc =>
                match stackblur_Process
                        (gg_Image (shadow_layer s bc l xOffset yOffset))
                        (shadowRadius s) with
                | inl err => Returns (inl err)
                | inr shadow =>
                    let dc := draw dc [DrawImage shadow 0 0] in
                    Returns (inr (gg_Image (paint_window s dc l xOffset yOffset)))
                end
            end
          else Returns (inr (gg_Image (paint_window s dc l xOffset yOffset)))
      end
  end.

(** ** Finishing the canvas *)

(** [r, g, b, a := imgRGBA.At(x, y).RGBA()] and
    [isTransparent := r == 0 && g == 0 && b == 0 && a == 0] *)
Definition isTransparent (img : RGBA_image) (x y : Z) : bool :=
  let '(r, g, b, a) := RGBA_channels (RGBAAt img x y) in
  (r =? 0) && (g =? 0) && (b =? 0) && (a =? 0).

(** The body of the two nested loops of [WritePNG] at pixel [(x, y)], on
    [(minX, minY, maxX, maxY)]. *)
Definition scan_pixel (img : RGBA_image) (x : Z) (st : Z * Z * Z * Z) (y : Z)
  : Z * Z * Z * Z :=
  let '(minX, minY, maxX, maxY) := st in
  if negb (isTransparent img x y) then
    let minX := if x <? minX then x else minX in
    let minY := if y <? minY then y else minY in
    let maxX := if x >? maxX then x else maxX in
    let maxY := if y >? maxY then y else maxY in
    (minX, minY, maxX, maxY)
  else st.

(** [for y := bounds.Min.Y; y < bounds.Max.Y; y++ { ... }] *)
Definition scan_column (img : RGBA_image) (st : Z * Z * Z * Z) (x : Z) : Z * Z * Z * Z :=
  let bounds := Rect img in
  fold_left (scan_pixel img x)
    (seqZ (Y (Min bounds)) (Y (Max bounds) - Y (Min bounds))) st.

(** [for x := bounds.Min.X; x < bounds.Max.X; x++ { ... }], from
    [minX, minY := math.MaxInt, math.MaxInt] and [maxX, maxY := 0, 0]. *)
Definition opaque_bounds (img : RGBA_image) : Z * Z * Z * Z :=
  let bounds := Rect img in
  fold_left (scan_column img)
    (seqZ (X (Min bounds)) (X (Max bounds) - X (Min bounds)))
    (GoInt.MaxInt, GoInt.MaxInt, 0, 0).

(** The clip of [WritePNG]:
    [imgRGBA.SubImage(image.Rect(minX, minY, maxX, maxY))]. *)
Definition clip (img : RGBA_image) : RGBA_image :=
  let '(minX, minY, maxX, maxY) := opaque_bounds img in
  SubImage img (image_Rect minX minY maxX maxY).

(** [WritePNG]. The image of a [gg.Context] is an [image.RGBA], so the type
    assertion of the source succeeds. *)
Definition WritePNG (s : Scaffold) (w : Writer) : outcome (Writer * option error) :=
  match image s with
  | Panics msg => Panics msg
  | Returns (inl err) => Returns (w, Some err)
  | Returns (inr img) =>
      let img := if clipCanvas s then clip img else img in
      Returns (png_Encode w img)
  end.

End Pipeline.

(** ** Geometry and font setters *)

(** [SetFontFaceRegular], [SetFontFaceBold], [SetFontFaceItalic],
    [SetFontFaceBoldItalic], [DrawBorder] *)
Definition SetFontFaceRegular (s : Scaffold) (face : Face) : Scaffold :=
  mkScaffold (content s) (factor s) (columns s) (defaultForegroundColor s)
    (defaultBackgroundColor s) (customColors s) (clipCanvas s)
    (drawDecorations s) (drawShadow s) (shadowBaseColor s) (shadowRadius s)
    (shadowOffsetX s) (shadowOffsetY s) (paddingTop s) (paddingRight s)
    (paddingBottom s) (paddingLeft s) (drawBorder s) (marginTop s)
    (marginRight s) (marginBottom s) (marginLeft s) face (bold s) (italic s)
    (boldItalic s) (lineSpacing s) (tabSpaces s).

Definition SetFontFaceBold (s : Scaffold) (face : Face) : Scaffold :=
  mkScaffold (content s) (factor s) (columns s) (defaultForegroundColor s)
    (defaultBackgroundColor s) (customColors s) (clipCanvas s)
    (drawDecorations s) (drawShadow s) (shadowBaseColor s) (shadowRadius s)
    (shadowOffsetX s) (shadowOffsetY s) (paddingTop s) (paddingRight s)
    (paddingBottom s) (paddingLeft s) (drawBorder s) (marginTop s)
    (marginRight s) (marginBottom s) (marginLeft s) (regular s) face
    (italic s) (boldItalic s) (lineSpacing s) (tabSpaces s).

Definition SetFontFaceItalic (s : Scaffold) (face : Face) : Scaffold :=
  mkScaffold (content s) (factor s) (columns s) (defaultForegroundColor s)
    (defaultBackgroundColor s) (customColors s) (clipCanvas s)
    (drawDecorations s) (drawShadow s) (shadowBaseColor s) (shadowRadius s)
    (shadowOffsetX s) (shadowOffsetY s) (paddingTop s) (paddingRight s)
    (paddingBottom s) (paddingLeft s) (drawBorder s) (marginTop s)
    (marginRight s) (marginBottom s) (marginLeft s) (regular s) (bold s) face
    (boldItalic s) (lineSpacing s) (tabSpaces s).

Definition SetFontFaceBoldItalic (s : Scaffold) (face : Face) : Scaffold :=
  mkScaffold (content s) (factor s) (columns s) (defaultForegroundColor s)
    (defaultBackgroundColor s) (customColors s) (clipCanvas s)
    (drawDecorations s) (drawShadow s) (shadowBaseColor s) (shadowRadius s)
    (shadowOffsetX s) (shadowOffsetY s) (paddingTop s) (paddingRight s)
    (paddingBottom s) (paddingLeft s) (drawBorder s) (marginTop s)
    (marginRight s) (marginBottom s) (marginLeft s) (regular s) (bold s)
    (italic s) face (lineSpacing s) (tabSpaces s).

Definition DrawBorder (s : Scaffold) (value : bool) : Scaffold :=
  mkScaffold (content s) (factor s) (columns s) (defaultForegroundColor s)
    (defaultBackgroundColor s) (customColors s) (clipCanvas s)
    (drawDecorations s) (drawShadow s) (shadowBaseColor s) (shadowRadius s)
    (shadowOffsetX s) (shadowOffsetY s) (paddingTop s) (paddingRight s)
    (paddingBottom s) (paddingLeft s) value (marginTop s) (marginRight s)
    (marginBottom s) (marginLeft s) (regular s) (bold s) (italic s)
    (boldItalic s) (lineSpacing s) (tabSpaces s).

(** [SetPadding], [SetMargin] and the horizontal and vertical setters: every
    length is stored multiplied by the scale factor. *)
Definition SetPadding (s : Scaffold) (top right bottom left : float) : Scaffold :=
  mkScaffold (content s) (factor s) (columns s) (defaultForegroundColor s)
    (defaultBackgroundColor s) (customColors s) (clipCanvas s)
    (drawDecorations s) (drawShadow s) (shadowBaseColor s) (shadowRadius s)
    (shadowOffsetX s) (shadowOffsetY s) (factor s * top)%float
    (factor s * right)%float (factor s * bottom)%float (factor s * left)%float
    (drawBorder s) (marginTop s) (marginRight s) (marginBottom s)
    (marginLeft s) (regular s) (bold s) (italic s) (boldItalic s)
    (lineSpacing s) (tabSpaces s).

Definition SetMargin (s : Scaffold) (top right bottom left : float) : Scaffold :=
  mkScaffold (content s) (factor s) (columns s) (defaultForegroundColor s)
    (defaultBackgroundColor s) (customColors s) (clipCanvas s)
    (drawDecorations s) (drawShadow s) (shadowBaseColor s) (shadowRadius s)
    (shadowOffsetX s) (shadowOffsetY s) (paddingTop s) (paddingRight s)
    (paddingBottom s) (paddingLeft s) (drawBorder s) (factor s * top)%float
    (factor s * right)%float (factor s * bottom)%float (factor s * left)%float
    (regular s) (bold s) (italic s) (boldItalic s) (lineSpacing s)
    (tabSpaces s).

Definition SetHorizontalPadding (s : Scaffold) (value : float) : Scaffold :=
  mkScaffold (content s) (factor s) (columns s) (defaultForegroundColor s)
    (defaultBackgroundColor s) (customColors s) (clipCanvas s)
    (drawDecorations s) (drawShadow s) (shadowBaseColor s) (shadowRadius s)
    (shadowOffsetX s) (shadowOffsetY s) (paddingTop s)
    (factor s * value)%float (paddingBottom s) (factor s * value)%float
    (drawBorder s) (marginTop s) (marginRight s) (marginBottom s)
    (marginLeft s) (regular s) (bold s) (italic s) (boldItalic s)
    (lineSpacing s) (tabSpaces s).

Definition SetVerticalPadding (s : Scaffold) (value : float) : Scaffold :=
  mkScaffold (content s) (factor s) (columns s) (defaultForegroundColor s)
    (defaultBackgroundColor s) (customColors s) (clipCanvas s)
    (drawDecorations s) (drawShadow s) (shadowBaseColor s) (shadowRadius s)
    (shadowOffsetX s) (shadowOffsetY s) (factor s * value)%float
    (paddingRight s) (factor s * value)%float (paddingLeft s) (drawBorder s)
    (marginTop s) (marginRight s) (marginBottom s) (marginLeft s) (regular s)
    (bold s) (italic s) (boldItalic s) (lineSpacing s) (tabSpaces s).

Definition SetHorizontalMargin (s : Scaffold) (value : float) : Scaffold :=
  mkScaffold (content s) (factor s) (columns s) (defaultForegroundColor s)
    (defaultBackgroundColor s) (customColors s) (clipCanvas s)
    (drawDecorations s) (drawShadow s) (shadowBaseColor s) (shadowRadius s)
    (shadowOffsetX s) (shadowOffsetY s) (paddingTop s) (paddingRight s)
    (paddingBottom s) (paddingLeft s) (drawBorder s) (marginTop s)
    (factor s * value)%float (marginBottom s) (factor s * value)%float
    (regular s) (bold s) (italic s) (boldItalic s) (lineSpacing s)
    (tabSpaces s).

Definition SetVerticalMargin (s : Scaffold) (value : float) : Scaffold :=
  mkScaffold (content s) (factor s) (columns s) (defaultForegroundColor s)
    (defaultBackgroundColor s) (customColors s) (clipCanvas s)
    (drawDecorations s) (drawShadow s) (shadowBaseColor s) (shadowRadius s)
    (shadowOffsetX s) (shadowOffsetY s) (paddingTop s) (paddingRight s)
    (paddingBottom s) (paddingLeft s) (drawBorder s) (factor s * value)%float
    (marginRight s) (factor s * value)%float (marginLeft s) (regular s)
    (bold s) (italic s) (boldItalic s) (lineSpacing s) (tabSpaces s).
(** ** Loading custom fonts *)

(** The font packages [LoadCustomFonts] calls: [truetype.Parse] and
    [truetype.NewFace], [opentype.Parse] and [opentype.NewFace], the faces
    made for a size in points and a resolution. *)
Class FontExternals : Type := {
  truetype_Font : Type;
  opentype_Font : Type;
  truetype_Parse : string -> error + truetype_Font;
  truetype_NewFace : truetype_Font -> float -> Z -> Face;
  opentype_Parse : string -> error + opentype_Font;
  opentype_NewFace : opentype_Font -> float -> Z -> error + Face
}.

Definition defaultFontSize : float := 12.
Definition defaultFontDPI : Z := 144.

(** [strings.HasSuffix] *)
Definition HasSuffix (s suffix : string) : bool :=
  let n := String.length s in
  let m := String.length suffix in
  (m <=? n)%nat && String.eqb (substring (n - m) m s) suffix.

(** [strings.ToLower], on the bytes of the string: the letters [A] to [Z]
    are lowered. Go lowers letters outside ASCII too; no such letter turns
    into one of the bytes of [".ttf"], so the suffix test of
    [LoadCustomFonts] reads the same on both. *)
Definition ToLower_byte (c : ascii) : ascii :=
  let n := N_of_ascii c in
  if ((65 <=? n) && (n <=? 90))%N then ascii_of_N (n + 32) else c.

Fixpoint ToLower (s : string) : string :=
  match s with
  | EmptyString => EmptyString
  | String c rest => String (ToLower_byte c) (ToLower rest)
  end.

Section Fonts.
Context `{Externals} `{FontExternals}.

(** The body of the loop of [LoadCustomFonts] up to the [switch]: the face
    read from one path, or the error the call returns. *)
Definition load_face (s : Scaffold) (fontPath : string) : error + Face :=
  match os_ReadFile fontPath with
  | inl err => inl (ErrorfW ("failed to read font file " +:+ fontPath) err)
  | inr fontBytes =>
      if HasSuffix (ToLower fontPath) ".ttf" then
        match truetype_Parse fontBytes with
        | inl err => inl (ErrorfW ("failed to parse TTF font " +:+ fontPath) err)
        | inr ttfFont =>
            inr (truetype_NewFace ttfFont (factor s * defaultFontSize) defaultFontDPI)
        end
      else
        match opentype_Parse fontBytes with
        | inl err => inl (ErrorfW ("failed to parse font " +:+ fontPath) err)
        | inr otfFont =>
            match opentype_NewFace otfFont (factor s * defaultFontSize)
                    defaultFontDPI with
            | inl err =>
                inl (ErrorfW ("failed to create font face for " +:+ fontPath) err)
            | inr face => inr face
            end
        end
  end.

(** [switch i % 4 { ... }] for the face of path [i] of [count] paths. *)
Definition assign_face (count i : Z) (face : Face) (s : Scaffold) : Scaffold :=
  let slot := i mod 4 in
  if slot =? 0 then
    let s := SetFontFaceRegular s face in
    if count =? 1 then
      SetFontFaceBoldItalic (SetFontFaceItalic (SetFontFaceBold s face) face) face
    else s
  else if slot =? 1 then SetFontFaceBold s face
  else if slot =? 2 then SetFontFaceItalic s face
  else if slot =? 3 then SetFontFaceBoldItalic s face
  else s.

(** [for i, fontPath := range fontPaths { ... }], from index [i] on. *)
Fixpoint load_fonts (count i : Z) (fontPaths : list string) : Load unit :=
  match fontPaths with
  | [] => ret tt
  | fontPath :: rest =>
      fun s =>
        match load_face s fontPath with
        | inl err => (s, inl err)
        | inr face => load_fonts count (i + 1) rest (assign_face count i face s)
        end
  end.

(** [LoadCustomFonts] *)
Definition LoadCustomFonts (s : Scaffold) (fontPaths : list string)
  : Scaffold * option error :=
  let '(s', r) := load_fonts (Z.of_nat (length fontPaths)) 0 fontPaths s in
  (s', error_of r).

End Fonts.

(** * Specification-level definitions *)

(** ** Hex colours *)

(** The hexadecimal digits with their values, as the written format lists
    them. *)
Definition hex_digits : list (ascii * Z) :=
  [ ("0", 0); ("1", 1); ("2", 2); ("3", 3); ("4", 4); ("5", 5); ("6", 6);
    ("7", 7); ("8", 8); ("9", 9); ("a", 10); ("b", 11); ("c", 12); ("d", 13);
    ("e", 14); ("f", 15); ("A", 10); ("B", 11); ("C", 12); ("D", 13);
    ("E", 14); ("F", 15) ]%char.

Definition hex_digit (c : ascii) (v : Z) : Prop := In (c, v) hex_digits.

Definition string6 (d1 d2 d3 d4 d5 d6 : ascii) : string :=
  String d1 (String d2 (String d3 (String d4 (String d5 (String d6 EmptyString))))).

(** [s] is an optional ['#'] followed by exactly six hexadecimal digits
    that spell the components [r], [g], [b]. *)
Definition hex_color_string (s : string) (r g b : Z) : Prop :=
  exists d1 d2 d3 d4 d5 d6 v1 v2 v3 v4 v5 v6,
    (s = string6 d1 d2 d3 d4 d5 d6 \/ s = String "#" (string6 d1 d2 d3 d4 d5 d6)) /\
    hex_digit d1 v1 /\ hex_digit d2 v2 /\ hex_digit d3 v3 /\
    hex_digit d4 v4 /\ hex_digit d5 v5 /\ hex_digit d6 v6 /\
    r = 16 * v1 + v2 /\ g = 16 * v3 + v4 /\ b = 16 * v5 + v6.

(** ** Colour distance *)

(** The squared Euclidean distance of an RGB triple to a row of the
    reference table, over the integers. *)
Definition squared_distance (r g b : Z) (ref : Z * Z * Z * Z) : Z :=
  let '(ar, ag, ab, _) := ref in
  (r - ar) ^ 2 + (g - ag) ^ 2 + (b - ab) ^ 2.


(** ** The hard wrap *)



(** The lines of the parsed runes all fit in [cols] columns. *)
Definition lines_fit (cols : Z) (parsed : list ColoredRune) : Prop :=
  Forall (fun line : list rune => Z.of_nat (length line) <= cols)
    (Split_newline (map Symbol parsed)).

(** ** Logical lines *)

Definition count_newlines (symbols : list rune) : nat :=
  length (filter (fun c => c = newline) symbols).

(** The number of logical lines: one more than the newlines left once a
    single trailing newline is removed. *)
Definition logical_lines (symbols : list rune) : nat :=
  S (count_newlines (TrimSuffix_newline symbols)).

(** ** The decoded colorscheme *)

(** The scheme [LoadColorscheme] takes from the bytes of the file: the
    first element when they decode as a non-empty array, else the single
    object when they decode as one. *)
Definition decoded_scheme `{Externals} (data : string) : option Scheme :=
  match json_Unmarshal_schemes data with
  | inr (scheme :: _) => Some scheme
  | _ =>
      match json_Unmarshal_scheme data with
      | inr scheme => Some scheme
      | inl _ => None
      end
  end.

(** ** Drawing calls *)

Definition is_DrawLine (op : DrawOp) : bool :=
  match op with
  | DrawLine _ _ _ _ => true
  | _ => false
  end.

(** ** Scanning for the opaque bounds *)

(** The scan has met a pixel that is not transparent: the largest column
    recorded is the column of such a pixel of the raster, and the smallest
    column recorded is not beyond it. *)
Definition scan_found (img : RGBA_image) (st : Z * Z * Z * Z) : Prop :=
  let '(minX, _, maxX, _) := st in
  exists x y,
    Point_In (mkPoint x y) (Rect img) = true /\
    isTransparent img x y = false /\
    x = maxX /\ minX <= maxX.

(** The scan has met none yet: the columns recorded are the start values. *)
Definition scan_fresh (st : Z * Z * Z * Z) : Prop :=
  let '(minX, _, maxX, _) := st in minX = GoInt.MaxInt /\ maxX = 0.

(** Rows and columns inside the bounds of a raster. *)
Definition in_rows (img : RGBA_image) (ys : list Z) : Prop :=
  Forall (fun y => Y (Min (Rect img)) <= y < Y (Max (Rect img))) ys.

Definition in_columns (img : RGBA_image) (xs : list Z) : Prop :=
  Forall (fun x => X (Min (Rect img)) <= x < X (Max (Rect img))) xs.

(** ** Reading the reference tables *)

(** The index of a row of [ansiColors]. *)
Definition row_index (row : Z * Z * Z * Z) : Z := row.2.

Definition is_byte (v : Z) : Prop := 0 <= v <= 255.

(** ** Reading a colorscheme *)

(** The colour a scheme gives a key: the key is present and its value is a
    well-formed hex colour. *)
Definition scheme_color (scheme : Scheme) (key : string) : option Color :=
  match Colors scheme !! key with
  | Some hex =>
      match parseHexColor hex with
      | inr c => Some c
      | inl _ => None
      end
  | None => None
  end.

(** The colour a scheme gives an ANSI index: that of [colorN] for the
    indices 0 to 15, none for any other. *)
Definition scheme_slot (scheme : Scheme) (i : Z) : option Color :=
  if (0 <=? i) && (i <? 16) then scheme_color scheme (colorKey i) else None.

(** The eighteen keys a load reads, in the order it reads them. *)
Definition scheme_keys : list string :=
  map colorKey (seqZ 0 16) ++ ["foreground"; "background"]%string.

(** A key is absent or holds a well-formed hex colour. *)
Definition well_formed_key (scheme : Scheme) (key : string) : Prop :=
  forall hex, Colors scheme !! key = Some hex -> exists c, parseHexColor hex = inr c.

Definition well_formed (scheme : Scheme) : Prop :=
  Forall (well_formed_key scheme) scheme_keys.

(** The loop over the indexed colours, on the table alone. *)
Fixpoint load_table (scheme : Scheme) (indices : list Z) (t : option (gmap Z Color))
  : option (gmap Z Color) * (error + unit) :=
  match indices with
  | [] => (t, inr tt)
  | i :: rest =>
      match Colors scheme !! colorKey i with
      | Some hexColor =>
          match parseHexColor hexColor with
          | inl err =>
              (t, inl (ErrorfW ("invalid color " +:+ hexColor +:+ " for " +:+ colorKey i)
                         err))
          | inr c => load_table scheme rest (Some (<[i := c]> (default ∅ t)))
          end
      | None => load_table scheme rest t
      end
  end.

(** A scaffold with its three colour fields replaced. *)
Definition recolor (s : Scaffold) (t : option (gmap Z Color)) (fg bg : Color) : Scaffold :=
  with_defaultBackgroundColor (with_defaultForegroundColor (with_customColors s t) fg) bg.

(** ** The wrap, read from the front *)

(** What the loop of [AddContent] appends for the runes still to read, the
    counter being [counter]: the loop as a recursion on its input. *)
Fixpoint wrap_from (fixedColumns counter : Z) (parsed : list ColoredRune)
  : list ColoredRune :=
  match parsed with
  | [] => []
  | cr :: rest =>
      let counter := GoInt.add counter 1 in
      let counter := if Symbol cr =? newline then 0 else counter in
      if counter >? fixedColumns
      then wrap_newline cr :: cr :: wrap_from fixedColumns 0 rest
      else cr :: wrap_from fixedColumns counter rest
  end.

(** Every line of a text has at most [bound] runes, the first line being
    already [current] runes long. *)
Fixpoint lines_within (bound current : Z) (text : list rune) : Prop :=
  match text with
  | [] => current <= bound
  | c :: rest =>
      if c =? newline then current <= bound /\ lines_within bound 0 rest
      else lines_within bound (current + 1) rest
  end.

(** ** The text the glyph loop draws *)

(** The strings of the [DrawString] calls among some calls, in order. *)
Definition drawn_strings (ops : list DrawOp) : list (list rune) :=
  omap (fun op => match op with
                  | DrawString str _ _ => Some str
                  | _ => None
                  end) ops.

(** The string drawn for a rune: none for a newline or a tab, the
    multiplication sign for the two cross glyphs, else the rune itself
    (U+FFFD when it is no code point). *)
Definition glyph_of (cr : ColoredRune) : option (list rune) :=
  let c := if valid_rune (Symbol cr) then Symbol cr else 65533 in
  if (c =? newline) || (c =? tab) then None
  else if (c =? 10007) || (c =? 739) then Some [215]
  else Some [c].

(** The pixel width of a fixed column count: the advance of that many
    letters [a] in the regular face. *)
Definition fixed_width (face : Face) (cols : Z) : float :=
  float64_of_int (Z.shiftr (Drawer_MeasureString face (repeat 97 (Z.to_nat cols))) 6).

(** ** Opaque pixels *)

(** A pixel of the raster that the scan of [WritePNG] does not take for
    transparent. *)
Definition opaque_in (img : RGBA_image) (x y : Z) : Prop :=
  Point_In (mkPoint x y) (Rect img) = true /\ isTransparent img x y = false.

(** How a stretch of the scan that visits the pixels [visited] moves the
    four bounds from [st] to [st']: the box only grows, it holds every
    visited pixel that is not transparent, and a bound that moved sits on
    such a pixel. *)
Definition scan_covers (img : RGBA_image) (visited : Z -> Z -> Prop)
    (st st' : Z * Z * Z * Z) : Prop :=
  let '(minX, minY, maxX, maxY) := st in
  let '(minX', minY', maxX', maxY') := st' in
  (minX' <= minX /\ minY' <= minY /\ maxX <= maxX' /\ maxY <= maxY') /\
  (forall x y, visited x y -> isTransparent img x y = false ->
     minX' <= x <= maxX' /\ minY' <= y <= maxY') /\
  (minX' = minX \/
   exists x y, visited x y /\ isTransparent img x y = false /\ x = minX') /\
  (minY' = minY \/
   exists x y, visited x y /\ isTransparent img x y = false /\ y = minY') /\
  (maxX' = maxX \/
   exists x y, visited x y /\ isTransparent img x y = false /\ x = maxX') /\
  (maxY' = maxY \/
   exists x y, visited x y /\ isTransparent img x y = false /\ y = maxY').

(** ** Font slots *)

(** The face of the scaffold for slot 0 (regular), 1 (bold), 2 (italic)
    and 3 (bold and italic). *)
Definition face_slot (k : Z) (s : Scaffold) : Face :=
  if k =? 0 then regular s
  else if k =? 1 then bold s
  else if k =? 2 then italic s
  else boldItalic s.

(** The scaffold [s] with its four faces taken from [s']. *)
Definition with_faces_of (s' s : Scaffold) : Scaffold :=
  SetFontFaceBoldItalic
    (SetFontFaceItalic
       (SetFontFaceBold (SetFontFaceRegular s (regular s')) (bold s'))
       (italic s'))
    (boldItalic s').

(** The faces [faces], assigned as those of the paths [i], [i + 1], ... of
    [count] paths. *)
Fixpoint assign_faces (count i : Z) (faces : list Face) (s : Scaffold) : Scaffold :=
  match faces with
  | [] => s
  | face :: rest => assign_faces count (i + 1) rest (assign_face count i face s)
  end.

(** * Example data *)

Module Examples.

(** Unstyled runes. *)
Definition plain (text : list rune) : list ColoredRune :=
  map (fun c => mkColoredRune c 0) text.

(** A scheme whose indexed colours and foreground are well-formed and
    whose background is not. *)
Definition scheme_bad_background : Scheme :=
  mkScheme (list_to_map
    [ ("color0", "#000000"); ("color1", "#112233");
      ("foreground", "#ffffff"); ("background", "12345") ]%string).

(** A scheme whose second indexed colour is not well-formed. *)
Definition scheme_bad_color : Scheme :=
  mkScheme (list_to_map
    [ ("color0", "#000000"); ("color1", "#11223g");
      ("color2", "#00ff00") ]%string).

(** Collaborators to run the examples with. A reader is what the decoder
    makes of it; a writer is the list of the byte strings written; a file
    holds its own name, apart from one that cannot be read; two file
    contents decode to the schemes above and any other is malformed; the
    blur filter rejects a radius below 1; the runtime allocates a canvas of
    up to 2^48 bytes; the rasteriser paints nothing. *)
Definition demo : Externals := {|
  Reader := error + list ColoredRune;
  Writer := list string;
  Writer_Write := fun w bytes => (w ++ [bytes], None);
  bunt_ParseStream := fun r => r;
  bunt_String := fun l =>
    string_of_list_ascii (map (fun cr => ascii_of_N (Z.to_N (Symbol cr))) l);
  term_columns := 80;
  os_ReadFile := fun name =>
    if String.eqb name "missing.json" then inl (ErrExternal "no such file")
    else inr name;
  json_Unmarshal_schemes := fun data =>
    if String.eqb data "bad-color.json" then inr [scheme_bad_color]
    else inl (ErrExternal "cannot unmarshal into a slice");
  json_Unmarshal_scheme := fun data =>
    if String.eqb data "bad-background.json" then inr scheme_bad_background
    else inl (ErrExternal "invalid character");
  stackblur_Process := fun img radius =>
    if radius <? 1 then inl (ErrExternal "radius must be greater than 0")
    else inr img;
  runtime_alloc := fun canvas w h =>
    if 4 * w * h >? 2 ^ 48 then Some "runtime error: makeslice: len out of range"
    else None;
  gg_Image := fun dc =>
    mkRGBA_image [] (4 * ctxWidth dc) (image_Rect 0 0 (ctxWidth dc) (ctxHeight dc));
  png_Encode := fun w img => (w ++ ["png"%string], None)
|}.

Definition demo_face : Face :=
  mkFace (28 * 64) (fun s => 14 * 64 * Z.of_nat (length s)).

(** A scaffold with the geometry of [NewImageCreator] and the face above
    in every slot. *)
Definition scaffold0 : Scaffold := {|
  content := [];
  factor := 2;
  columns := 0;
  defaultForegroundColor := PaletteColor "LightGray";
  defaultBackgroundColor := RGBA 21 21 21 255;
  customColors := None;
  clipCanvas := false;
  drawDecorations := true;
  drawShadow := true;
  shadowBaseColor := "#10101066";
  shadowRadius := 32;
  shadowOffsetX := 32;
  shadowOffsetY := 32;
  paddingTop := 48;
  paddingRight := 48;
  paddingBottom := 48;
  paddingLeft := 48;
  drawBorder := true;
  marginTop := 96;
  marginRight := 96;
  marginBottom := 96;
  marginLeft := 96;
  regular := demo_face;
  bold := demo_face;
  italic := demo_face;
  boldItalic := demo_face;
  lineSpacing := 0x1.3333333333333p+0;  (* 1.2, rounded to binary64 *)
  tabSpaces := 2
|}.

(** The same scaffold after a colorscheme gave slot 1 the colour
    [#112233]. *)
Definition themed : Scaffold :=
  with_customColors scaffold0 (Some {[ 1 := RGBA 17 34 51 255 ]}).



(** The scaffold with the shadow off, and with a shadow radius the blur
    filter of [demo] rejects. *)
Definition shadowless : Scaffold := DrawShadow scaffold0 false.


(** The text [abcdefg], and [plain text] with its newline. *)
Definition abcdefg : list ColoredRune := plain [97; 98; 99; 100; 101; 102; 103].

Definition plain_text : list ColoredRune :=
  plain [112; 108; 97; 105; 110; 32; 116; 101; 120; 116; 10].

(** A fully opaque raster of two by two pixels. *)
Definition opaque2x2 : RGBA_image :=
  mkRGBA_image
    [ 21; 21; 21; 255;  21; 21; 21; 255;
      21; 21; 21; 255;  21; 21; 21; 255 ]
    8 (image_Rect 0 0 2 2).

End Examples.

(** * More example data *)

Module MoreExamples.

(** A scheme that is well-formed: two indexed colours, one of them in
    capitals and without the [#], and a foreground. *)
Definition scheme_dark : Scheme :=
  mkScheme (list_to_map
    [ ("color1", "#ff0000"); ("color2", "00FF00");
      ("foreground", "#c0c0c0") ]%string).

(** The collaborators of [Examples.demo], with a file that decodes to the
    scheme above. *)
Definition themes : Externals := {|
  Reader := error + list ColoredRune;
  Writer := list string;
  Writer_Write := fun w bytes => (w ++ [bytes], None);
  bunt_ParseStream := fun r => r;
  bunt_String := fun l =>
    string_of_list_ascii (map (fun cr => ascii_of_N (Z.to_N (Symbol cr))) l);
  term_columns := 80;
  os_ReadFile := fun name =>
    if String.eqb name "missing.json" then inl (ErrExternal "no such file")
    else inr name;
  json_Unmarshal_schemes := fun data =>
    inl (ErrExternal "cannot unmarshal into a slice");
  json_Unmarshal_scheme := fun data =>
    if String.eqb data "dark.json" then inr scheme_dark
    else inl (ErrExternal "invalid character");
  stackblur_Process := fun img radius =>
    if radius <? 1 then inl (ErrExternal "radius must be greater than 0")
    else inr img;
  runtime_alloc := fun canvas w h =>
    if 4 * w * h >? 2 ^ 48 then Some "runtime error: makeslice: len out of range"
    else None;
  gg_Image := fun dc =>
    mkRGBA_image [] (4 * ctxWidth dc) (image_Rect 0 0 (ctxWidth dc) (ctxHeight dc));
  png_Encode := fun w img => (w ++ ["png"%string], None)
|}.

(** What a load of [dark.json] makes of [Examples.themed]. *)
Definition themed_dark : Scaffold :=
  with_defaultForegroundColor
    (with_customColors Examples.themed
       (Some (<[2 := RGBA 0 255 0 255]> (<[1 := RGBA 255 0 0 255]> ∅))))
    (RGBA 192 192 192 255).

(** The face made of a font file: its line height tells the files apart. *)
Definition font_face (font : string) : Face :=
  mkFace (64 * Z.of_nat (String.length font))
    (fun s => 14 * 64 * Z.of_nat (length s)).

(** Font parsers to run the examples with: a font is the bytes of its
    file, and one file is no TrueType font. *)
Definition fonts : FontExternals := {|
  truetype_Font := string;
  opentype_Font := string;
  truetype_Parse := fun bytes =>
    if String.eqb bytes "broken.ttf" then inl (ErrExternal "invalid font")
    else inr bytes;
  truetype_NewFace := fun font size dpi => font_face font;
  opentype_Parse := fun bytes => inr bytes;
  opentype_NewFace := fun font size dpi => inr (font_face font)
|}.

(** The scaffold [Examples.shadowless] holding [plain text], and the
    raster the rasteriser of [Examples.demo] makes of it. *)
Definition titled : Scaffold := with_content Examples.shadowless Examples.plain_text.

Definition titled_raster : RGBA_image :=
  mkRGBA_image [] (4 * 492) (image_Rect 0 0 492 401).

(** A raster of four by three pixels, transparent but for the two pixels
    (1, 1) and (2, 1). *)
Definition dash4x3 : RGBA_image :=
  mkRGBA_image
    [ 0; 0; 0; 0;  0; 0; 0; 0;        0; 0; 0; 0;        0; 0; 0; 0;
      0; 0; 0; 0;  21; 21; 21; 255;   21; 21; 21; 255;   0; 0; 0; 0;
      0; 0; 0; 0;  0; 0; 0; 0;        0; 0; 0; 0;        0; 0; 0; 0 ]
    16 (image_Rect 0 0 4 3).

(** A transparent raster of two by two pixels. *)
Definition blank2x2 : RGBA_image :=
  mkRGBA_image
    [ 0; 0; 0; 0;  0; 0; 0; 0;
      0; 0; 0; 0;  0; 0; 0; 0 ]
    8 (image_Rect 0 0 2 2).

End MoreExamples.

(** * Properties *)

(** ** Hex colours *)

Lemma fromHexChar_hex_digit (c : ascii) (v : Z) :
  fromHexChar c = Some v <-> hex_digit c v.
Proof.
  unfold hex_digit. split.
  - destruct c as [[] [] [] [] [] [] [] []]; vm_compute; intros E;
      first [ discriminate E | injection E as <-; tauto ].
  - simpl. intros Hin.
    repeat (destruct Hin as [Hin | Hin]; [ injection Hin as <- <-; reflexivity | ]).
    destruct Hin.
Qed.

Lemma fromHexChar_range (c : ascii) (v : Z) :
  fromHexChar c = Some v -> 0 <= v < 16.
Proof.
  unfold fromHexChar.
  repeat case_match; intros [= <-]; lia.
Qed.

Lemma hex_byte (a b : Z) :
  0 <= a < 16 -> 0 <= b < 16 -> Z.lor (Z.shiftl a 4) b = 16 * a + b.
Proof.
  intros Ha Hb.
  assert (Ea : a = 0 \/ a = 1 \/ a = 2 \/ a = 3 \/ a = 4 \/ a = 5 \/ a = 6 \/
               a = 7 \/ a = 8 \/ a = 9 \/ a = 10 \/ a = 11 \/ a = 12 \/
               a = 13 \/ a = 14 \/ a = 15) by lia.
  assert (Eb : b = 0 \/ b = 1 \/ b = 2 \/ b = 3 \/ b = 4 \/ b = 5 \/ b = 6 \/
               b = 7 \/ b = 8 \/ b = 9 \/ b = 10 \/ b = 11 \/ b = 12 \/
               b = 13 \/ b = 14 \/ b = 15) by lia.
  clear Ha Hb.
  repeat (destruct Ea as [-> | Ea]);
    repeat (destruct Eb as [-> | Eb]); try subst a; try subst b; reflexivity.
Qed.

(** Decoding consumes two digits a byte, so the indexes of [parseHexColor]
    are in range. *)
Lemma hex_DecodeString_length (src : string) (bs : list Z) :
  hex_DecodeString src = inr bs -> String.length src = (2 * length bs)%nat.
Proof.
  enough (Hboth : forall src,
    (forall bs, hex_DecodeString src = inr bs ->
       String.length src = (2 * length bs)%nat) /\
    (forall c bs, hex_DecodeString (String c src) = inr bs ->
       String.length (String c src) = (2 * length bs)%nat))
    by apply Hboth.
  clear src bs. induction src as [| q rest [IH1 IH2]]; split.
  - intros bs [= <-]. reflexivity.
  - intros c bs. simpl. repeat case_match; discriminate.
  - apply IH2.
  - intros p bs. simpl.
    destruct (fromHexChar p); [ | discriminate ].
    destruct (fromHexChar q); [ | discriminate ].
    destruct (hex_DecodeString rest) as [e | bs'] eqn:E; [ discriminate | ].
    intros [= <-]. simpl. rewrite (IH1 bs' eq_refl). lia.
Qed.

Lemma hex_DecodeString_six (d1 d2 d3 d4 d5 d6 : ascii) (v1 v2 v3 v4 v5 v6 : Z) :
  fromHexChar d1 = Some v1 -> fromHexChar d2 = Some v2 ->
  fromHexChar d3 = Some v3 -> fromHexChar d4 = Some v4 ->
  fromHexChar d5 = Some v5 -> fromHexChar d6 = Some v6 ->
  hex_DecodeString (string6 d1 d2 d3 d4 d5 d6) =
  inr [16 * v1 + v2; 16 * v3 + v4; 16 * v5 + v6].
Proof.
  intros E1 E2 E3 E4 E5 E6. unfold string6. simpl.
  rewrite E1, E2, E3, E4, E5, E6.
  rewrite !hex_byte by eauto using fromHexChar_range. reflexivity.
Qed.

Lemma hex_DecodeString_six_inv (d1 d2 d3 d4 d5 d6 : ascii) (bs : list Z) :
  hex_DecodeString (string6 d1 d2 d3 d4 d5 d6) = inr bs ->
  exists v1 v2 v3 v4 v5 v6,
    fromHexChar d1 = Some v1 /\ fromHexChar d2 = Some v2 /\
    fromHexChar d3 = Some v3 /\ fromHexChar d4 = Some v4 /\
    fromHexChar d5 = Some v5 /\ fromHexChar d6 = Some v6 /\
    bs = [16 * v1 + v2; 16 * v3 + v4; 16 * v5 + v6].
Proof.
  unfold string6. simpl.
  destruct (fromHexChar d1) as [v1 |] eqn:E1; [ | discriminate ].
  destruct (fromHexChar d2) as [v2 |] eqn:E2; [ | discriminate ].
  destruct (fromHexChar d3) as [v3 |] eqn:E3; [ | discriminate ].
  destruct (fromHexChar d4) as [v4 |] eqn:E4; [ | discriminate ].
  destruct (fromHexChar d5) as [v5 |] eqn:E5; [ | discriminate ].
  destruct (fromHexChar d6) as [v6 |] eqn:E6; [ | discriminate ].
  intros [= <-]. exists v1, v2, v3, v4, v5, v6.
  rewrite !hex_byte by eauto using fromHexChar_range. repeat split; reflexivity.
Qed.

Lemma length_six (h : string) :
  String.length h = 6%nat ->
  exists d1 d2 d3 d4 d5 d6, h = string6 d1 d2 d3 d4 d5 d6.
Proof.
  destruct h as [| d1 [| d2 [| d3 [| d4 [| d5 [| d6 [| ? ?]]]]]]];
    simpl; intros E; try discriminate E.
  exists d1, d2, d3, d4, d5, d6. reflexivity.
Qed.

(** The string is its trimmed form, or one ['#'] before it. *)
Lemma TrimPrefix_hash_cases (s : string) :
  s = TrimPrefix_hash s \/ s = String "#" (TrimPrefix_hash s).
Proof.
  destruct s as [| c rest]; [ left; reflexivity | ].
  destruct (Ascii.ascii_dec c "#") as [-> | Hne]; [ right; reflexivity | ].
  left. unfold TrimPrefix_hash.
  destruct c as [[] [] [] [] [] [] [] []]; try reflexivity. destruct Hne. reflexivity.
Qed.

Lemma TrimPrefix_hash_digit (d : ascii) (v : Z) (rest : string) :
  fromHexChar d = Some v -> TrimPrefix_hash (String d rest) = String d rest.
Proof.
  intros E. unfold TrimPrefix_hash.
  destruct d as [[] [] [] [] [] [] [] []]; try reflexivity. discriminate E.
Qed.

Lemma parseHexColor_accepts (s : string) (r g b : Z) :
  hex_color_string s r g b -> parseHexColor s = inr (RGBA r g b 255).
Proof.
  intros (d1 & d2 & d3 & d4 & d5 & d6 & v1 & v2 & v3 & v4 & v5 & v6 &
          Hs & H1 & H2 & H3 & H4 & H5 & H6 & -> & -> & ->).
  apply fromHexChar_hex_digit in H1, H2, H3, H4, H5, H6.
  assert (Ht : TrimPrefix_hash s = string6 d1 d2 d3 d4 d5 d6).
  { destruct Hs as [-> | ->]; [ | reflexivity ].
    unfold string6. eapply TrimPrefix_hash_digit; eassumption. }
  unfold parseHexColor. rewrite Ht.
  rewrite (hex_DecodeString_six _ _ _ _ _ _ _ _ _ _ _ _ H1 H2 H3 H4 H5 H6).
  reflexivity.
Qed.

Lemma parseHexColor_inr (s : string) (c : Color) :
  parseHexColor s = inr c ->
  exists r g b, hex_color_string s r g b /\ c = RGBA r g b 255.
Proof.
  unfold parseHexColor.
  destruct (Z.of_nat (String.length (TrimPrefix_hash s)) =? 6) eqn:Elen;
    simpl; [ | discriminate ].
  apply Z.eqb_eq in Elen.
  destruct (length_six (TrimPrefix_hash s)) as (d1 & d2 & d3 & d4 & d5 & d6 & Ht);
    [ lia | ].
  rewrite Ht.
  destruct (hex_DecodeString (string6 d1 d2 d3 d4 d5 d6)) as [err | rgb] eqn:Ed;
    [ discriminate | ].
  apply hex_DecodeString_six_inv in Ed
    as (v1 & v2 & v3 & v4 & v5 & v6 & H1 & H2 & H3 & H4 & H5 & H6 & ->).
  intros [= <-]. simpl.
  exists (16 * v1 + v2), (16 * v3 + v4), (16 * v5 + v6). split; [ | reflexivity ].
  exists d1, d2, d3, d4, d5, d6, v1, v2, v3, v4, v5, v6.
  rewrite <- Ht. split; [ apply TrimPrefix_hash_cases | ].
  repeat split; try (apply fromHexChar_hex_digit; assumption).
Qed.

(** C10. [parseHexColor] succeeds exactly on an optional ['#'] followed by
    exactly six hexadecimal digits, and then returns the opaque colour of
    those components; a trimmed string of another length, or one holding a
    character that is no hexadecimal digit, yields an error and no colour. *)
Theorem parseHexColor_exactly_six_hex_digits (s : string) :
  (forall r g b,
     hex_color_string s r g b <-> parseHexColor s = inr (RGBA r g b 255)) /\
  (forall c,
     parseHexColor s = inr c ->
     exists r g b, hex_color_string s r g b /\ c = RGBA r g b 255) /\
  (String.length (TrimPrefix_hash s) <> 6%nat ->
   exists e, parseHexColor s = inl e) /\
  ((exists c, In c (list_ascii_of_string (TrimPrefix_hash s)) /\
              forall v, ~ hex_digit c v) ->
   exists e, parseHexColor s = inl e).
Proof.
  split; [ | split; [ | split ] ].
  - intros r g b. split; [ apply parseHexColor_accepts | ].
    intros E. destruct (parseHexColor_inr s _ E) as (r' & g' & b' & Hs & Hc).
    injection Hc as -> -> ->. exact Hs.
  - apply parseHexColor_inr.
  - intros Hlen. unfold parseHexColor.
    destruct (Z.of_nat (String.length (TrimPrefix_hash s)) =? 6) eqn:E.
    + apply Z.eqb_eq in E. lia.
    + simpl. eauto.
  - intros (c & Hin & Hbad).
    destruct (parseHexColor s) as [e | col] eqn:E; [ eauto | exfalso ].
    unfold parseHexColor in E.
    destruct (Z.of_nat (String.length (TrimPrefix_hash s)) =? 6) eqn:Elen;
      simpl in E; [ | discriminate ].
    apply Z.eqb_eq in Elen.
    destruct (length_six (TrimPrefix_hash s)) as (d1 & d2 & d3 & d4 & d5 & d6 & Ht);
      [ lia | ].
    rewrite Ht in E, Hin.
    destruct (hex_DecodeString (string6 d1 d2 d3 d4 d5 d6)) as [err | rgb] eqn:Ed;
      [ discriminate | ].
    apply hex_DecodeString_six_inv in Ed
      as (v1 & v2 & v3 & v4 & v5 & v6 & H1 & H2 & H3 & H4 & H5 & H6 & _).
    simpl in Hin.
    destruct Hin as [<- | [<- | [<- | [<- | [<- | [<- | []]]]]]];
      eapply Hbad, fromHexChar_hex_digit; eassumption.
Qed.


(** ** The colour resolver *)

Lemma wrap64_small (z : Z) :
  GoInt.MinInt <= z <= GoInt.MaxInt -> GoInt.wrap64 z = z.
Proof.
  unfold GoInt.MinInt, GoInt.MaxInt, GoInt.wrap64. intros Hz.
  rewrite Z.mod_small by lia. lia.
Qed.

Lemma ansiColors_bytes :
  Forall (fun ref : Z * Z * Z * Z =>
            let '(ar, ag, ab, _) := ref in
            0 <= ar <= 255 /\ 0 <= ag <= 255 /\ 0 <= ab <= 255) ansiColors.
Proof. unfold ansiColors. repeat constructor; lia. Qed.

(** On bytes the [int] arithmetic of the distance does not wrap. *)
Lemma distance_to_exact (r g b : Z) (ref : Z * Z * Z * Z) :
  0 <= r <= 255 -> 0 <= g <= 255 -> 0 <= b <= 255 ->
  ref ∈ ansiColors ->
  distance_to r g b ref = squared_distance r g b ref.
Proof.
  intros Hr Hg Hb Hin.
  pose proof (proj1 (Forall_forall _ _) ansiColors_bytes ref Hin) as Href.
  destruct ref as [[[ar ag] ab] idx]. simpl in Href.
  destruct Href as (Har & Hag & Hab).
  unfold distance_to, squared_distance, GoInt.sub, GoInt.add, GoInt.mul.
  assert (Hsq : forall d, -255 <= d <= 255 -> 0 <= d * d <= 65025) by (intros; nia).
  pose proof (Hsq (r - ar) ltac:(lia)).
  pose proof (Hsq (g - ag) ltac:(lia)).
  pose proof (Hsq (b - ab) ltac:(lia)).
  rewrite !(wrap64_small (_ - _)) by (unfold GoInt.MinInt, GoInt.MaxInt; lia).
  rewrite !(wrap64_small (_ * _)) by (unfold GoInt.MinInt, GoInt.MaxInt; lia).
  rewrite (wrap64_small (_ * _ + _ * _)) by (unfold GoInt.MinInt, GoInt.MaxInt; lia).
  rewrite wrap64_small by (unfold GoInt.MinInt, GoInt.MaxInt; lia).
  lia.
Qed.

(** The search keeps the smallest distance seen: it stays at or above a
    bound that the start value and every row respect. *)
Lemma closest_fold_lower_bound (r g b bound : Z) (refs : list (Z * Z * Z * Z))
    (st : Z * Z) :
  Forall (fun ref => bound <= distance_to r g b ref) refs ->
  bound <= st.1 ->
  bound <= (fold_left (closest_step r g b) refs st).1.
Proof.
  intros Hall. revert st.
  induction Hall as [| ref refs Href _ IH]; intros st Hst; simpl; [ exact Hst | ].
  apply IH. unfold closest_step. destruct st as [minDistance closestIndex].
  simpl in Hst. destruct (distance_to r g b ref <? minDistance); simpl; lia.
Qed.

(** The map a literal denotes has no binding for a key that none of its
    entries has. *)
Lemma literal_lookup_None {K V : Type} `{Countable K} (entries : list (K * V))
    (m : gmap K V) (k : K) :
  Forall (fun kv => kv.1 <> k) entries ->
  m !! k = None ->
  fold_left (fun m kv => <[kv.1 := kv.2]> m) entries m !! k = None.
Proof.
  intros Hall. revert m.
  induction Hall as [| kv entries Hkv _ IH]; intros m Hm; simpl; [ exact Hm | ].
  apply IH. rewrite lookup_insert_ne; assumption.
Qed.

(** C5. With a custom colorscheme loaded, an RGB triple that is no key of
    the exact-match table and lies at a squared distance of at least 10000
    from each of the sixteen reference colours is reported as no match. *)
Theorem mapStandardColor_far_from_every_reference
    (s : Scaffold) (m : gmap Z Color) (r g b : Z) :
  customColors s = Some m ->
  0 <= r <= 255 -> 0 <= g <= 255 -> 0 <= b <= 255 ->
  Forall (fun kv => kv.1 <> (r, g, b)) standardColors_entries ->
  Forall (fun ref => 10000 <= squared_distance r g b ref) ansiColors ->
  mapStandardColor s r g b = None.
Proof.
  intros Hm Hr Hg Hb Hexact Hfar.
  unfold mapStandardColor. rewrite Hm.
  assert (Hnone : standardColors !! (r, g, b) = None).
  { unfold standardColors. apply literal_lookup_None; [ exact Hexact | ].
    apply lookup_empty. }
  rewrite Hnone. simpl.
  unfold findClosestColor. rewrite Hm.
  assert (Hbound : 10000 <=
    (fold_left (closest_step r g b) ansiColors (GoInt.MaxInt, -1)).1).
  { apply closest_fold_lower_bound.
    - apply Forall_forall. intros ref Hin.
      rewrite distance_to_exact by assumption.
      exact (proj1 (Forall_forall _ _) Hfar ref Hin).
    - unfold GoInt.MaxInt. simpl. lia. }
  destruct (fold_left (closest_step r g b) ansiColors (GoInt.MaxInt, -1))
    as [minDistance closestIndex].
  simpl in Hbound.
  replace (minDistance <? 10000) with false by (symmetry; apply Z.ltb_ge; lia).
  rewrite andb_false_r. reflexivity.
Qed.

(** ** The content buffer *)

Section ContentProofs.
Context `{Externals}.

Lemma GetFixedColumns_fixed (s : Scaffold) :
  columns s <> 0 -> GetFixedColumns s = columns s.
Proof.
  intros Hne. unfold GetFixedColumns.
  destruct (columns s =? 0) eqn:E; [ apply Z.eqb_eq in E; contradiction | reflexivity ].
Qed.







Lemma Split_newline_nonempty (text : list rune) : Split_newline text <> [].
Proof.
  destruct text as [| c rest]; simpl; [ discriminate | ].
  destruct (c =? newline); [ discriminate | ].
  destruct (Split_newline rest); discriminate.
Qed.

(** While every line fits, the loop of [AddContent] copies its input:
    [k] is the counter, the length of the line being read. *)
Lemma wrap_fold_fits (cols : Z) (parsed tmp : list ColoredRune) (k : Z) :
  cols <= GoInt.MaxInt -> 0 <= k ->
  match Split_newline (map Symbol parsed) with
  | line :: lines =>
      k + Z.of_nat (length line) <= cols /\
      Forall (fun line : list rune => Z.of_nat (length line) <= cols) lines
  | [] => False
  end ->
  exists k', fold_left (wrap_step cols) parsed (tmp, k) = (tmp ++ parsed, k').
Proof.
  intros Hmax. revert tmp k.
  induction parsed as [| cr rest IH]; intros tmp k Hk Hfit; simpl.
  - exists k. rewrite app_nil_r. reflexivity.
  - simpl in Hfit. unfold GoInt.add.
    destruct (Symbol cr =? newline) eqn:Enl.
    + destruct Hfit as [Hline Hrest]. simpl in Hline.
      replace (0 >? cols) with false
        by (symmetry; rewrite Z.gtb_ltb; apply Z.ltb_ge; lia).
      destruct (IH (tmp ++ [cr]) 0 ltac:(lia)) as [k' Hk'].
      { destruct (Split_newline (map Symbol rest)) as [| line lines] eqn:E.
        - exact (Split_newline_nonempty _ E).
        - inversion Hrest; subst. split; [ lia | assumption ]. }
      exists k'. rewrite Hk', <- app_assoc. reflexivity.
    + destruct (Split_newline (map Symbol rest)) as [| line lines] eqn:E.
      { destruct (Split_newline_nonempty _ E). }
      destruct Hfit as [Hline Hrest]. simpl length in Hline.
      rewrite !wrap64_small by (unfold GoInt.MinInt, GoInt.MaxInt in *; lia).
      replace (k + 1 >? cols) with false
        by (symmetry; rewrite Z.gtb_ltb; apply Z.ltb_ge; lia).
      destruct (IH (tmp ++ [cr]) (k + 1) ltac:(lia)) as [k' Hk'].
      { split; [ lia | assumption ]. }
      exists k'. rewrite Hk', <- app_assoc. reflexivity.
Qed.

Lemma wrap_fits (cols : Z) (parsed : list ColoredRune) :
  cols <= GoInt.MaxInt -> lines_fit cols parsed -> wrap cols parsed = parsed.
Proof.
  intros Hmax Hfit. unfold wrap.
  destruct (wrap_fold_fits cols parsed [] 0 Hmax ltac:(lia)) as [k' Hk'].
  - unfold lines_fit in Hfit.
    destruct (Split_newline (map Symbol parsed)) as [| line lines] eqn:E.
    + exact (Split_newline_nonempty _ E).
    + inversion Hfit; subst. split; [ lia | assumption ].
  - rewrite Hk'. reflexivity.
Qed.

(** C8. From an empty buffer, after an [AddContent] whose input decodes and
    whose lines all fit in the fixed column width, the buffer holds the
    decoded runes with no newline added, and [WriteRaw] makes one write:
    the styled-text encoding of those runes. No image is rendered. *)
Theorem WriteRaw_after_AddContent_round_trip (s : Scaffold) (input : Reader)
    (parsed : list ColoredRune) (w : Writer) :
  content s = [] ->
  bunt_ParseStream input = inr parsed ->
  GetFixedColumns s <= GoInt.MaxInt ->
  lines_fit (GetFixedColumns s) parsed ->
  exists s',
    AddContent s input = (s', None) /\
    content s' = parsed /\
    WriteRaw s' w = Writer_Write w (bunt_String parsed).
Proof.
  intros Hempty Hparse Hmax Hfit.
  unfold AddContent. rewrite Hparse, Hempty, (wrap_fits _ _ Hmax Hfit).
  eexists. split; [ reflexivity | ]. split; reflexivity.
Qed.

(** C9. [AddContent] returns an error exactly when the input cannot be
    decoded, and then the scaffold, its content buffer included, is the one
    it was called on: nothing is appended. *)
Theorem AddContent_decode_error_appends_nothing (s : Scaffold) (input : Reader) :
  (forall err,
     bunt_ParseStream input = inl err ->
     AddContent s input = (s, Some (ErrorfW "failed to parse input stream" err))) /\
  (forall s' e,
     AddContent s input = (s', Some e) ->
     s' = s /\ content s' = content s /\
     exists err, bunt_ParseStream input = inl err).
Proof.
  unfold AddContent. split.
  - intros err ->. reflexivity.
  - intros s' e. destruct (bunt_ParseStream input) as [err | parsed].
    + intros [= <- <-]. eauto.
    + discriminate.
Qed.

End ContentProofs.

(** ** Loading a colorscheme *)

Section ColorschemeProofs.
Context `{Externals}.








End ColorschemeProofs.

(** ** Measuring *)

Section RenderProofs.
Context `{Externals}.

Lemma Split_newline_length (text : list rune) :
  length (Split_newline text) = S (count_newlines text).
Proof.
  unfold count_newlines. induction text as [| c rest IH]; simpl; [ reflexivity | ].
  rewrite filter_cons. destruct (Z.eqb_spec c newline) as [-> | Hne].
  - rewrite decide_True by reflexivity. simpl. rewrite IH. reflexivity.
  - rewrite decide_False by exact Hne.
    destruct (Split_newline rest) as [| line lines] eqn:E.
    + destruct (Split_newline_nonempty _ E).
    + simpl in *. exact IH.
Qed.

(** Replacing what is no code point by U+FFFD makes and removes no
    newline. *)
Lemma sanitised_newline (r : rune) :
  ((if valid_rune r then r else 65533) =? newline) = (r =? newline).
Proof.
  destruct (valid_rune r) eqn:E; [ reflexivity | ].
  destruct (Z.eqb_spec r newline) as [-> | Hne]; [ discriminate E | reflexivity ].
Qed.

Lemma TrimSuffix_string_of_runes (rs : list rune) :
  TrimSuffix_newline (string_of_runes rs) = string_of_runes (TrimSuffix_newline rs).
Proof.
  unfold TrimSuffix_newline, string_of_runes.
  rewrite <- map_rev. destruct (rev rs) as [| c r]; simpl; [ reflexivity | ].
  rewrite sanitised_newline. destruct (c =? newline); [ | reflexivity ].
  rewrite map_rev. reflexivity.
Qed.

Lemma count_newlines_string_of_runes (rs : list rune) :
  count_newlines (string_of_runes rs) = count_newlines rs.
Proof.
  unfold count_newlines, string_of_runes.
  induction rs as [| r rest IH]; simpl; [ reflexivity | ].
  rewrite !filter_cons. destruct (valid_rune r) eqn:Ev.
  - destruct (decide (r = newline)); simpl; rewrite IH; reflexivity.
  - rewrite decide_False by discriminate.
    rewrite decide_False by (intros ->; discriminate Ev). exact IH.
Qed.

Lemma content_lines_length (s : Scaffold) :
  length (content_lines s) = logical_lines (map Symbol (content s)).
Proof.
  unfold content_lines, logical_lines.
  rewrite Split_newline_length, TrimSuffix_string_of_runes.
  rewrite count_newlines_string_of_runes. reflexivity.
Qed.

(** With a column setting that is not negative, measuring returns. *)
Lemma measureContent_returns (s : Scaffold) :
  0 <= columns s ->
  exists width,
    measureContent s =
    Returns (width,
             (float64_of_int (Z.of_nat (length (content_lines s)))
              * fontHeight s * lineSpacing s)%float).
Proof.
  intros Hcols. unfold measureContent.
  destruct (columns s =? 0) eqn:E; [ eexists; reflexivity | ].
  apply Z.eqb_neq in E. rewrite GetFixedColumns_fixed by exact E.
  unfold Repeat_a.
  replace (columns s <? 0) with false by (symmetry; apply Z.ltb_ge; exact Hcols).
  eexists. reflexivity.
Qed.

(** C6. For every content buffer (and a column setting that is not
    negative) [measureContent] returns the height [L * fontHeight *
    lineSpacing], where [L] counts the logical lines: the pieces left by
    removing one trailing newline and splitting on newline. [L] is at least
    one, and one for the empty buffer. *)
Theorem measureContent_height (s : Scaffold) :
  0 <= columns s ->
  let L := logical_lines (map Symbol (content s)) in
  (exists w,
     measureContent s =
     Returns (w, (float64_of_int (Z.of_nat L) * fontHeight s * lineSpacing s)%float)) /\
  L = length (Split_newline
                (TrimSuffix_newline (string_of_runes (map Symbol (content s))))) /\
  (1 <= L)%nat /\
  (content s = [] -> L = 1%nat).
Proof.
  intros Hcols L. subst L.
  rewrite <- content_lines_length.
  split; [ apply measureContent_returns; exact Hcols | ].
  split; [ reflexivity | ].
  rewrite content_lines_length. unfold logical_lines.
  split; [ lia | ]. intros ->. reflexivity.
Qed.

(** ** Compositing *)



(** With clip-canvas on, what [WritePNG] hands to the encoder is the clip
    of the rendered raster. *)
Lemma WritePNG_encodes_clip (s : Scaffold) (w : Writer) (img : RGBA_image) :
  image s = Returns (inr img) -> clipCanvas s = true ->
  WritePNG s w = Returns (png_Encode w (clip img)).
Proof. intros Himg Hclip. unfold WritePNG. rewrite Himg, Hclip. reflexivity. Qed.

End RenderProofs.

(** The underline is drawn exactly when the three bits under the mask
    [0x1C] spell 16: the underline bit alone, with neither bold nor italic
    beside it. *)
Lemma underline_ops_drawn (s : Scaffold) (settings : Z) (x y w : float) :
  underline_ops s settings x y w <> [] <-> Z.land settings 28 = 16.
Proof.
  unfold underline_ops. destruct (Z.eqb_spec (Z.land settings 28) 16) as [E | E].
  - split; [ intros _; exact E | discriminate ].
  - split; [ intros Hne; destruct Hne; reflexivity | intros E'; contradiction ].
Qed.

(** C3, on the code. The rune [a] with the bold and underline bits set
    (settings [0x14]) is drawn in the regular face and with no line under
    it, for any scaffold and cursor; with the underline bit alone (settings
    [0x10]) the line is drawn across the advance [w] of the glyph. *)
Theorem underline_lost_when_bold (s : Scaffold) (left x y : float) :
  let w := (gg_MeasureString (regular s) [97]).1 in
  (draw_rune s left ([], x, y) (mkColoredRune 97 20)).1.1 =
    [ SetFontFace (regular s);
      SetColor (defaultForegroundColor s);
      DrawString [97] x y ] /\
  (draw_rune s left ([], x, y) (mkColoredRune 97 16)).1.1 =
    [ SetFontFace (regular s);
      SetColor (defaultForegroundColor s);
      DrawString [97] x y;
      DrawLine x (y + scaled s 4)%float (x + w)%float (y + scaled s 4)%float;
      SetLineWidth (scaled s 1);
      Stroke ].
Proof. split; reflexivity. Qed.

(** ** Finishing the canvas *)

(** C4, on the code. On a fully opaque raster of two by two pixels the scan
    finds the corners (0,0) and (1,1), and the clip keeps the rectangle
    from (0,0) to (1,1) with the maximum corner excluded: one pixel. The
    three other pixels are inside the raster, are not transparent, and are
    outside the clipped raster. *)
Theorem clip_drops_last_row_and_column :
  let img := Examples.opaque2x2 in
  opaque_bounds img = (0, 0, 1, 1) /\
  Rect (clip img) = mkRectangle (mkPoint 0 0) (mkPoint 1 1) /\
  Forall (fun p : Point =>
            Point_In p (Rect img) = true /\
            RGBAAt img (X p) (Y p) = (21, 21, 21, 255) /\
            Point_In p (Rect (clip img)) = false)
    [mkPoint 1 0; mkPoint 0 1; mkPoint 1 1].
Proof.
  cbv zeta. split; [ reflexivity | ]. split; [ reflexivity | ].
  repeat constructor.
Qed.

(** The crop is off by one for every raster, not only the one above. For a
    raster with corners in the range of [int] and no negative column, the
    scan ends on the column of some pixel that is not transparent, and the
    clipped rectangle, whose maximum corner is exclusive, leaves that pixel
    out. *)
Section ClipProofs.
Variable img : RGBA_image.
Hypothesis Hmin : 0 <= X (Min (Rect img)).
Hypothesis Hmax : X (Max (Rect img)) <= GoInt.MaxInt.

Lemma scan_pixel_keeps_found (st : Z * Z * Z * Z) (x y : Z) :
  Point_In (mkPoint x y) (Rect img) = true ->
  scan_found img st -> scan_found img (scan_pixel img x st y).
Proof.
  intros Hin. destruct st as [[[minX minY] maxX] maxY].
  intros (x0 & y0 & Hin0 & Hop0 & Hx0 & Hle). subst maxX. unfold scan_pixel.
  destruct (isTransparent img x y) eqn:Et; simpl.
  - exists x0, y0. auto.
  - destruct (x >? x0) eqn:Egt; rewrite Z.gtb_ltb in Egt.
    + apply Z.ltb_lt in Egt. exists x, y.
      repeat split; try assumption. destruct (x <? minX); lia.
    + apply Z.ltb_ge in Egt. exists x0, y0.
      repeat split; try assumption. destruct (Z.ltb_spec x minX); lia.
Qed.

Lemma scan_pixel_opaque (st : Z * Z * Z * Z) (x y : Z) :
  Point_In (mkPoint x y) (Rect img) = true ->
  isTransparent img x y = false ->
  scan_found img st \/ scan_fresh st ->
  scan_found img (scan_pixel img x st y).
Proof.
  intros Hin Hop [Hfound | Hfresh].
  { apply scan_pixel_keeps_found; assumption. }
  destruct st as [[[minX minY] maxX] maxY]. destruct Hfresh as [-> ->].
  unfold scan_pixel. rewrite Hop. simpl.
  assert (Hx : 0 <= x < GoInt.MaxInt).
  { unfold Point_In in Hin. simpl in Hin.
    repeat (apply andb_prop in Hin as [Hin ?]).
    apply Z.leb_le in Hin. match goal with Hlt : (x <? _) = true |- _ =>
      apply Z.ltb_lt in Hlt end. lia. }
  exists x, y. split; [ exact Hin | ]. split; [ exact Hop | ].
  replace (x <? GoInt.MaxInt) with true by (symmetry; apply Z.ltb_lt; lia).
  destruct (x >? 0) eqn:Egt; rewrite Z.gtb_ltb in Egt.
  - split; [ reflexivity | lia ].
  - apply Z.ltb_ge in Egt. split; lia.
Qed.

Lemma scan_pixel_keeps (st : Z * Z * Z * Z) (x y : Z) :
  Point_In (mkPoint x y) (Rect img) = true ->
  scan_found img st \/ scan_fresh st ->
  scan_found img (scan_pixel img x st y) \/ scan_fresh (scan_pixel img x st y).
Proof.
  intros Hin Hst. destruct (isTransparent img x y) eqn:Et.
  - destruct st as [[[minX minY] maxX] maxY]. unfold scan_pixel. rewrite Et.
    exact Hst.
  - left. apply scan_pixel_opaque; assumption.
Qed.

Lemma Point_In_bounds (x y : Z) :
  X (Min (Rect img)) <= x < X (Max (Rect img)) ->
  Y (Min (Rect img)) <= y < Y (Max (Rect img)) ->
  Point_In (mkPoint x y) (Rect img) = true.
Proof.
  intros Hx Hy. unfold Point_In. simpl.
  rewrite !andb_true_iff, !Z.leb_le, !Z.ltb_lt. lia.
Qed.

Lemma Point_In_inv (x y : Z) :
  Point_In (mkPoint x y) (Rect img) = true ->
  X (Min (Rect img)) <= x < X (Max (Rect img)) /\
  Y (Min (Rect img)) <= y < Y (Max (Rect img)).
Proof.
  unfold Point_In. simpl.
  rewrite !andb_true_iff, !Z.leb_le, !Z.ltb_lt. lia.
Qed.

Lemma scan_rows_keep_found (x : Z) (ys : list Z) (st : Z * Z * Z * Z) :
  X (Min (Rect img)) <= x < X (Max (Rect img)) -> in_rows img ys ->
  scan_found img st -> scan_found img (fold_left (scan_pixel img x) ys st).
Proof.
  intros Hx Hys. revert st.
  induction Hys as [| y ys Hy _ IH]; intros st Hst; simpl; [ exact Hst | ].
  apply IH, scan_pixel_keeps_found; [ apply Point_In_bounds | ]; assumption.
Qed.

Lemma scan_rows_keep (x : Z) (ys : list Z) (st : Z * Z * Z * Z) :
  X (Min (Rect img)) <= x < X (Max (Rect img)) -> in_rows img ys ->
  scan_found img st \/ scan_fresh st ->
  scan_found img (fold_left (scan_pixel img x) ys st) \/
  scan_fresh (fold_left (scan_pixel img x) ys st).
Proof.
  intros Hx Hys. revert st.
  induction Hys as [| y ys Hy _ IH]; intros st Hst; simpl; [ exact Hst | ].
  apply IH, scan_pixel_keeps; [ apply Point_In_bounds | ]; assumption.
Qed.

Lemma all_rows : in_rows img (seqZ (Y (Min (Rect img))) (Y (Max (Rect img)) - Y (Min (Rect img)))).
Proof. apply Forall_forall. intros y Hy. apply elem_of_seqZ in Hy. lia. Qed.

Lemma all_columns :
  in_columns img (seqZ (X (Min (Rect img))) (X (Max (Rect img)) - X (Min (Rect img)))).
Proof. apply Forall_forall. intros x Hx. apply elem_of_seqZ in Hx. lia. Qed.

Lemma scan_column_keeps_found (x : Z) (st : Z * Z * Z * Z) :
  X (Min (Rect img)) <= x < X (Max (Rect img)) ->
  scan_found img st -> scan_found img (scan_column img st x).
Proof. intros Hx. apply scan_rows_keep_found; [ exact Hx | apply all_rows ]. Qed.

Lemma scan_column_keeps (x : Z) (st : Z * Z * Z * Z) :
  X (Min (Rect img)) <= x < X (Max (Rect img)) ->
  scan_found img st \/ scan_fresh st ->
  scan_found img (scan_column img st x) \/ scan_fresh (scan_column img st x).
Proof. intros Hx. apply scan_rows_keep; [ exact Hx | apply all_rows ]. Qed.

(** The column that holds a pixel that is not transparent. *)
Lemma scan_column_finds (x y : Z) (st : Z * Z * Z * Z) :
  Point_In (mkPoint x y) (Rect img) = true ->
  isTransparent img x y = false ->
  scan_found img st \/ scan_fresh st ->
  scan_found img (scan_column img st x).
Proof.
  intros Hin Hop Hst. destruct (Point_In_inv x y Hin) as [Hx Hy].
  unfold scan_column. pose proof all_rows as Hrows.
  assert (Hy' : y ∈ seqZ (Y (Min (Rect img))) (Y (Max (Rect img)) - Y (Min (Rect img))))
    by (apply elem_of_seqZ; lia).
  apply list_elem_of_split in Hy' as (ys1 & ys2 & Hsplit).
  rewrite Hsplit in Hrows |- *. unfold in_rows in Hrows.
  apply Forall_app in Hrows as [Hrows1 Hrows2].
  apply Forall_cons in Hrows2 as [_ Hrows2].
  rewrite fold_left_app. simpl.
  apply scan_rows_keep_found; [ exact Hx | exact Hrows2 | ].
  apply scan_pixel_opaque; [ exact Hin | exact Hop | ].
  apply scan_rows_keep; assumption.
Qed.

Lemma scan_columns_keep_found (xs : list Z) (st : Z * Z * Z * Z) :
  in_columns img xs ->
  scan_found img st -> scan_found img (fold_left (scan_column img) xs st).
Proof.
  intros Hxs. revert st.
  induction Hxs as [| x xs Hx _ IH]; intros st Hst; simpl; [ exact Hst | ].
  apply IH, scan_column_keeps_found; assumption.
Qed.

Lemma scan_columns_keep (xs : list Z) (st : Z * Z * Z * Z) :
  in_columns img xs ->
  scan_found img st \/ scan_fresh st ->
  scan_found img (fold_left (scan_column img) xs st) \/
  scan_fresh (fold_left (scan_column img) xs st).
Proof.
  intros Hxs. revert st.
  induction Hxs as [| x xs Hx _ IH]; intros st Hst; simpl; [ exact Hst | ].
  apply IH, scan_column_keeps; assumption.
Qed.

Lemma opaque_bounds_found (x y : Z) :
  Point_In (mkPoint x y) (Rect img) = true ->
  isTransparent img x y = false ->
  scan_found img (opaque_bounds img).
Proof.
  intros Hin Hop. destruct (Point_In_inv x y Hin) as [Hx Hy].
  unfold opaque_bounds. pose proof all_columns as Hcols.
  assert (Hx' : x ∈ seqZ (X (Min (Rect img))) (X (Max (Rect img)) - X (Min (Rect img))))
    by (apply elem_of_seqZ; lia).
  apply list_elem_of_split in Hx' as (xs1 & xs2 & Hsplit).
  rewrite Hsplit in Hcols |- *. unfold in_columns in Hcols.
  apply Forall_app in Hcols as [Hcols1 Hcols2].
  apply Forall_cons in Hcols2 as [_ Hcols2].
  rewrite fold_left_app. simpl.
  apply scan_columns_keep_found; [ exact Hcols2 | ].
  apply (scan_column_finds x y); [ exact Hin | exact Hop | ].
  apply scan_columns_keep; [ exact Hcols1 | ].
  right. split; reflexivity.
Qed.

Lemma clip_misses_an_opaque_pixel :
  (exists x y,
     Point_In (mkPoint x y) (Rect img) = true /\ isTransparent img x y = false) ->
  exists x y,
    Point_In (mkPoint x y) (Rect img) = true /\
    isTransparent img x y = false /\
    Point_In (mkPoint x y) (Rect (clip img)) = false.
Proof.
  intros (x0 & y0 & Hin0 & Hop0).
  pose proof (opaque_bounds_found x0 y0 Hin0 Hop0) as Hfound.
  unfold clip. destruct (opaque_bounds img) as [[[minX minY] maxX] maxY].
  destruct Hfound as (x & y & Hin & Hop & Hx & Hle). subst maxX.
  exists x, y. split; [ exact Hin | ]. split; [ exact Hop | ].
  unfold SubImage, Rectangle_Intersect, image_Rect.
  replace (minX >? x) with false by (symmetry; rewrite Z.gtb_ltb; apply Z.ltb_ge; lia).
  destruct (minY >? maxY); simpl;
    repeat match goal with
    | |- context [Rectangle_Empty ?r] => destruct (Rectangle_Empty r) eqn:?; simpl
    end;
    unfold Point_In; simpl;
    repeat match goal with
    | |- context [if ?a >? ?b then _ else _] => destruct (Z.gtb_spec a b)
    | |- context [if ?a <? ?b then _ else _] => destruct (Z.ltb_spec a b)
    end;
    rewrite ?andb_false_iff, ?Z.leb_gt, ?Z.ltb_ge; lia.
Qed.

End ClipProofs.

(** What the glyph loop adds for a rune that is drawn (no newline, no tab)
    holds an underline exactly when the bits under [0x1C] spell 16. *)
Lemma draw_rune_underline (s : Scaffold) (left x y : float) (cr : ColoredRune) :
  Symbol cr <> newline -> Symbol cr <> tab ->
  existsb is_DrawLine (draw_rune s left ([], x, y) cr).1.1 =
  (Z.land (Settings cr) 28 =? 16).
Proof.
  intros Hnl Htab. unfold draw_rune, string_of_rune. cbv zeta.
  destruct (gg_MeasureString _ _) as [w h].
  destruct (bool_decide (_ = [newline])) eqn:E1.
  { apply bool_decide_eq_true in E1. injection E1 as E1.
    destruct (valid_rune (Symbol cr)); [ contradiction | discriminate E1 ]. }
  destruct (bool_decide (_ = [tab])) eqn:E2.
  { apply bool_decide_eq_true in E2. injection E2 as E2.
    destruct (valid_rune (Symbol cr)); [ contradiction | discriminate E2 ]. }
  unfold underline_ops, set_resolved.
  repeat match goal with
  | |- context [if ?b then _ else _] => destruct b
  | |- context [match mapStandardColor ?s ?r ?g ?b with _ => _ end] =>
      destruct (mapStandardColor s r g b)
  end; reflexivity.
Qed.

(** The bits under [0x1C] spell 16 exactly when the underline bit is set
    and the two emphasis bits are clear. *)
Lemma underline_alone (settings : Z) :
  Z.land settings 28 = 16 <->
  Z.land settings 16 = 16 /\ Z.land settings 12 = 0.
Proof.
  split.
  - intros E. split.
    + replace 16 with (Z.land 28 16) at 1 by reflexivity.
      rewrite Z.land_assoc, E. reflexivity.
    + replace 12 with (Z.land 28 12) by reflexivity.
      rewrite Z.land_assoc, E. reflexivity.
  - intros [E16 E12]. replace 28 with (Z.lor 16 12) by reflexivity.
    rewrite Z.land_lor_distr_r, E16, E12. reflexivity.
Qed.

(** * The properties at concrete inputs *)

Section Witnesses.
Import Examples.

Example parseHexColor_examples :
  parseHexColor "#112233" = inr (RGBA 17 34 51 255) /\
  parseHexColor "aAbBcC" = inr (RGBA 170 187 204 255) /\
  parseHexColor "#12345" = inl (Errorf "hex color must be 6 characters long") /\
  parseHexColor "#11223g" = inl (ErrorfW "invalid hex color" (InvalidByteError "g")) /\
  parseHexColor "##12345" = inl (ErrorfW "invalid hex color" (InvalidByteError "#")).
Proof. repeat split. Qed.

(** C10 at [#112233]. *)
Lemma parseHexColor_witness :
  parseHexColor "#112233" = inr (RGBA 17 34 51 255).
Proof.
  apply (proj1 (parseHexColor_exactly_six_hex_digits "#112233")).
  exists "1"%char, "1"%char, "2"%char, "2"%char, "3"%char, "3"%char, 1, 1, 2, 2, 3, 3.
  split; [ right; reflexivity | ].
  unfold hex_digit. simpl. repeat split; tauto.
Defined.

(** C9 on an input the decoder rejects. *)
Lemma AddContent_decode_error_witness :
  AddContent (H := demo) themed (inl (ErrExternal "unexpected escape sequence")) =
    (themed,
     Some (ErrorfW "failed to parse input stream"
             (ErrExternal "unexpected escape sequence"))).
Proof.
  apply (proj1 (AddContent_decode_error_appends_nothing (H := demo) themed
                  (inl (ErrExternal "unexpected escape sequence")))).
  reflexivity.
Defined.


(** C5 at the grey (64, 64, 64): 12288 away from the nearest references. *)
Lemma mapStandardColor_far_witness :
  mapStandardColor themed 64 64 64 = None.
Proof.
  apply (mapStandardColor_far_from_every_reference themed
           {[ 1 := RGBA 17 34 51 255 ]} 64 64 64).
  - reflexivity.
  - lia.
  - lia.
  - lia.
  - repeat constructor; discriminate.
  - repeat constructor; vm_compute; discriminate.
Defined.

(** C8 on [plain text] and its newline, with 80 terminal columns. *)
Lemma WriteRaw_round_trip_witness :
  exists s',
    AddContent (H := demo) scaffold0 (inr plain_text) = (s', None) /\
    content s' = plain_text /\
    WriteRaw (H := demo) s' [] = ([bunt_String (Externals := demo) plain_text], None).
Proof.
  apply (WriteRaw_after_AddContent_round_trip (H := demo) scaffold0
           (inr plain_text) plain_text []).
  - reflexivity.
  - reflexivity.
  - vm_compute. discriminate.
  - unfold lines_fit. simpl. repeat constructor; vm_compute; discriminate.
Defined.

(** C6 on two lines ended by a newline: twice the line height. *)
Lemma measureContent_height_witness :
  let s := with_content scaffold0 (plain [97; 98; 10; 99; 100; 10]) in
  logical_lines (map Symbol (content s)) = 2%nat /\
  exists w,
    measureContent (H := demo) s =
    Returns (w, (float64_of_int 2 * fontHeight s * lineSpacing s)%float).
Proof.
  cbv zeta. split; [ reflexivity | ].
  apply (measureContent_height (H := demo)
           (with_content scaffold0 (plain [97; 98; 10; 99; 100; 10]))).
  simpl. lia.
Defined.





End Witnesses.

(** * Further properties *)

(** ** Hex colours *)

(** A colour that [parseHexColor] returns is a [color.RGBA] whose three
    components are bytes and whose alpha is 255. *)
Theorem parseHexColor_components_are_bytes (s : string) (c : Color) :
  parseHexColor s = inr c ->
  exists r g b, c = RGBA r g b 255 /\ is_byte r /\ is_byte g /\ is_byte b.
Proof.
  intros E. apply parseHexColor_inr in E as (r & g & b & Hs & ->).
  exists r, g, b. split; [ reflexivity | ].
  destruct Hs as (d1 & d2 & d3 & d4 & d5 & d6 & v1 & v2 & v3 & v4 & v5 & v6 &
                  _ & H1 & H2 & H3 & H4 & H5 & H6 & -> & -> & ->).
  apply fromHexChar_hex_digit, fromHexChar_range in H1, H2, H3, H4, H5, H6.
  unfold is_byte. lia.
Qed.

Lemma ToLower_byte_hex_digit (d : ascii) (v : Z) :
  hex_digit d v -> hex_digit (ToLower_byte d) v.
Proof.
  unfold hex_digit. simpl. intros Hin.
  repeat (destruct Hin as [Hin | Hin];
          [ injection Hin as <- <-; vm_compute; tauto | ]).
  destruct Hin.
Qed.

(** The hex digits are read without regard to case: a string that parses
    gives the same colour once its letters are lowered. *)
Theorem parseHexColor_ignores_case (s : string) (c : Color) :
  parseHexColor s = inr c -> parseHexColor (ToLower s) = inr c.
Proof.
  intros E. apply parseHexColor_inr in E as (r & g & b & Hs & ->).
  apply parseHexColor_accepts.
  destruct Hs as (d1 & d2 & d3 & d4 & d5 & d6 & v1 & v2 & v3 & v4 & v5 & v6 &
                  Hs & H1 & H2 & H3 & H4 & H5 & H6 & Hr & Hg & Hb).
  exists (ToLower_byte d1), (ToLower_byte d2), (ToLower_byte d3),
         (ToLower_byte d4), (ToLower_byte d5), (ToLower_byte d6),
         v1, v2, v3, v4, v5, v6.
  split; [ destruct Hs as [-> | ->]; [ left | right ]; reflexivity | ].
  repeat split; try assumption; apply ToLower_byte_hex_digit; assumption.
Qed.

(** ** The colour resolver *)

(** Every key of the literal is bound to the index its entry gives: the
    repeated keys of the literal repeat the same index. *)
Lemma standardColors_entries_bound :
  Forall (fun kv : (Z * Z * Z) * Z => standardColors !! kv.1 = Some kv.2)
    standardColors_entries.
Proof.
  unfold standardColors_entries. repeat constructor; vm_compute; reflexivity.
Qed.

(** A binding of the map a literal denotes comes from one of its entries. *)
Lemma literal_lookup_Some {K V : Type} `{Countable K} (entries : list (K * V))
    (m : gmap K V) (k : K) (v : V) :
  fold_left (fun m kv => <[kv.1 := kv.2]> m) entries m !! k = Some v ->
  (k, v) ∈ entries \/ m !! k = Some v.
Proof.
  revert m. induction entries as [| [k' v'] entries IH]; intros m; simpl.
  - intros Hm. right. exact Hm.
  - intros Hl. apply IH in Hl as [Hin | Hl].
    + left. right. exact Hin.
    + destruct (decide (k' = k)) as [-> | Hne].
      * rewrite lookup_insert_eq in Hl. injection Hl as ->. left. left.
      * rewrite lookup_insert_ne in Hl by exact Hne. right. exact Hl.
Qed.

Lemma standardColors_indices :
  Forall (fun kv : (Z * Z * Z) * Z => 0 <= kv.2 <= 15) standardColors_entries.
Proof. unfold standardColors_entries. repeat constructor; simpl; lia. Qed.

Lemma ansiColors_indices :
  Forall (fun row : Z * Z * Z * Z => 0 <= row_index row <= 15) ansiColors.
Proof. unfold ansiColors, row_index. repeat constructor; simpl; lia. Qed.

(** The search ends on the start values or on the distance and the index
    of a row it has read, and on no larger distance than any row read. *)
Lemma closest_fold_minimum (r g b : Z) (rows : list (Z * Z * Z * Z)) (st : Z * Z) :
  let st' := fold_left (closest_step r g b) rows st in
  st'.1 <= st.1 /\
  Forall (fun row => st'.1 <= distance_to r g b row) rows /\
  (st' = st \/
   exists row, row ∈ rows /\ st' = (distance_to r g b row, row_index row)).
Proof.
  revert st. induction rows as [| row rows IH]; intros st; simpl.
  - split; [ lia | ]. split; [ constructor | left; reflexivity ].
  - specialize (IH (closest_step r g b st row)).
    destruct IH as (Hle & Hall & Hfrom).
    assert (Hstep : (closest_step r g b st row).1 <= st.1 /\
                    (closest_step r g b st row).1 <= distance_to r g b row /\
                    (closest_step r g b st row = st \/
                     closest_step r g b st row =
                       (distance_to r g b row, row_index row))).
    { unfold closest_step, row_index. destruct st as [minDistance closestIndex].
      destruct (Z.ltb_spec (distance_to r g b row) minDistance); simpl.
      - repeat split; try lia. right. reflexivity.
      - repeat split; try lia. left. reflexivity. }
    destruct Hstep as (Hs1 & Hs2 & Hs3).
    split; [ lia | ]. split; [ constructor; [ lia | exact Hall ] | ].
    destruct Hfrom as [Hsame | (row' & Hin & Hrow')].
    + rewrite Hsame. destruct Hs3 as [Hs3 | Hs3].
      * left. exact Hs3.
      * right. exists row. split; [ left | exact Hs3 ].
    + right. exists row'. split; [ right; exact Hin | exact Hrow' ].
Qed.

(** For a byte triple the search of [findClosestColor] always ends on a
    row of the table: a nearest one. *)
Lemma closest_row (r g b : Z) :
  is_byte r -> is_byte g -> is_byte b ->
  exists row,
    row ∈ ansiColors /\
    fold_left (closest_step r g b) ansiColors (GoInt.MaxInt, -1) =
      (squared_distance r g b row, row_index row) /\
    Forall (fun row' => squared_distance r g b row <= squared_distance r g b row')
      ansiColors.
Proof.
  intros Hr Hg Hb.
  pose proof (closest_fold_minimum r g b ansiColors (GoInt.MaxInt, -1))
    as (_ & Hall & Hfrom). cbv zeta in *.
  assert (Hexact : forall row, row ∈ ansiColors ->
            distance_to r g b row = squared_distance r g b row)
    by (intros; apply distance_to_exact; assumption).
  destruct Hfrom as [Hsame | (row & Hin & Hrow)].
  - exfalso. rewrite Hsame in Hall. simpl in Hall.
    apply Forall_cons in Hall as [Hfirst _].
    rewrite Hexact in Hfirst by (unfold ansiColors; left).
    unfold squared_distance, GoInt.MaxInt, is_byte in *.
    rewrite !Z.pow_2_r in Hfirst.
    assert (Hsq : forall d, 0 <= d <= 255 -> d * d <= 65025) by (intros; nia).
    pose proof (Hsq (r - 0) ltac:(lia)). pose proof (Hsq (g - 0) ltac:(lia)).
    pose proof (Hsq (b - 0) ltac:(lia)). lia.
  - exists row. split; [ exact Hin | ]. rewrite Hrow in *.
    rewrite Hexact by exact Hin. split; [ reflexivity | ].
    apply Forall_forall. intros row' Hin'.
    rewrite <- (Hexact row') by exact Hin'. rewrite <- (Hexact row) by exact Hin.
    exact (proj1 (Forall_forall _ _) Hall row' Hin').
Qed.

(** [findClosestColor] on a byte triple takes a nearest row of its
    reference table: when that row lies at a squared distance below 10000
    it answers with the custom colour of the row's index, if the table has
    one, and otherwise with no match. *)
Theorem findClosestColor_nearest (s : Scaffold) (m : gmap Z Color) (r g b : Z) :
  customColors s = Some m ->
  is_byte r -> is_byte g -> is_byte b ->
  exists row,
    row ∈ ansiColors /\
    Forall (fun row' => squared_distance r g b row <= squared_distance r g b row')
      ansiColors /\
    findClosestColor s r g b =
      if squared_distance r g b row <? 10000 then m !! row_index row else None.
Proof.
  intros Hm Hr Hg Hb.
  destruct (closest_row r g b Hr Hg Hb) as (row & Hin & Hfold & Hmin).
  exists row. split; [ exact Hin | ]. split; [ exact Hmin | ].
  unfold findClosestColor. rewrite Hm, Hfold.
  pose proof (proj1 (Forall_forall _ _) ansiColors_indices row Hin) as Hidx.
  cbv beta in Hidx.
  replace (row_index row >=? 0) with true
    by (symmetry; apply Z.geb_le; lia).
  reflexivity.
Qed.

(** An RGB triple that is a key of the exact-match table resolves to the
    custom colour of the index the table gives, whenever the loaded scheme
    has a colour for that index. *)
Theorem mapStandardColor_exact_match (s : Scaffold) (m : gmap Z Color)
    (r g b index : Z) (c : Color) :
  customColors s = Some m ->
  ((r, g, b), index) ∈ standardColors_entries ->
  m !! index = Some c ->
  mapStandardColor s r g b = Some c.
Proof.
  intros Hm Hin Hc. unfold mapStandardColor. rewrite Hm.
  pose proof (proj1 (Forall_forall _ _) standardColors_entries_bound _ Hin) as Hk.
  cbn [fst snd] in Hk. rewrite Hk. cbn [mbind option_bind]. rewrite Hc. reflexivity.
Qed.

(** [mapStandardColor] never makes a colour up: with no scheme loaded it
    reports no match, and a colour it returns is the custom colour of one
    of the sixteen indices. *)
Theorem mapStandardColor_only_custom_colors (s : Scaffold) (r g b : Z) :
  (customColors s = None -> mapStandardColor s r g b = None) /\
  (forall c,
     mapStandardColor s r g b = Some c ->
     exists m index,
       customColors s = Some m /\ 0 <= index <= 15 /\ m !! index = Some c).
Proof.
  unfold mapStandardColor. split; [ intros ->; reflexivity | ].
  intros c. destruct (customColors s) as [m |] eqn:Hm; [ | discriminate ].
  destruct (standardColors !! (r, g, b)) as [index |] eqn:Hk; simpl.
  - destruct (m !! index) as [c' |] eqn:Hc.
    + intros [= <-]. exists m, index. split; [ reflexivity | ].
      split; [ | exact Hc ].
      apply literal_lookup_Some in Hk as [Hin | Hk].
      * exact (proj1 (Forall_forall _ _) standardColors_indices _ Hin).
      * rewrite lookup_empty in Hk. discriminate.
    + clear Hk Hc. revert c. unfold findClosestColor. rewrite Hm.
      pose proof (closest_fold_minimum r g b ansiColors (GoInt.MaxInt, -1))
        as (_ & _ & Hfrom). cbv zeta in Hfrom.
      destruct Hfrom as [-> | (row & Hin & ->)]; intros c.
      * simpl. discriminate.
      * destruct (_ && _); [ | discriminate ]. intros Hc.
        exists m, (row_index row). split; [ reflexivity | ].
        split; [ | exact Hc ].
        exact (proj1 (Forall_forall _ _) ansiColors_indices row Hin).
  - revert c. unfold findClosestColor. rewrite Hm.
    pose proof (closest_fold_minimum r g b ansiColors (GoInt.MaxInt, -1))
      as (_ & _ & Hfrom). cbv zeta in Hfrom.
    destruct Hfrom as [-> | (row & Hin & ->)]; intros c.
    + simpl. discriminate.
    + destruct (_ && _); [ | discriminate ]. intros Hc.
      exists m, (row_index row). split; [ reflexivity | ].
      split; [ | exact Hc ].
      exact (proj1 (Forall_forall _ _) ansiColors_indices row Hin).
Qed.

(** ** Loading a colorscheme, further *)

Section ColorschemeMore.
Context `{Externals}.

Lemma with_customColors_same (s : Scaffold) :
  with_customColors s (customColors s) = s.
Proof. destruct s. reflexivity. Qed.

(** The loop over the indexed colours changes the table only, and as the
    loop on the table alone does. *)
Lemma load_colors_table (scheme : Scheme) (indices : list Z) (s : Scaffold) :
  load_colors scheme indices s =
  (with_customColors s (load_table scheme indices (customColors s)).1,
   (load_table scheme indices (customColors s)).2).
Proof.
  revert s. induction indices as [| i rest IH]; intros s; simpl.
  - unfold ret. rewrite with_customColors_same. reflexivity.
  - destruct (Colors scheme !! colorKey i) as [hexColor |]; [ | apply IH ].
    unfold mbind, Load_bind, bind, parse_or, modify, fail, ret.
    destruct (parseHexColor hexColor) as [err | c]; simpl.
    + rewrite with_customColors_same. reflexivity.
    + rewrite IH. reflexivity.
Qed.

(** A table the loop leaves on success: over the indices read, the colours
    of the scheme laid over what was there. *)
Lemma load_table_success (scheme : Scheme) (indices : list Z)
    (m : gmap Z Color) (t' : option (gmap Z Color)) :
  load_table scheme indices (Some m) = (t', inr tt) ->
  exists m', t' = Some m' /\
    forall j, m' !! j =
      if decide (j ∈ indices)
      then match scheme_color scheme (colorKey j) with
           | Some c => Some c
           | None => m !! j
           end
      else m !! j.
Proof.
  revert m. induction indices as [| i rest IH]; intros m; cbn [load_table].
  - intros [= <-]. exists m. split; [ reflexivity | ]. intros j.
    destruct (decide (j ∈ [])) as [Hin | _]; [ | reflexivity ].
    apply elem_of_nil in Hin. destruct Hin.
  - destruct (Colors scheme !! colorKey i) as [hexColor |] eqn:Ekey.
    + destruct (parseHexColor hexColor) as [err | c] eqn:Eparse; [ discriminate | ].
      intros Hrest. apply IH in Hrest as (m' & -> & Hm').
      exists m'. split; [ reflexivity | ]. intros j. rewrite Hm'.
      destruct (decide (j = i)) as [-> | Hne].
      * rewrite (decide_True (P := i ∈ i :: rest)) by left.
        unfold scheme_color. rewrite Ekey, Eparse.
        destruct (decide (i ∈ rest)); [ reflexivity | apply lookup_insert_eq ].
      * rewrite lookup_insert_ne by (intros ->; contradiction).
        destruct (decide (j ∈ rest)) as [Hin | Hout].
        -- rewrite decide_True by (right; exact Hin). reflexivity.
        -- rewrite decide_False; [ reflexivity | ].
           intros Hin. apply elem_of_cons in Hin as [-> | Hin]; contradiction.
    + intros Hrest. apply IH in Hrest as (m' & -> & Hm').
      exists m'. split; [ reflexivity | ]. intros j. rewrite Hm'.
      destruct (decide (j = i)) as [-> | Hne].
      * rewrite (decide_True (P := i ∈ i :: rest)) by left.
        unfold scheme_color. rewrite Ekey.
        destruct (decide (i ∈ rest)); reflexivity.
      * destruct (decide (j ∈ rest)) as [Hin | Hout].
        -- rewrite decide_True by (right; exact Hin). reflexivity.
        -- rewrite decide_False; [ reflexivity | ].
           intros Hin. apply elem_of_cons in Hin as [-> | Hin]; contradiction.
Qed.

(** The loop succeeds exactly when every key it reads is well-formed. *)
Lemma load_table_succeeds_iff (scheme : Scheme) (indices : list Z)
    (t : option (gmap Z Color)) :
  (exists t', load_table scheme indices t = (t', inr tt)) <->
  Forall (well_formed_key scheme) (map colorKey indices).
Proof.
  revert t. induction indices as [| i rest IH]; intros t; simpl.
  - split; [ constructor | eauto ].
  - destruct (Colors scheme !! colorKey i) as [hexColor |] eqn:Ekey.
    + destruct (parseHexColor hexColor) as [err | c] eqn:Eparse.
      * split; [ intros [t' E]; discriminate E | ].
        intros Hall. apply Forall_cons in Hall as [Hkey _].
        destruct (Hkey hexColor Ekey) as [c Hc]. congruence.
      * rewrite IH. split.
        -- intros Hall. constructor; [ | exact Hall ].
           intros hex Ehex. rewrite Ekey in Ehex. injection Ehex as <-. eauto.
        -- intros Hall. apply Forall_cons in Hall as [_ Hall]. exact Hall.
    + rewrite IH. split.
      * intros Hall. constructor; [ | exact Hall ].
        intros hex Ehex. rewrite Ekey in Ehex. discriminate.
      * intros Hall. apply Forall_cons in Hall as [_ Hall]. exact Hall.
Qed.

Ltac run_load :=
  unfold apply_scheme, load_foreground, load_background,
    mbind, Load_bind, bind, parse_or, modify, fail, ret.

(** Loading a scheme once more, from the state a load of it left, ends in
    that state and with that result again. *)
Lemma apply_scheme_again (scheme : Scheme) (s s1 : Scaffold) (r1 : error + unit) :
  apply_scheme scheme (with_customColors s (Some ∅)) = (s1, r1) ->
  apply_scheme scheme (with_customColors s1 (Some ∅)) = (s1, r1).
Proof.
  run_load. rewrite !load_colors_table. cbn [customColors with_customColors].
  destruct (load_table scheme (seqZ 0 16) (Some ∅)) as [t1 [e1 | []]]; cbn [fst snd].
  { intros [= <- <-]. reflexivity. }
  destruct (Colors scheme !! "foreground"%string) as [fgHex |].
  - destruct (parseHexColor fgHex) as [efg | cfg].
    { intros [= <- <-]. reflexivity. }
    destruct (Colors scheme !! "background"%string) as [bgHex |].
    + destruct (parseHexColor bgHex) as [ebg | cbg]; intros [= <- <-]; reflexivity.
    + intros [= <- <-]. reflexivity.
  - destruct (Colors scheme !! "background"%string) as [bgHex |].
    + destruct (parseHexColor bgHex) as [ebg | cbg]; intros [= <- <-]; reflexivity.
    + intros [= <- <-]. reflexivity.
Qed.

(** Reloading is harmless: a second [LoadColorscheme] of the same file,
    right after the first, returns what the first returned and leaves the
    scaffold as the first left it, whether the first succeeded or failed. *)
Theorem LoadColorscheme_idempotent (s : Scaffold) (file : string) :
  LoadColorscheme (LoadColorscheme s file).1 file = LoadColorscheme s file.
Proof.
  unfold LoadColorscheme.
  destruct (os_ReadFile file) as [err | data]; [ reflexivity | ].
  assert (Hscheme : forall scheme,
    (let '(s', r) := apply_scheme scheme
                       (with_customColors
                          (let '(s', r) := apply_scheme scheme
                                             (with_customColors s (Some ∅)) in
                           (s', error_of r)).1 (Some ∅)) in
     (s', error_of r)) =
    (let '(s', r) := apply_scheme scheme (with_customColors s (Some ∅)) in
     (s', error_of r))).
  { intros scheme.
    destruct (apply_scheme scheme (with_customColors s (Some ∅))) as [s1 r1] eqn:E.
    cbn [fst]. rewrite (apply_scheme_again _ _ _ _ E). reflexivity. }
  destruct (json_Unmarshal_schemes data) as [err | [| scheme rest]].
  - destruct (json_Unmarshal_scheme data) as [err' | scheme];
      [ reflexivity | apply Hscheme ].
  - destruct (json_Unmarshal_scheme data) as [err' | scheme];
      [ reflexivity | apply Hscheme ].
  - apply Hscheme.
Qed.

(** What a run of [apply_scheme] leaves is the scaffold it started from
    with other colours. *)
Lemma apply_scheme_recolors (scheme : Scheme) (s : Scaffold) :
  let s' := (apply_scheme scheme s).1 in
  s' = recolor s (customColors s') (defaultForegroundColor s')
         (defaultBackgroundColor s').
Proof.
  cbv zeta. run_load. rewrite load_colors_table.
  destruct (load_table scheme (seqZ 0 16) (customColors s)) as [t1 [e1 | []]];
    cbn [fst snd].
  { destruct s. reflexivity. }
  destruct (Colors scheme !! "foreground"%string) as [fgHex |];
    [ destruct (parseHexColor fgHex) as [efg | cfg] | ];
    try (destruct s; reflexivity);
    (destruct (Colors scheme !! "background"%string) as [bgHex |];
     [ destruct (parseHexColor bgHex) as [ebg | cbg] | ];
     destruct s; reflexivity).
Qed.

(** [LoadColorscheme] touches nothing but the custom colour table and the
    two default colours: content, geometry, toggles, shadow and fonts are
    those of the scaffold it was called on, whatever it returns. *)
Theorem LoadColorscheme_changes_colors_only (s : Scaffold) (file : string) :
  let s' := (LoadColorscheme s file).1 in
  s' = recolor s (customColors s') (defaultForegroundColor s')
         (defaultBackgroundColor s').
Proof.
  cbv zeta. unfold LoadColorscheme.
  assert (Hscheme : forall scheme,
    let s' := (let '(s', r) := apply_scheme scheme (with_customColors s (Some ∅)) in
               (s', error_of r)).1 in
    s' = recolor s (customColors s') (defaultForegroundColor s')
           (defaultBackgroundColor s')).
  { intros scheme. cbv zeta.
    pose proof (apply_scheme_recolors scheme (with_customColors s (Some ∅))) as Hr.
    cbv zeta in Hr.
    destruct (apply_scheme scheme (with_customColors s (Some ∅))) as [s1 r1].
    cbn [fst] in *. rewrite Hr at 1. destruct s. reflexivity. }
  destruct (os_ReadFile file) as [err | data]; [ destruct s; reflexivity | ].
  destruct (json_Unmarshal_schemes data) as [err | [| scheme rest]].
  - destruct (json_Unmarshal_scheme data) as [err' | scheme];
      [ destruct s; reflexivity | apply Hscheme ].
  - destruct (json_Unmarshal_scheme data) as [err' | scheme];
      [ destruct s; reflexivity | apply Hscheme ].
  - apply Hscheme.
Qed.

(** What a successful [apply_scheme] leaves of a scaffold with a table. *)
Lemma apply_scheme_success (scheme : Scheme) (s s' : Scaffold) (m : gmap Z Color) :
  customColors s = Some m ->
  apply_scheme scheme s = (s', inr tt) ->
  (exists m', customColors s' = Some m' /\
     forall j, m' !! j =
       if decide (j ∈ seqZ 0 16)
       then match scheme_color scheme (colorKey j) with
            | Some c => Some c
            | None => m !! j
            end
       else m !! j) /\
  defaultForegroundColor s' =
    default (defaultForegroundColor s) (scheme_color scheme "foreground") /\
  defaultBackgroundColor s' =
    default (defaultBackgroundColor s) (scheme_color scheme "background").
Proof.
  intros Hm. run_load. rewrite load_colors_table, Hm.
  destruct (load_table scheme (seqZ 0 16) (Some m)) as [t1 [e1 | []]] eqn:Et;
    cbn [fst snd]; [ discriminate | ].
  apply load_table_success in Et as (m' & -> & Hm').
  unfold scheme_color.
  destruct (Colors scheme !! "foreground"%string) as [fgHex |];
    [ destruct (parseHexColor fgHex) as [efg | cfg]; [ discriminate | ] | ];
    (destruct (Colors scheme !! "background"%string) as [bgHex |];
     [ destruct (parseHexColor bgHex) as [ebg | cbg]; [ discriminate | ] | ];
     intros [= <-]; (split; [ exists m'; split; [ reflexivity | exact Hm' ] | ]);
     split; reflexivity).
Qed.

Lemma apply_scheme_succeeds_iff (scheme : Scheme) (s : Scaffold) :
  (apply_scheme scheme s).2 = inr tt <-> well_formed scheme.
Proof.
  unfold well_formed, scheme_keys. rewrite Forall_app.
  rewrite <- (load_table_succeeds_iff scheme (seqZ 0 16) (customColors s)).
  rewrite Forall_cons, Forall_singleton. unfold well_formed_key.
  run_load. rewrite load_colors_table.
  destruct (load_table scheme (seqZ 0 16) (customColors s)) as [t1 [e1 | []]];
    cbn [fst snd].
  { split; [ discriminate | ]. intros ([t' E] & _). discriminate E. }
  destruct (Colors scheme !! "foreground"%string) as [fgHex |].
  - destruct (parseHexColor fgHex) as [efg | cfg] eqn:Efg; cbn [snd].
    { split; [ discriminate | ]. intros (_ & Hfg & _).
      destruct (Hfg fgHex eq_refl) as [c Hc]. congruence. }
    destruct (Colors scheme !! "background"%string) as [bgHex |].
    + destruct (parseHexColor bgHex) as [ebg | cbg] eqn:Ebg; cbn [snd].
      { split; [ discriminate | ]. intros (_ & _ & Hbg).
        destruct (Hbg bgHex eq_refl) as [c Hc]. congruence. }
      split; [ intros _ | reflexivity ].
      split; [ eauto | ]. split; intros hex [= <-]; eauto.
    + cbn [snd]. split; [ intros _ | reflexivity ].
      split; [ eauto | ]. split; [ intros hex [= <-]; eauto | discriminate ].
  - destruct (Colors scheme !! "background"%string) as [bgHex |].
    + destruct (parseHexColor bgHex) as [ebg | cbg] eqn:Ebg; cbn [snd].
      { split; [ discriminate | ]. intros (_ & _ & Hbg).
        destruct (Hbg bgHex eq_refl) as [c Hc]. congruence. }
      split; [ intros _ | reflexivity ].
      split; [ eauto | ]. split; [ discriminate | intros hex [= <-]; eauto ].
    + cbn [snd]. split; [ intros _ | reflexivity ].
      split; [ eauto | ]. split; discriminate.
Qed.

Lemma error_of_None (r : error + unit) : error_of r = None <-> r = inr tt.
Proof. destruct r as [e | []]; simpl; split; congruence. Qed.

(** The scheme a successful load has read. *)
Lemma LoadColorscheme_success_scheme (s s' : Scaffold) (file : string) :
  LoadColorscheme s file = (s', None) ->
  exists data scheme,
    os_ReadFile file = inr data /\
    decoded_scheme data = Some scheme /\
    apply_scheme scheme (with_customColors s (Some ∅)) = (s', inr tt).
Proof.
  unfold LoadColorscheme, decoded_scheme.
  destruct (os_ReadFile file) as [err | data]; [ discriminate | ].
  assert (Hscheme : forall scheme,
    (let '(s1, r) := apply_scheme scheme (with_customColors s (Some ∅)) in
     (s1, error_of r)) = (s', None) ->
    apply_scheme scheme (with_customColors s (Some ∅)) = (s', inr tt)).
  { intros scheme.
    destruct (apply_scheme scheme (with_customColors s (Some ∅))) as [s1 r].
    intros [= <- Hr]. apply error_of_None in Hr as ->. reflexivity. }
  destruct (json_Unmarshal_schemes data) as [err | [| scheme rest]] eqn:Earr;
    [ destruct (json_Unmarshal_scheme data) as [err' | scheme] eqn:Eobj;
      [ discriminate | ]
    | destruct (json_Unmarshal_scheme data) as [err' | scheme] eqn:Eobj;
      [ discriminate | ]
    | ];
    intros E; exists data, scheme; rewrite Earr, ?Eobj;
    (split; [ reflexivity | split; [ reflexivity | exact (Hscheme _ E) ] ]).
Qed.

Lemma scheme_slot_seqZ (scheme : Scheme) (j : Z) :
  (if decide (j ∈ seqZ 0 16)
   then match scheme_color scheme (colorKey j) with
        | Some c => Some c
        | None => (∅ : gmap Z Color) !! j
        end
   else (∅ : gmap Z Color) !! j) = scheme_slot scheme j.
Proof.
  unfold scheme_slot. rewrite lookup_empty.
  destruct (decide (j ∈ seqZ 0 16)) as [Hin | Hout].
  - apply elem_of_seqZ in Hin.
    replace ((0 <=? j) && (j <? 16)) with true
      by (symmetry; apply andb_true_iff; rewrite Z.leb_le, Z.ltb_lt; lia).
    destruct (scheme_color scheme (colorKey j)); reflexivity.
  - destruct ((0 <=? j) && (j <? 16)) eqn:E; [ | reflexivity ].
    apply andb_true_iff in E as [E1 E2].
    apply Z.leb_le in E1. apply Z.ltb_lt in E2.
    destruct Hout. apply elem_of_seqZ. lia.
Qed.

(** After a successful [LoadColorscheme] the custom table is exactly the
    well-formed [color0] to [color15] entries of the decoded scheme (what
    was loaded before is gone), each default colour is the scheme's when
    the scheme names one and the earlier one when it does not, and
    [getColor] answers with the scheme's colour of an index or else with
    the fallback it is given. *)
Theorem LoadColorscheme_success_state (s s' : Scaffold) (file : string) :
  LoadColorscheme s file = (s', None) ->
  exists data scheme,
    os_ReadFile file = inr data /\
    decoded_scheme data = Some scheme /\
    (exists m, customColors s' = Some m /\ forall i, m !! i = scheme_slot scheme i) /\
    defaultForegroundColor s' =
      default (defaultForegroundColor s) (scheme_color scheme "foreground") /\
    defaultBackgroundColor s' =
      default (defaultBackgroundColor s) (scheme_color scheme "background") /\
    forall i fallbackColor,
      getColor s' i fallbackColor = default fallbackColor (scheme_slot scheme i).
Proof.
  intros E. apply LoadColorscheme_success_scheme in E
    as (data & scheme & Hread & Hdec & Happly).
  exists data, scheme. split; [ exact Hread | ]. split; [ exact Hdec | ].
  apply (apply_scheme_success scheme (with_customColors s (Some ∅)) s' ∅
           (eq_refl (Some ∅))) in Happly
    as ((m & Hm & Hslots) & Hfg & Hbg).
  assert (Hslots' : forall i, m !! i = scheme_slot scheme i)
    by (intros i; rewrite Hslots; apply scheme_slot_seqZ).
  split; [ exists m; split; [ exact Hm | exact Hslots' ] | ].
  split; [ exact Hfg | ]. split; [ exact Hbg | ].
  intros i fallbackColor. unfold getColor. rewrite Hm, Hslots'.
  destruct (scheme_slot scheme i); reflexivity.
Qed.

(** [LoadColorscheme] succeeds exactly when the file can be read, decodes
    to a scheme, and each of the eighteen keys it reads ([color0] to
    [color15], [foreground], [background]) is absent or holds a well-formed
    hex colour. No other key of the scheme is looked at. *)
Theorem LoadColorscheme_succeeds_iff (s : Scaffold) (file : string) :
  (LoadColorscheme s file).2 = None <->
  exists data scheme,
    os_ReadFile file = inr data /\
    decoded_scheme data = Some scheme /\
    well_formed scheme.
Proof.
  unfold LoadColorscheme, decoded_scheme.
  destruct (os_ReadFile file) as [err | data].
  { split; [ discriminate | ]. intros (data & scheme & E & _). discriminate E. }
  assert (Hscheme : forall scheme,
    (let '(s1, r) := apply_scheme scheme (with_customColors s (Some ∅)) in
     (s1, error_of r)).2 = None <-> well_formed scheme).
  { intros scheme.
    rewrite <- (apply_scheme_succeeds_iff scheme (with_customColors s (Some ∅))).
    destruct (apply_scheme scheme (with_customColors s (Some ∅))) as [s1 r].
    cbn [snd]. apply error_of_None. }
  assert (Hdec : forall scheme0,
    match json_Unmarshal_schemes data with
    | inr (scheme :: _) => Some scheme
    | _ => match json_Unmarshal_scheme data with
           | inr scheme => Some scheme
           | inl _ => None
           end
    end = Some scheme0 ->
    (well_formed scheme0 <->
     exists data0 scheme,
       @inr error string data = inr data0 /\
       match json_Unmarshal_schemes data0 with
       | inr (scheme :: _) => Some scheme
       | _ => match json_Unmarshal_scheme data0 with
              | inr scheme => Some scheme
              | inl _ => None
              end
       end = Some scheme /\ well_formed scheme)).
  { intros scheme0 Hd. split.
    - intros Hwf. exists data, scheme0. auto.
    - intros (d & sch & [= <-] & Hd' & Hwf). congruence. }
  destruct (json_Unmarshal_schemes data) as [err | [| scheme rest]] eqn:Earr;
    [ destruct (json_Unmarshal_scheme data) as [err' | scheme] eqn:Eobj
    | destruct (json_Unmarshal_scheme data) as [err' | scheme] eqn:Eobj
    | ];
    try (rewrite Hscheme; apply Hdec; reflexivity);
    (split; [ discriminate | ]; intros (d & sch & [= <-] & E & _);
     rewrite Earr, Eobj in E; discriminate E).
Qed.

End ColorschemeMore.

(** ** The content buffer, further *)

Section ContentMore.
Context `{Externals}.

(** The loop of [AddContent] is the recursion [wrap_from] on its input. *)
Lemma wrap_fold_from (cols : Z) (parsed tmp : list ColoredRune) (counter : Z) :
  (fold_left (wrap_step cols) parsed (tmp, counter)).1 =
  tmp ++ wrap_from cols counter parsed.
Proof.
  revert tmp counter. induction parsed as [| cr rest IH]; intros tmp counter.
  - simpl. rewrite app_nil_r. reflexivity.
  - cbn [fold_left wrap_from wrap_step]. cbv zeta.
    destruct ((if Symbol cr =? newline then 0 else GoInt.add counter 1) >? cols).
    + rewrite IH, <- app_assoc. reflexivity.
    + rewrite IH, <- app_assoc. reflexivity.
Qed.

Lemma wrap_is_wrap_from (cols : Z) (parsed : list ColoredRune) :
  wrap cols parsed = wrap_from cols 0 parsed.
Proof. unfold wrap. rewrite wrap_fold_from. reflexivity. Qed.

Lemma wrap_from_sublist (cols counter : Z) (parsed : list ColoredRune) :
  sublist parsed (wrap_from cols counter parsed).
Proof.
  revert counter. induction parsed as [| cr rest IH]; intros counter.
  - constructor.
  - cbn [wrap_from]. cbv zeta.
    destruct (_ >? cols).
    + apply sublist_cons, sublist_skip, IH.
    + apply sublist_skip, IH.
Qed.

Lemma wrap_from_filter (cols counter : Z) (parsed : list ColoredRune) :
  filter (fun cr => Symbol cr <> newline) (wrap_from cols counter parsed) =
  filter (fun cr => Symbol cr <> newline) parsed.
Proof.
  revert counter. induction parsed as [| cr rest IH]; intros counter.
  - reflexivity.
  - cbn [wrap_from]. cbv zeta.
    destruct (_ >? cols).
    + rewrite filter_cons_False by (simpl; intros Hne; apply Hne; reflexivity).
      rewrite !filter_cons. rewrite IH. reflexivity.
    + rewrite !filter_cons. rewrite IH. reflexivity.
Qed.

(** [AddContent] only ever appends, and what it appends is its decoded
    input with newlines put in: for any input that decodes and any column
    setting, the buffer keeps what it held, the decoded runes follow in
    their order, and taking the newlines out of what was appended gives
    the decoded runes without theirs. Nothing else of the scaffold
    changes. *)
Theorem AddContent_appends_input (s : Scaffold) (input : Reader)
    (parsed : list ColoredRune) :
  bunt_ParseStream input = inr parsed ->
  exists appended,
    AddContent s input = (with_content s (content s ++ appended), None) /\
    sublist parsed appended /\
    filter (fun cr => Symbol cr <> newline) appended =
    filter (fun cr => Symbol cr <> newline) parsed.
Proof.
  intros Hparse. exists (wrap (GetFixedColumns s) parsed).
  unfold AddContent. rewrite Hparse. split; [ reflexivity | ].
  rewrite wrap_is_wrap_from.
  split; [ apply wrap_from_sublist | apply wrap_from_filter ].
Qed.

(** With the counter at most the width and the line being written at most
    one rune longer than the counter says, no line written goes beyond
    [cols + 1] runes. *)
Lemma wrap_from_lines_within (cols counter current : Z) (parsed : list ColoredRune) :
  0 <= cols < GoInt.MaxInt ->
  0 <= counter <= cols -> current <= counter + 1 ->
  lines_within (cols + 1) current (map Symbol (wrap_from cols counter parsed)).
Proof.
  intros Hcols. revert counter current.
  induction parsed as [| cr rest IH]; intros counter current Hcounter Hcurrent.
  - simpl. lia.
  - cbn [wrap_from]. cbv zeta. unfold GoInt.add.
    rewrite wrap64_small by (unfold GoInt.MinInt, GoInt.MaxInt in *; lia).
    destruct (Z.eqb_spec (Symbol cr) newline) as [Enl | Enl].
    + replace (0 >? cols) with false
        by (symmetry; rewrite Z.gtb_ltb; apply Z.ltb_ge; lia).
      cbn [map lines_within]. rewrite Enl. cbn [Z.eqb newline Pos.eqb].
      split; [ lia | ]. apply IH; lia.
    + destruct (counter + 1 >? cols) eqn:E; rewrite Z.gtb_ltb in E.
      * apply Z.ltb_lt in E. cbn [map lines_within wrap_newline Symbol].
        cbn [Z.eqb newline Pos.eqb].
        replace (Symbol cr =? newline) with false
          by (symmetry; apply Z.eqb_neq; exact Enl).
        split; [ lia | ]. apply IH; lia.
      * apply Z.ltb_ge in E. cbn [map lines_within].
        replace (Symbol cr =? newline) with false
          by (symmetry; apply Z.eqb_neq; exact Enl).
        apply IH; lia.
Qed.

(** [lines_within] from an empty first line says that every piece of
    [Split_newline] is within the bound. *)
Lemma lines_within_Split (bound current : Z) (text : list rune) :
  lines_within bound current text <->
  match Split_newline text with
  | line :: lines =>
      current + Z.of_nat (length line) <= bound /\
      Forall (fun line : list rune => Z.of_nat (length line) <= bound) lines
  | [] => False
  end.
Proof.
  revert current. induction text as [| c rest IH]; intros current; simpl.
  - rewrite Z.add_0_r. split; [ intros Hc; split; [ exact Hc | constructor ] | ].
    intros [Hc _]. exact Hc.
  - destruct (c =? newline).
    + rewrite IH. simpl length. rewrite Z.add_0_r.
      destruct (Split_newline rest) as [| line lines] eqn:E.
      { destruct (Split_newline_nonempty _ E). }
      rewrite Forall_cons. simpl. tauto.
    + rewrite IH.
      destruct (Split_newline rest) as [| line lines] eqn:E.
      { destruct (Split_newline_nonempty _ E). }
      simpl length. rewrite Nat2Z.inj_succ.
      replace (current + Z.succ (Z.of_nat (length line)))
        with (current + 1 + Z.of_nat (length line)) by lia.
      reflexivity.
Qed.

(** The hard wrap bounds the lines it writes by one rune more than the
    width: for a width [0 <= c < MaxInt] and any decoded input, every line
    of what [AddContent] appends has at most [c + 1] runes. (A line opened
    by a synthetic newline starts with the rune that caused the wrap, which
    the counter does not count.) *)
Theorem AddContent_lines_bounded (s : Scaffold) (input : Reader)
    (parsed : list ColoredRune) :
  bunt_ParseStream input = inr parsed ->
  0 <= GetFixedColumns s < GoInt.MaxInt ->
  exists appended,
    AddContent s input = (with_content s (content s ++ appended), None) /\
    Forall (fun line : list rune =>
              Z.of_nat (length line) <= GetFixedColumns s + 1)
      (Split_newline (map Symbol appended)).
Proof.
  intros Hparse Hcols. exists (wrap (GetFixedColumns s) parsed).
  unfold AddContent. rewrite Hparse. split; [ reflexivity | ].
  rewrite wrap_is_wrap_from.
  pose proof (wrap_from_lines_within (GetFixedColumns s) 0 0 parsed Hcols
                ltac:(lia) ltac:(lia)) as Hw.
  apply lines_within_Split in Hw.
  destruct (Split_newline _) as [| line lines]; [ destruct Hw | ].
  destruct Hw as [Hline Hlines]. constructor; [ lia | exact Hlines ].
Qed.

End ContentMore.

(** ** Measuring and compositing, further *)

Section RenderMore.
Context `{Externals}.

(** With a fixed column count the measured width does not depend on the
    content: it is the advance of that many letters [a] in the regular
    face, whatever the buffer holds. *)
Theorem measureContent_fixed_width (s : Scaffold) (runes : list ColoredRune) :
  0 < columns s ->
  exists h,
    measureContent (with_content s runes) =
    Returns (fixed_width (regular s) (columns s), h).
Proof.
  intros Hcols. unfold measureContent.
  replace (columns (with_content s runes)) with (columns s) by reflexivity.
  replace (columns s =? 0) with false by (symmetry; apply Z.eqb_neq; lia).
  rewrite GetFixedColumns_fixed by (simpl; lia).
  unfold Repeat_a. simpl columns.
  replace (columns s <? 0) with false by (symmetry; apply Z.ltb_ge; lia).
  eexists. reflexivity.
Qed.

Lemma measureContent_negative (s : Scaffold) :
  columns s < 0 -> measureContent s = Panics "strings: negative Repeat count".
Proof.
  intros Hcols. unfold measureContent.
  replace (columns s =? 0) with false by (symmetry; apply Z.eqb_neq; lia).
  rewrite GetFixedColumns_fixed by lia. unfold Repeat_a.
  replace (columns s <? 0) with true by (symmetry; apply Z.ltb_lt; lia).
  reflexivity.
Qed.

(** A negative column setting makes rendering panic: [strings.Repeat]
    panics on the negative count while measuring, and with it [image] and
    [WritePNG], before a canvas is made or anything is written. *)
Theorem rendering_panics_on_negative_columns (s : Scaffold) (w : Writer) :
  columns s < 0 ->
  measureContent s = Panics "strings: negative Repeat count" /\
  image s = Panics "strings: negative Repeat count" /\
  WritePNG s w = Panics "strings: negative Repeat count".
Proof.
  intros Hneg. pose proof (measureContent_negative s Hneg) as Hm.
  assert (Hi : image s = Panics "strings: negative Repeat count")
    by (unfold image, layout; rewrite Hm; reflexivity).
  split; [ exact Hm | ]. split; [ exact Hi | ].
  unfold WritePNG. rewrite Hi. reflexivity.
Qed.

(** A canvas is created with no call made on it. *)
Lemma NewContext_calls (which : Canvas) (w h : Z) (dc : Context) :
  NewContext which w h = Returns dc -> calls dc = [].
Proof.
  unfold NewContext. destruct (pixelBufferLength _ _ _); [ | discriminate ].
  destruct (runtime_alloc _ _ _); [ discriminate | ].
  intros [= <-]. reflexivity.
Qed.

End RenderMore.

(** What one round of the glyph loop adds does not depend on the calls
    made before it. *)
Lemma draw_rune_appends (s : Scaffold) (left x y : float) (ops : list DrawOp)
    (cr : ColoredRune) :
  draw_rune s left (ops, x, y) cr =
  (ops ++ (draw_rune s left ([], x, y) cr).1.1,
   (draw_rune s left ([], x, y) cr).1.2,
   (draw_rune s left ([], x, y) cr).2).
Proof.
  unfold draw_rune. cbv zeta.
  destruct (gg_MeasureString _ _) as [w h].
  repeat match goal with
  | |- context [if ?b then _ else _] => destruct b
  end; cbn [fst snd]; rewrite <- ?app_assoc; reflexivity.
Qed.

(** One round draws the glyph of its rune, if it has one. *)
Lemma draw_rune_glyph (s : Scaffold) (left x y : float) (cr : ColoredRune) :
  drawn_strings (draw_rune s left ([], x, y) cr).1.1 = option_list (glyph_of cr).
Proof.
  unfold draw_rune, glyph_of, string_of_rune. cbv zeta.
  destruct (gg_MeasureString _ _) as [w h].
  set (c := if valid_rune (Symbol cr) then Symbol cr else 65533).
  assert (Hdec : forall r, bool_decide ([c] = [r]) = (c =? r)).
  { intros r. destruct (Z.eqb_spec c r) as [-> | Hne].
    - apply bool_decide_eq_true. reflexivity.
    - apply bool_decide_eq_false. intros [= E]. contradiction. }
  repeat match goal with
  | |- context [bool_decide (?a = [?r])] =>
      replace (bool_decide (a = [r])) with (c =? r) by (symmetry; apply Hdec)
  end.
  unfold underline_ops, set_resolved, drawn_strings.
  destruct (c =? newline), (c =? tab); cbn [orb];
    repeat match goal with
    | |- context [if ?b then _ else _] => destruct b
    | |- context [match mapStandardColor ?s ?r ?g ?b with _ => _ end] =>
        destruct (mapStandardColor s r g b)
    end; reflexivity.
Qed.

Lemma glyph_loop_strings (s : Scaffold) (left : float) (runes : list ColoredRune)
    (ops : list DrawOp) (x y : float) :
  drawn_strings (fold_left (draw_rune s left) runes (ops, x, y)).1.1 =
  drawn_strings ops ++ omap glyph_of runes.
Proof.
  revert ops x y. induction runes as [| cr rest IH]; intros ops x y.
  - simpl. rewrite app_nil_r. reflexivity.
  - cbn [fold_left]. rewrite draw_rune_appends, IH.
    unfold drawn_strings at 1. rewrite omap_app. fold (drawn_strings ops).
    fold (drawn_strings (draw_rune s left ([], x, y) cr).1.1).
    rewrite draw_rune_glyph, <- app_assoc. f_equal.
    change (omap glyph_of (cr :: rest))
      with (match glyph_of cr with
            | Some str => str :: omap glyph_of rest
            | None => omap glyph_of rest
            end).
    destruct (glyph_of cr); reflexivity.
Qed.

(** The strings drawn by the window stage of [image] are, after those
    drawn before it, the glyphs of the content. *)
Lemma paint_window_draws_content (s : Scaffold) (dc : Context) (l : Layout)
    (xOffset yOffset : float) :
  drawn_strings (calls (paint_window s dc l xOffset yOffset)) =
  drawn_strings (calls dc) ++ omap glyph_of (content s).
Proof.
  unfold paint_window, draw. cbn [calls].
  unfold drawn_strings at 1. rewrite omap_app.
  fold (drawn_strings (fold_left (draw_rune s (xOffset + paddingLeft s)%float)
          (content s)
          ([], (xOffset + paddingLeft s)%float,
           (yOffset + paddingTop s + titleOffset l + fontHeight s)%float)).1.1).
  rewrite glyph_loop_strings. cbn [drawn_strings omap app].
  f_equal.
  destruct (drawBorder s), (drawDecorations s); cbn [calls];
    rewrite ?omap_app; cbn; rewrite ?app_nil_r; reflexivity.
Qed.

Section RenderText.
Context `{Externals}.

(** The text that reaches the canvas: a raster [image] returns is painted
    from calls whose [DrawString]s are, in order, the runes of the content
    with every newline and tab left out and the two cross glyphs U+2717 and
    U+02E3 replaced by the multiplication sign. Nothing else is drawn as
    text, with or without shadow, border and decorations. *)
Theorem image_draws_content (s : Scaffold) (img : RGBA_image) :
  image s = Returns (inr img) ->
  exists canvas,
    img = gg_Image canvas /\
    drawn_strings (calls canvas) = omap glyph_of (content s).
Proof.
  unfold image. destruct (layout s) as [l | msg]; [ | discriminate ].
  destruct (NewContext canvas_dc _ _) as [dc | msg] eqn:Edc; [ | discriminate ].
  apply NewContext_calls in Edc.
  destruct (drawShadow s).
  - destruct (NewContext canvas_bc _ _) as [bc | msg]; [ | discriminate ].
    destruct (stackblur_Process _ _) as [err | shadow]; [ discriminate | ].
    intros [= <-]. eexists. split; [ reflexivity | ].
    rewrite paint_window_draws_content. cbn [draw calls]. rewrite Edc. reflexivity.
  - intros [= <-]. eexists. split; [ reflexivity | ].
    rewrite paint_window_draws_content. rewrite Edc. reflexivity.
Qed.

End RenderText.

(** ** Finishing the canvas, further *)

(** The rectangle of all points with coordinates from 0 to the largest
    [int] takes nothing off a rectangle that lies inside it. *)
Lemma Rectangle_Intersect_whole (r : Rectangle) :
  0 <= X (Min r) -> 0 <= Y (Min r) ->
  X (Max r) <= GoInt.MaxInt -> Y (Max r) <= GoInt.MaxInt ->
  Rectangle_Empty r = false ->
  Rectangle_Intersect
    (mkRectangle (mkPoint 0 0) (mkPoint GoInt.MaxInt GoInt.MaxInt)) r = r.
Proof.
  destruct r as [[x0 y0] [x1 y1]]. cbn [X Y Min Max]. intros H0 H1 H2 H3 Hfull.
  unfold Rectangle_Intersect. cbn [X Y Min Max].
  assert (E0 : (if 0 <? x0 then x0 else 0) = x0)
    by (destruct (Z.ltb_spec 0 x0); lia).
  assert (E1 : (if 0 <? y0 then y0 else 0) = y0)
    by (destruct (Z.ltb_spec 0 y0); lia).
  assert (E2 : (if GoInt.MaxInt >? x1 then x1 else GoInt.MaxInt) = x1)
    by (rewrite Z.gtb_ltb; destruct (Z.ltb_spec x1 GoInt.MaxInt); lia).
  assert (E3 : (if GoInt.MaxInt >? y1 then y1 else GoInt.MaxInt) = y1)
    by (rewrite Z.gtb_ltb; destruct (Z.ltb_spec y1 GoInt.MaxInt); lia).
  rewrite E0, E1, E2, E3, Hfull. reflexivity.
Qed.

Section ScanProofs.
Variable img : RGBA_image.

Lemma scan_covers_pixel (st : Z * Z * Z * Z) (x y : Z) :
  scan_covers img (fun x' y' => x' = x /\ y' = y) st (scan_pixel img x st y).
Proof.
  destruct st as [[[minX minY] maxX] maxY]. unfold scan_pixel, scan_covers.
  destruct (isTransparent img x y) eqn:Et; cbn [negb].
  - split; [ lia | ]. split; [ intros x' y' [-> ->] Hop; congruence | ].
    repeat split; left; reflexivity.
  - destruct (Z.ltb_spec x minX), (Z.ltb_spec y minY);
      destruct (x >? maxX) eqn:Ex; rewrite Z.gtb_ltb in Ex;
      destruct (y >? maxY) eqn:Ey; rewrite Z.gtb_ltb in Ey;
      try apply Z.ltb_lt in Ex; try apply Z.ltb_ge in Ex;
      try apply Z.ltb_lt in Ey; try apply Z.ltb_ge in Ey;
      (split; [ lia | ]); (split; [ intros x' y' [-> ->] _; lia | ]);
      repeat split;
      first [ left; reflexivity
            | right; exists x, y; split; [ split; reflexivity | ];
              split; [ exact Et | reflexivity ] ].
Qed.

Lemma scan_covers_nothing (st : Z * Z * Z * Z) :
  scan_covers img (fun _ _ => False) st st.
Proof.
  destruct st as [[[minX minY] maxX] maxY]. unfold scan_covers.
  split; [ lia | ]. split; [ intros x y [] | ]. repeat split; left; reflexivity.
Qed.

Lemma scan_covers_then (S1 S2 : Z -> Z -> Prop) (a b c : Z * Z * Z * Z) :
  scan_covers img S1 a b -> scan_covers img S2 b c ->
  scan_covers img (fun x y => S1 x y \/ S2 x y) a c.
Proof.
  destruct a as [[[a1 a2] a3] a4], b as [[[b1 b2] b3] b4], c as [[[c1 c2] c3] c4].
  unfold scan_covers.
  intros (Hab & Hin1 & Hb1 & Hb2 & Hb3 & Hb4) (Hbc & Hin2 & Hc1 & Hc2 & Hc3 & Hc4).
  split; [ lia | ]. split.
  { intros x y [Hs | Hs] Hop.
    - specialize (Hin1 x y Hs Hop). lia.
    - exact (Hin2 x y Hs Hop). }
  repeat split.
  - destruct Hc1 as [-> | (x & y & Hs & Hop & Hx)].
    + destruct Hb1 as [-> | (x & y & Hs & Hop & Hx)]; [ left; reflexivity | ].
      right. exists x, y. auto.
    + right. exists x, y. auto.
  - destruct Hc2 as [-> | (x & y & Hs & Hop & Hx)].
    + destruct Hb2 as [-> | (x & y & Hs & Hop & Hx)]; [ left; reflexivity | ].
      right. exists x, y. auto.
    + right. exists x, y. auto.
  - destruct Hc3 as [-> | (x & y & Hs & Hop & Hx)].
    + destruct Hb3 as [-> | (x & y & Hs & Hop & Hx)]; [ left; reflexivity | ].
      right. exists x, y. auto.
    + right. exists x, y. auto.
  - destruct Hc4 as [-> | (x & y & Hs & Hop & Hx)].
    + destruct Hb4 as [-> | (x & y & Hs & Hop & Hx)]; [ left; reflexivity | ].
      right. exists x, y. auto.
    + right. exists x, y. auto.
Qed.

Lemma scan_covers_same (S S' : Z -> Z -> Prop) (a b : Z * Z * Z * Z) :
  (forall x y, S x y <-> S' x y) ->
  scan_covers img S a b -> scan_covers img S' a b.
Proof.
  intros Heq. destruct a as [[[a1 a2] a3] a4], b as [[[b1 b2] b3] b4].
  unfold scan_covers. intros (Hab & Hin & H1 & H2 & H3 & H4).
  split; [ exact Hab | ]. split.
  { intros x y Hs. apply Hin, Heq, Hs. }
  repeat split;
    [ destruct H1 as [-> | (x & y & Hs & Hr)]
    | destruct H2 as [-> | (x & y & Hs & Hr)]
    | destruct H3 as [-> | (x & y & Hs & Hr)]
    | destruct H4 as [-> | (x & y & Hs & Hr)] ];
    first [ left; reflexivity
          | right; exists x, y; split; [ apply Heq; exact Hs | exact Hr ] ].
Qed.

Lemma scan_covers_rows (x : Z) (ys : list Z) (st : Z * Z * Z * Z) :
  scan_covers img (fun x' y' => x' = x /\ y' ∈ ys) st
    (fold_left (scan_pixel img x) ys st).
Proof.
  revert st. induction ys as [| y ys IH]; intros st; simpl.
  - eapply scan_covers_same; [ | apply scan_covers_nothing ].
    intros x' y'. split; [ intros [] | intros [_ Hin] ].
    apply elem_of_nil in Hin. exact Hin.
  - eapply scan_covers_same;
      [ | exact (scan_covers_then _ _ _ _ _ (scan_covers_pixel st x y)
                   (IH (scan_pixel img x st y))) ].
    intros x' y'. cbn beta. rewrite elem_of_cons. tauto.
Qed.

Lemma scan_covers_columns (xs ys : list Z) (st : Z * Z * Z * Z) :
  scan_covers img (fun x' y' => x' ∈ xs /\ y' ∈ ys) st
    (fold_left (fun st x => fold_left (scan_pixel img x) ys st) xs st).
Proof.
  revert st. induction xs as [| x xs IH]; intros st; simpl.
  - eapply scan_covers_same; [ | apply scan_covers_nothing ].
    intros x' y'. split; [ intros [] | intros [Hin _] ].
    apply elem_of_nil in Hin. exact Hin.
  - eapply scan_covers_same;
      [ | exact (scan_covers_then _ _ _ _ _ (scan_covers_rows x ys st)
                   (IH (fold_left (scan_pixel img x) ys st))) ].
    intros x' y'. cbn beta. rewrite elem_of_cons.
    split; [ intros [[-> Hy] | [Hx Hy]]; auto | intros [[-> | Hx] Hy]; auto ].
Qed.

(** The whole scan, from the start values, over the pixels of the bounds. *)
Lemma scan_covers_bounds :
  scan_covers img (fun x y => Point_In (mkPoint x y) (Rect img) = true)
    (GoInt.MaxInt, GoInt.MaxInt, 0, 0) (opaque_bounds img).
Proof.
  unfold opaque_bounds.
  eapply scan_covers_same; [ | apply scan_covers_columns ].
  intros x y. cbn beta. rewrite !elem_of_seqZ. unfold Point_In. simpl.
  rewrite !andb_true_iff, !Z.leb_le, !Z.ltb_lt. lia.
Qed.

Hypothesis HminX : 0 <= X (Min (Rect img)).
Hypothesis HminY : 0 <= Y (Min (Rect img)).
Hypothesis HmaxX : X (Max (Rect img)) <= GoInt.MaxInt.
Hypothesis HmaxY : Y (Max (Rect img)) <= GoInt.MaxInt.

(** The scan finds the exact bounding box of the opaque pixels, and the
    clip cuts its last column and row off. For a raster with corners in
    the range of [int] and no negative coordinate that holds a pixel that
    is not transparent: every such pixel lies between the four bounds the
    scan ends on, each bound is the coordinate of such a pixel, and a point
    is inside the clipped raster exactly when it is inside the box and
    short of its largest column and row. *)
Theorem opaque_bounds_exact :
  (exists x y, opaque_in img x y) ->
  exists minX minY maxX maxY,
    opaque_bounds img = (minX, minY, maxX, maxY) /\
    (forall x y, opaque_in img x y -> minX <= x <= maxX /\ minY <= y <= maxY) /\
    (exists y, opaque_in img minX y) /\ (exists x, opaque_in img x minY) /\
    (exists y, opaque_in img maxX y) /\ (exists x, opaque_in img x maxY) /\
    (forall x y,
       Point_In (mkPoint x y) (Rect (clip img)) = true <->
       minX <= x < maxX /\ minY <= y < maxY).
Proof.
  intros (x0 & y0 & Hin0 & Hop0).
  pose proof scan_covers_bounds as Hscan. unfold clip.
  destruct (opaque_bounds img) as [[[minX minY] maxX] maxY].
  unfold scan_covers in Hscan.
  destruct Hscan as (_ & Hbox & H1 & H2 & H3 & H4).
  exists minX, minY, maxX, maxY. split; [ reflexivity | ].
  pose proof (Hbox x0 y0 Hin0 Hop0) as Hbox0.
  destruct (Point_In_inv img x0 y0 Hin0) as [Hx0 Hy0].
  assert (Hbox' : forall x y, opaque_in img x y ->
            minX <= x <= maxX /\ minY <= y <= maxY)
    by (intros x y [Hin Hop]; exact (Hbox x y Hin Hop)).
  assert (HminX' : exists y, opaque_in img minX y).
  { destruct H1 as [E | (x & y & Hin & Hop & <-)]; [ | exists y; split; assumption ].
    unfold GoInt.MaxInt in *. lia. }
  assert (HminY' : exists x, opaque_in img x minY).
  { destruct H2 as [E | (x & y & Hin & Hop & <-)]; [ | exists x; split; assumption ].
    unfold GoInt.MaxInt in *. lia. }
  assert (HmaxX' : exists y, opaque_in img maxX y).
  { destruct H3 as [E | (x & y & Hin & Hop & <-)]; [ | exists y; split; assumption ].
    exists y0. replace maxX with x0 by lia. split; assumption. }
  assert (HmaxY' : exists x, opaque_in img x maxY).
  { destruct H4 as [E | (x & y & Hin & Hop & <-)]; [ | exists x; split; assumption ].
    exists x0. replace maxY with y0 by lia. split; assumption. }
  split; [ exact Hbox' | ].
  split; [ exact HminX' | ]. split; [ exact HminY' | ].
  split; [ exact HmaxX' | ]. split; [ exact HmaxY' | ].
  destruct HminX' as (ya & Hina & _), HminY' as (xb & Hinb & _),
           HmaxX' as (yc & Hinc & _), HmaxY' as (xd & Hind & _).
  apply Point_In_inv in Hina, Hinb, Hinc, Hind.
  intros x y. unfold SubImage, Rectangle_Intersect, image_Rect.
  replace (minX >? maxX) with false by (symmetry; rewrite Z.gtb_ltb; apply Z.ltb_ge; lia).
  replace (minY >? maxY) with false by (symmetry; rewrite Z.gtb_ltb; apply Z.ltb_ge; lia).
  cbn [X Y Min Max].
  replace (minX <? X (Min (Rect img))) with false by (symmetry; apply Z.ltb_ge; lia).
  replace (minY <? Y (Min (Rect img))) with false by (symmetry; apply Z.ltb_ge; lia).
  replace (maxX >? X (Max (Rect img))) with false
    by (symmetry; rewrite Z.gtb_ltb; apply Z.ltb_ge; lia).
  replace (maxY >? Y (Max (Rect img))) with false
    by (symmetry; rewrite Z.gtb_ltb; apply Z.ltb_ge; lia).
  destruct (Rectangle_Empty (mkRectangle (mkPoint minX minY) (mkPoint maxX maxY)))
    eqn:Eempty.
  - unfold Rectangle_Empty in Eempty. cbn [X Y Min Max] in Eempty.
    apply orb_true_iff in Eempty. rewrite !Z.geb_le in Eempty.
    change (Rectangle_Empty ZR) with true. cbn [Rect].
    unfold Point_In, ZR. cbn [X Y Min Max].
    rewrite !andb_true_iff, !Z.leb_le, !Z.ltb_lt. lia.
  - rewrite Eempty. cbn [Rect].
    unfold Point_In. cbn [X Y Min Max].
    rewrite !andb_true_iff, !Z.leb_le, !Z.ltb_lt. lia.
Qed.

(** A raster that is transparent all over goes through the clip
    untouched: the scan ends on its start values, [image.Rect] puts the
    inverted corners in order, and the intersection with the bounds is the
    bounds. *)
Theorem clip_transparent_raster :
  X (Min (Rect img)) < X (Max (Rect img)) ->
  Y (Min (Rect img)) < Y (Max (Rect img)) ->
  (forall x y, Point_In (mkPoint x y) (Rect img) = true ->
               isTransparent img x y = true) ->
  clip img = img.
Proof.
  intros Hx Hy Hclear.
  pose proof scan_covers_bounds as Hscan. unfold clip.
  destruct (opaque_bounds img) as [[[minX minY] maxX] maxY].
  unfold scan_covers in Hscan.
  destruct Hscan as (_ & _ & H1 & H2 & H3 & H4).
  assert (Hnone : forall P : Z -> Z -> Prop,
    ~ (exists x y, Point_In (mkPoint x y) (Rect img) = true /\
                   isTransparent img x y = false /\ P x y)).
  { intros P (x & y & Hin & Hop & _). rewrite (Hclear x y Hin) in Hop. discriminate. }
  destruct H1 as [-> | Hbad]; [ | destruct (Hnone (fun x _ => x = minX) Hbad) ].
  destruct H2 as [-> | Hbad]; [ | destruct (Hnone (fun _ y => y = minY) Hbad) ].
  destruct H3 as [-> | Hbad]; [ | destruct (Hnone (fun x _ => x = maxX) Hbad) ].
  destruct H4 as [-> | Hbad]; [ | destruct (Hnone (fun _ y => y = maxY) Hbad) ].
  change (image_Rect GoInt.MaxInt GoInt.MaxInt 0 0)
    with (mkRectangle (mkPoint 0 0) (mkPoint GoInt.MaxInt GoInt.MaxInt)).
  assert (Hfull : Rectangle_Empty (Rect img) = false).
  { unfold Rectangle_Empty. apply orb_false_iff.
    rewrite !Z.geb_leb. split; apply Z.leb_gt; assumption. }
  unfold SubImage.
  rewrite Rectangle_Intersect_whole by assumption. rewrite Hfull.
  unfold PixOffset. rewrite !Z.sub_diag, Z.mul_0_l.
  destruct img; reflexivity.
Qed.

End ScanProofs.

Lemma nth_drop_offset {A : Type} (n k : nat) (l : list A) (d : A) :
  nth k (drop n l) d = nth (n + k) l d.
Proof.
  revert l. induction n as [| n IH]; intros l; [ reflexivity | ].
  destruct l as [| a l]; simpl; [ destruct k; reflexivity | apply IH ].
Qed.

(** A sub-raster shows the pixels of the raster it is cut from. *)
Lemma SubImage_pixels (p : RGBA_image) (r : Rectangle) (x y : Z) :
  0 <= Stride p ->
  Point_In (mkPoint x y) (Rect (SubImage p r)) = true ->
  Point_In (mkPoint x y) (Rect p) = true /\
  RGBAAt (SubImage p r) x y = RGBAAt p x y.
Proof.
  intros Hstride. unfold SubImage.
  destruct (Rectangle_Empty (Rectangle_Intersect r (Rect p))) eqn:Eempty.
  { unfold Point_In. cbn. rewrite !andb_true_iff, !Z.leb_le, !Z.ltb_lt. lia. }
  assert (Hinside :
    X (Min (Rect p)) <= X (Min (Rectangle_Intersect r (Rect p))) /\
    Y (Min (Rect p)) <= Y (Min (Rectangle_Intersect r (Rect p))) /\
    X (Max (Rectangle_Intersect r (Rect p))) <= X (Max (Rect p)) /\
    Y (Max (Rectangle_Intersect r (Rect p))) <= Y (Max (Rect p))).
  { revert Eempty. unfold Rectangle_Intersect.
    set (minX := if X (Min r) <? X (Min (Rect p)) then _ else _).
    set (minY := if Y (Min r) <? Y (Min (Rect p)) then _ else _).
    set (maxX := if X (Max r) >? X (Max (Rect p)) then _ else _).
    set (maxY := if Y (Max r) >? Y (Max (Rect p)) then _ else _).
    assert (X (Min (Rect p)) <= minX)
      by (subst minX; destruct (Z.ltb_spec (X (Min r)) (X (Min (Rect p)))); lia).
    assert (Y (Min (Rect p)) <= minY)
      by (subst minY; destruct (Z.ltb_spec (Y (Min r)) (Y (Min (Rect p)))); lia).
    assert (maxX <= X (Max (Rect p)))
      by (subst maxX; rewrite Z.gtb_ltb;
          destruct (Z.ltb_spec (X (Max (Rect p))) (X (Max r))); lia).
    assert (maxY <= Y (Max (Rect p)))
      by (subst maxY; rewrite Z.gtb_ltb;
          destruct (Z.ltb_spec (Y (Max (Rect p))) (Y (Max r))); lia).
    destruct (Rectangle_Empty (mkRectangle (mkPoint minX minY) (mkPoint maxX maxY)));
      [ intros [=] | intros _ ].
    cbn [X Y Min Max]. lia. }
  set (r' := Rectangle_Intersect r (Rect p)) in *.
  cbn [Rect]. intros Hin.
  assert (Hxy : X (Min r') <= x < X (Max r') /\ Y (Min r') <= y < Y (Max r')).
  { revert Hin. unfold Point_In. cbn [X Y].
    rewrite !andb_true_iff, !Z.leb_le, !Z.ltb_lt. lia. }
  assert (Hin' : Point_In (mkPoint x y) (Rect p) = true).
  { unfold Point_In. cbn [X Y].
    rewrite !andb_true_iff, !Z.leb_le, !Z.ltb_lt. lia. }
  split; [ exact Hin' | ].
  unfold RGBAAt. cbn [Rect]. rewrite Hin, Hin'. cbn [negb].
  unfold PixOffset. cbn [Rect Stride Pix].
  set (i := (Y (Min r') - Y (Min (Rect p))) * Stride p
            + (X (Min r') - X (Min (Rect p))) * 4).
  set (o := (y - Y (Min r')) * Stride p + (x - X (Min r')) * 4).
  assert (Hi : 0 <= i) by (unfold i; nia).
  assert (Ho : 0 <= o) by (unfold o; nia).
  replace ((y - Y (Min (Rect p))) * Stride p + (x - X (Min (Rect p))) * 4)
    with (i + o) by (unfold i, o; lia).
  rewrite !nth_drop_offset.
  rewrite Z2Nat.inj_add by assumption.
  rewrite !Nat.add_assoc. reflexivity.
Qed.

(** The clip cuts, it does not repaint: every pixel inside the clipped
    raster is a pixel of the rendered raster, with the same four bytes. *)
Theorem clip_keeps_pixels (img : RGBA_image) (x y : Z) :
  0 <= Stride img ->
  Point_In (mkPoint x y) (Rect (clip img)) = true ->
  Point_In (mkPoint x y) (Rect img) = true /\
  RGBAAt (clip img) x y = RGBAAt img x y.
Proof.
  intros Hstride. unfold clip.
  destruct (opaque_bounds img) as [[[minX minY] maxX] maxY].
  apply SubImage_pixels. exact Hstride.
Qed.

(** ** Loading fonts *)

Section FontProofs.
Context `{Externals} `{FontExternals}.

(** A path is read with the scale factor of the scaffold and nothing else
    of it. *)
Lemma load_face_factor (s s' : Scaffold) (fontPath : string) :
  factor s' = factor s -> load_face s' fontPath = load_face s fontPath.
Proof. intros E. unfold load_face. rewrite E. reflexivity. Qed.

Lemma assign_face_factor (count i : Z) (face : Face) (s : Scaffold) :
  factor (assign_face count i face s) = factor s.
Proof.
  unfold assign_face.
  destruct (i mod 4 =? 0); [ destruct (count =? 1); reflexivity | ].
  destruct (i mod 4 =? 1); [ reflexivity | ].
  destruct (i mod 4 =? 2); [ reflexivity | ].
  destruct (i mod 4 =? 3); reflexivity.
Qed.

Lemma assign_face_faces_only (count i : Z) (face : Face) (s : Scaffold) :
  with_faces_of (assign_face count i face s) s = assign_face count i face s.
Proof.
  unfold assign_face. destruct s.
  destruct (i mod 4 =? 0); [ destruct (count =? 1); reflexivity | ].
  destruct (i mod 4 =? 1); [ reflexivity | ].
  destruct (i mod 4 =? 2); [ reflexivity | ].
  destruct (i mod 4 =? 3); reflexivity.
Qed.

Lemma with_faces_of_twice (s s1 s2 : Scaffold) :
  with_faces_of s1 s = s1 -> with_faces_of s2 s1 = s2 -> with_faces_of s2 s = s2.
Proof.
  destruct s, s1, s2.
  unfold with_faces_of, SetFontFaceBoldItalic, SetFontFaceItalic, SetFontFaceBold,
    SetFontFaceRegular.
  cbn. intros E1 E2. injection E1 as ?. injection E2 as ?. subst. reflexivity.
Qed.

Lemma load_fonts_faces_only (count i : Z) (fontPaths : list string) (s : Scaffold) :
  with_faces_of (fst (load_fonts count i fontPaths s)) s
  = fst (load_fonts count i fontPaths s).
Proof.
  revert i s. induction fontPaths as [| p rest IH]; intros i s; cbn [load_fonts].
  - destruct s; reflexivity.
  - destruct (load_face s p) as [err | face]; [ destruct s; reflexivity | ].
    eapply with_faces_of_twice; [ apply assign_face_faces_only | apply IH ].
Qed.

(** Loading fonts touches the four faces and nothing else: any other
    setting of the scaffold, the content and the colours are as before,
    whether the call fails or not. *)
Theorem LoadCustomFonts_changes_faces_only (s : Scaffold) (fontPaths : list string) :
  with_faces_of (fst (LoadCustomFonts s fontPaths)) s
  = fst (LoadCustomFonts s fontPaths).
Proof.
  unfold LoadCustomFonts.
  pose proof (load_fonts_faces_only (Z.of_nat (length fontPaths)) 0 fontPaths s) as E.
  destruct (load_fonts _ 0 fontPaths s) as [s' r]. exact E.
Qed.

(** The loop over paths that all load is the assignment of their faces. *)
Lemma load_fonts_loaded (count i : Z) (pre rest : list string)
    (faces : list Face) (s0 s : Scaffold) :
  factor s = factor s0 ->
  Forall2 (fun p face => load_face s0 p = inr face) pre faces ->
  load_fonts count i (pre ++ rest) s
  = load_fonts count (i + Z.of_nat (length pre)) rest (assign_faces count i faces s)
  /\ factor (assign_faces count i faces s) = factor s0.
Proof.
  intros Hf Hall. revert i s Hf.
  induction Hall as [| p face pre faces Hp _ IH]; intros i s Hf.
  - cbn [app length assign_faces]. rewrite Z.add_0_r. auto.
  - cbn [app load_fonts assign_faces].
    rewrite (load_face_factor s0 s p Hf), Hp.
    destruct (IH (i + 1) (assign_face count i face s)) as [E1 E2].
    { rewrite assign_face_factor. exact Hf. }
    rewrite E1, E2. split; [ | reflexivity ].
    f_equal. cbn [length]. lia.
Qed.

Lemma slot_cases (i : Z) :
  i mod 4 = 0 \/ i mod 4 = 1 \/ i mod 4 = 2 \/ i mod 4 = 3.
Proof. pose proof (Z.mod_pos_bound i 4). lia. Qed.

Lemma assign_face_slot (count i : Z) (face : Face) (s : Scaffold) :
  face_slot (i mod 4) (assign_face count i face s) = face.
Proof.
  unfold assign_face, face_slot.
  destruct (slot_cases i) as [E | [E | [E | E]]]; rewrite E; cbn [Z.eqb Pos.eqb];
    [ destruct (count =? 1) | | | ]; reflexivity.
Qed.

Lemma assign_face_other (count i k : Z) (face : Face) (s : Scaffold) :
  count <> 1 -> 0 <= k < 4 -> i mod 4 <> k ->
  face_slot k (assign_face count i face s) = face_slot k s.
Proof.
  intros Hc Hk Hne. apply Z.eqb_neq in Hc. unfold assign_face. rewrite Hc.
  assert (Hk' : k = 0 \/ k = 1 \/ k = 2 \/ k = 3) by lia.
  destruct (slot_cases i) as [E | [E | [E | E]]]; rewrite E in *;
    destruct Hk' as [-> | [-> | [-> | ->]]];
    first [ congruence | reflexivity ].
Qed.

(** A slot that none of the assigned faces falls on keeps its face. *)
Lemma assign_faces_other (count i k : Z) (faces : list Face) (s : Scaffold) :
  count <> 1 -> 0 <= k < 4 ->
  (forall j : nat, (j < length faces)%nat -> (i + Z.of_nat j) mod 4 <> k) ->
  face_slot k (assign_faces count i faces s) = face_slot k s.
Proof.
  intros Hc Hk. revert i s.
  induction faces as [| face rest IH]; intros i s Hfree; [ reflexivity | ].
  cbn [assign_faces]. rewrite IH.
  - apply assign_face_other; [ assumption | assumption | ].
    specialize (Hfree 0%nat). rewrite Z.add_0_r in Hfree.
    apply Hfree. cbn [length]. lia.
  - intros j Hj. specialize (Hfree (S j)).
    replace (i + 1 + Z.of_nat j) with (i + Z.of_nat (S j)) by lia.
    apply Hfree. cbn [length]. lia.
Qed.

(** A face with no later face on its slot is the face of the slot. *)
Lemma assign_faces_slot (count i : Z) (faces : list Face) (s : Scaffold)
    (j : nat) (face : Face) :
  count <> 1 ->
  faces !! j = Some face -> (length faces <= j + 4)%nat ->
  face_slot ((i + Z.of_nat j) mod 4) (assign_faces count i faces s) = face.
Proof.
  intros Hc. revert i s j.
  induction faces as [| face0 rest IH]; intros i s j Hj Hlast; [ discriminate | ].
  cbn [assign_faces]. destruct j as [| j].
  - injection Hj as ->. rewrite Z.add_0_r.
    rewrite assign_faces_other.
    + apply assign_face_slot.
    + exact Hc.
    + apply Z.mod_pos_bound. lia.
    + intros j Hj. cbn [length] in Hlast.
      assert (Hj' : 1 <= 1 + Z.of_nat j <= 3) by lia.
      replace (i + 1 + Z.of_nat j) with (i + (1 + Z.of_nat j)) by lia.
      revert Hj'. generalize (1 + Z.of_nat j). intros d Hd Heq.
      apply (f_equal (fun v => v - i mod 4)) in Heq.
      rewrite Z.sub_diag in Heq.
      pose proof (Z.mod_pos_bound i 4) as B1.
      pose proof (Z.mod_pos_bound (i + d) 4) as B2.
      pose proof (Z.div_mod i 4) as D1. pose proof (Z.div_mod (i + d) 4) as D2.
      lia.
  - cbn [lookup list_lookup] in Hj.
    replace (i + Z.of_nat (S j)) with (i + 1 + Z.of_nat j) by lia.
    apply IH; [ exact Hj | cbn [length] in Hlast; lia ].
Qed.

(** One font serves all four variants: the face of a single path that
    loads is made the regular, the bold, the italic and the bold-italic
    face, and the call returns no error. *)
Theorem LoadCustomFonts_single_font (s : Scaffold) (fontPath : string) (face : Face) :
  load_face s fontPath = inr face ->
  snd (LoadCustomFonts s [fontPath]) = None /\
  forall k, face_slot k (fst (LoadCustomFonts s [fontPath])) = face.
Proof.
  intros Hp. unfold LoadCustomFonts. cbn [length load_fonts].
  rewrite Hp. change (Z.of_nat 1) with 1.
  unfold assign_face. change (0 mod 4 =? 0) with true. change (1 =? 1) with true.
  cbn [ret fst snd error_of]. split; [ reflexivity | ].
  intros k. unfold face_slot.
  destruct (k =? 0), (k =? 1), (k =? 2); reflexivity.
Qed.

(** Several fonts are assigned by position. When every one of two or more
    paths loads, the call returns no error, the face of path [j] is the
    face of slot [j mod 4] (regular, bold, italic, bold-italic) unless a
    path four places later takes the slot, and a slot beyond the number
    of paths keeps the face it had. *)
Theorem LoadCustomFonts_by_position (s : Scaffold) (fontPaths : list string)
    (faces : list Face) :
  Forall2 (fun p face => load_face s p = inr face) fontPaths faces ->
  length fontPaths <> 1%nat ->
  snd (LoadCustomFonts s fontPaths) = None /\
  (forall (j : nat) face,
     faces !! j = Some face -> (length faces <= j + 4)%nat ->
     face_slot (Z.of_nat j mod 4) (fst (LoadCustomFonts s fontPaths)) = face) /\
  (forall k, Z.of_nat (length faces) <= k < 4 ->
     face_slot k (fst (LoadCustomFonts s fontPaths)) = face_slot k s).
Proof.
  intros Hall Hn. unfold LoadCustomFonts.
  assert (Hc : Z.of_nat (length fontPaths) <> 1) by lia.
  destruct (load_fonts_loaded (Z.of_nat (length fontPaths)) 0 fontPaths [] faces
              s s eq_refl Hall) as [E _].
  rewrite app_nil_r in E. rewrite E. cbn [load_fonts ret fst snd error_of].
  split; [ reflexivity | ]. split.
  - intros j face Hj Hlast.
    exact (assign_faces_slot _ 0 faces s j face Hc Hj Hlast).
  - intros k Hk. apply assign_faces_other; [ exact Hc | lia | ].
    intros j Hj. rewrite Z.add_0_l, Z.mod_small; lia.
Qed.

(** A failing path stops the loop and leaves the faces of the paths before
    it in place: the error is the one of the first path that does not load,
    the faces loaded before it have been assigned by position, and the
    slots beyond them keep their faces. *)
Theorem LoadCustomFonts_failure_keeps_earlier_faces (s : Scaffold)
    (loaded : list string) (fontPath : string) (later : list string)
    (faces : list Face) (err : error) :
  Forall2 (fun p face => load_face s p = inr face) loaded faces ->
  load_face s fontPath = inl err ->
  snd (LoadCustomFonts s (loaded ++ fontPath :: later)) = Some err /\
  (forall (j : nat) face,
     faces !! j = Some face -> (length faces <= j + 4)%nat ->
     face_slot (Z.of_nat j mod 4)
       (fst (LoadCustomFonts s (loaded ++ fontPath :: later))) = face) /\
  (forall k, Z.of_nat (length faces) <= k < 4 ->
     face_slot k (fst (LoadCustomFonts s (loaded ++ fontPath :: later)))
     = face_slot k s).
Proof.
  intros Hall Hp. unfold LoadCustomFonts.
  set (count := Z.of_nat (length (loaded ++ fontPath :: later))).
  destruct (load_fonts_loaded count 0 loaded (fontPath :: later) faces
              s s eq_refl Hall) as [E Hf].
  rewrite E. cbn [load_fonts].
  rewrite (load_face_factor s _ fontPath Hf), Hp. cbn [fst snd error_of].
  split; [ reflexivity | ].
  destruct faces as [| face0 faces'].
  { cbn [assign_faces]. split; [ intros j face Hj; discriminate | reflexivity ]. }
  assert (Hc : count <> 1).
  { pose proof (Forall2_length _ _ _ Hall) as Hlen. subst count.
    rewrite length_app. cbn [length] in *. lia. }
  split.
  - intros j face Hj Hlast.
    exact (assign_faces_slot count 0 _ s j face Hc Hj Hlast).
  - intros k Hk. apply assign_faces_other; [ exact Hc | lia | ].
    intros j Hj. rewrite Z.add_0_l, Z.mod_small; lia.
Qed.

Lemma load_fonts_succeeds_iff (count i : Z) (fontPaths : list string)
    (s0 s : Scaffold) :
  factor s = factor s0 ->
  snd (load_fonts count i fontPaths s) = inr tt <->
  Forall (fun p => exists face, load_face s0 p = inr face) fontPaths.
Proof.
  revert i s. induction fontPaths as [| p rest IH]; intros i s Hf; cbn [load_fonts].
  - cbn. split; [ constructor | reflexivity ].
  - rewrite (load_face_factor s0 s p Hf). rewrite Forall_cons.
    destruct (load_face s0 p) as [err | face] eqn:Ep.
    + cbn [snd]. split; [ discriminate | intros [[face [=]] _] ].
    + rewrite IH by (rewrite assign_face_factor; exact Hf).
      split; [ intros Hrest; split; [ exists face; reflexivity | exact Hrest ]
             | intros [_ Hrest]; exact Hrest ].
Qed.

(** The call returns no error exactly when every path loads: the file
    can be read, is parsed by the parser its suffix selects, and gives a
    face at the scale of the scaffold. *)
Theorem LoadCustomFonts_succeeds_iff (s : Scaffold) (fontPaths : list string) :
  snd (LoadCustomFonts s fontPaths) = None <->
  Forall (fun p => exists face, load_face s p = inr face) fontPaths.
Proof.
  rewrite <- (load_fonts_succeeds_iff (Z.of_nat (length fontPaths)) 0 fontPaths s s
                eq_refl).
  unfold LoadCustomFonts.
  destruct (load_fonts _ 0 fontPaths s) as [s' [err | []]]; cbn [snd error_of].
  - split; discriminate.
  - split; reflexivity.
Qed.

End FontProofs.

(** ** Padding and margin *)

(** Setting all four sides at once is setting the two axes one after the
    other: for padding and for margin, the four-sided setter called with
    one value for top and bottom and one for left and right leaves the
    scaffold the vertical setter followed by the horizontal one leaves. *)
Theorem SetPadding_by_axis (s : Scaffold) (vertical horizontal : float) :
  SetPadding s vertical horizontal vertical horizontal
  = SetHorizontalPadding (SetVerticalPadding s vertical) horizontal /\
  SetMargin s vertical horizontal vertical horizontal
  = SetHorizontalMargin (SetVerticalMargin s vertical) horizontal.
Proof. destruct s. split; reflexivity. Qed.

(** * The further properties at concrete inputs *)

Section MoreWitnesses.
Import Examples MoreExamples.

(** The components of [#112233]. *)
Lemma parseHexColor_components_witness :
  exists r g b,
    RGBA 17 34 51 255 = RGBA r g b 255 /\ is_byte r /\ is_byte g /\ is_byte b.
Proof.
  apply (parseHexColor_components_are_bytes "#112233"). reflexivity.
Defined.

(** [#AABBCC] parses, and so does [#aabbcc], to the same colour. *)
Lemma parseHexColor_ignores_case_witness :
  parseHexColor "#AABBCC" = inr (RGBA 170 187 204 255) /\
  parseHexColor "#aabbcc" = inr (RGBA 170 187 204 255).
Proof.
  split; [ reflexivity | ].
  apply (parseHexColor_ignores_case "#AABBCC"). reflexivity.
Defined.

(** The red (200, 10, 10) with slot 1 loaded. *)
Lemma findClosestColor_nearest_witness :
  exists row,
    row ∈ ansiColors /\
    Forall (fun row' =>
              squared_distance 200 10 10 row <= squared_distance 200 10 10 row')
      ansiColors /\
    findClosestColor themed 200 10 10 =
      if squared_distance 200 10 10 row <? 10000
      then ({[ 1 := RGBA 17 34 51 255 ]} : gmap Z Color) !! row_index row
      else None.
Proof.
  apply (findClosestColor_nearest themed {[ 1 := RGBA 17 34 51 255 ]} 200 10 10).
  - reflexivity.
  - unfold is_byte. lia.
  - unfold is_byte. lia.
  - unfold is_byte. lia.
Defined.

(** The xterm red (205, 0, 0) is slot 1 of the loaded scheme. *)
Lemma mapStandardColor_exact_match_witness :
  mapStandardColor themed 205 0 0 = Some (RGBA 17 34 51 255).
Proof.
  apply (mapStandardColor_exact_match themed {[ 1 := RGBA 17 34 51 255 ]}
           205 0 0 1 (RGBA 17 34 51 255)).
  - reflexivity.
  - unfold standardColors_entries. repeat constructor.
  - reflexivity.
Defined.

(** A load of the well-formed [dark.json] over a scaffold that had slot 1
    loaded. *)
Lemma LoadColorscheme_success_state_witness :
  LoadColorscheme (H := themes) themed "dark.json" = (themed_dark, None) /\
  exists data scheme,
    os_ReadFile (Externals := themes) "dark.json" = inr data /\
    decoded_scheme (H := themes) data = Some scheme /\
    (exists m, customColors themed_dark = Some m /\
               forall i, m !! i = scheme_slot scheme i) /\
    defaultForegroundColor themed_dark =
      default (defaultForegroundColor themed) (scheme_color scheme "foreground") /\
    defaultBackgroundColor themed_dark =
      default (defaultBackgroundColor themed) (scheme_color scheme "background") /\
    forall i fallbackColor,
      getColor themed_dark i fallbackColor
      = default fallbackColor (scheme_slot scheme i).
Proof.
  assert (E : LoadColorscheme (H := themes) themed "dark.json" = (themed_dark, None)).
  { unfold themed_dark, with_defaultForegroundColor, with_customColors.
    vm_compute. reflexivity. }
  split; [ exact E | ].
  exact (LoadColorscheme_success_state (H := themes) themed themed_dark "dark.json" E).
Defined.

(** [abcdefg] appended at width 2. *)
Lemma AddContent_appends_input_witness :
  exists appended,
    AddContent (H := demo) (SetColumns scaffold0 2) (inr abcdefg) =
      (with_content (SetColumns scaffold0 2)
         (content (SetColumns scaffold0 2) ++ appended), None) /\
    sublist abcdefg appended /\
    filter (fun cr => Symbol cr <> newline) appended =
    filter (fun cr => Symbol cr <> newline) abcdefg.
Proof.
  apply (AddContent_appends_input (H := demo) (SetColumns scaffold0 2)
           (inr abcdefg) abcdefg).
  reflexivity.
Defined.

(** [abcdefg] at width 2: no line of more than three runes. *)
Lemma AddContent_lines_bounded_witness :
  exists appended,
    AddContent (H := demo) (SetColumns scaffold0 2) (inr abcdefg) =
      (with_content (SetColumns scaffold0 2)
         (content (SetColumns scaffold0 2) ++ appended), None) /\
    Forall (fun line : list rune =>
              Z.of_nat (length line)
              <= GetFixedColumns (H := demo) (SetColumns scaffold0 2) + 1)
      (Split_newline (map Symbol appended)).
Proof.
  apply (AddContent_lines_bounded (H := demo) (SetColumns scaffold0 2)
           (inr abcdefg) abcdefg).
  - reflexivity.
  - split; vm_compute; [ discriminate | reflexivity ].
Defined.

(** Two columns, whatever the content. *)
Lemma measureContent_fixed_width_witness :
  exists h,
    measureContent (H := demo) (with_content (SetColumns scaffold0 2) abcdefg) =
    Returns (fixed_width (regular (SetColumns scaffold0 2))
               (columns (SetColumns scaffold0 2)), h).
Proof.
  apply (measureContent_fixed_width (H := demo) (SetColumns scaffold0 2) abcdefg).
  reflexivity.
Defined.

(** Minus one column. *)
Lemma rendering_panics_witness :
  measureContent (H := demo) (SetColumns scaffold0 (-1)) =
    Panics "strings: negative Repeat count" /\
  image (H := demo) (SetColumns scaffold0 (-1)) =
    Panics "strings: negative Repeat count" /\
  WritePNG (H := demo) (SetColumns scaffold0 (-1)) [] =
    Panics "strings: negative Repeat count".
Proof.
  apply (rendering_panics_on_negative_columns (H := demo)
           (SetColumns scaffold0 (-1)) []).
  reflexivity.
Defined.

(** [plain text] and its newline reach the canvas as ten strings. *)
Lemma image_draws_content_witness :
  image (H := demo) titled = Returns (inr titled_raster) /\
  exists canvas,
    titled_raster = gg_Image (Externals := demo) canvas /\
    drawn_strings (calls canvas) = omap glyph_of (content titled).
Proof.
  assert (E : image (H := demo) titled = Returns (inr titled_raster))
    by (vm_compute; reflexivity).
  split; [ exact E | ].
  exact (image_draws_content (H := demo) titled titled_raster E).
Defined.

(** The dash of two pixels in a raster of four by three: the bounds are
    the columns 1 and 2 of row 1, and the clip keeps nothing of it. *)
Lemma opaque_bounds_exact_witness :
  exists minX minY maxX maxY,
    opaque_bounds dash4x3 = (minX, minY, maxX, maxY) /\
    (forall x y, opaque_in dash4x3 x y ->
                 minX <= x <= maxX /\ minY <= y <= maxY) /\
    (exists y, opaque_in dash4x3 minX y) /\ (exists x, opaque_in dash4x3 x minY) /\
    (exists y, opaque_in dash4x3 maxX y) /\ (exists x, opaque_in dash4x3 x maxY) /\
    (forall x y,
       Point_In (mkPoint x y) (Rect (clip dash4x3)) = true <->
       minX <= x < maxX /\ minY <= y < maxY).
Proof.
  apply (opaque_bounds_exact dash4x3).
  - vm_compute. discriminate.
  - vm_compute. discriminate.
  - vm_compute. discriminate.
  - vm_compute. discriminate.
  - exists 1, 1. split; reflexivity.
Defined.

(** A blank raster is not cut. *)
Lemma clip_transparent_raster_witness : clip blank2x2 = blank2x2.
Proof.
  apply (clip_transparent_raster blank2x2).
  - vm_compute. discriminate.
  - vm_compute. discriminate.
  - vm_compute. discriminate.
  - vm_compute. discriminate.
  - reflexivity.
  - reflexivity.
  - intros x y Hin. apply Point_In_inv in Hin. cbn in Hin.
    assert (Hx : x = 0 \/ x = 1) by lia. assert (Hy : y = 0 \/ y = 1) by lia.
    destruct Hx as [-> | ->], Hy as [-> | ->]; reflexivity.
Defined.

(** The one pixel the clip keeps of the opaque raster of two by two. *)
Lemma clip_keeps_pixels_witness :
  Point_In (mkPoint 0 0) (Rect opaque2x2) = true /\
  RGBAAt (clip opaque2x2) 0 0 = RGBAAt opaque2x2 0 0.
Proof.
  apply (clip_keeps_pixels opaque2x2 0 0).
  - vm_compute. discriminate.
  - reflexivity.
Defined.

(** One font file for all four variants. *)
Lemma LoadCustomFonts_single_font_witness :
  snd (LoadCustomFonts (H := demo) (H0 := fonts) scaffold0 ["hack.ttf"%string]) = None /\
  forall k,
    face_slot k
      (fst (LoadCustomFonts (H := demo) (H0 := fonts) scaffold0 ["hack.ttf"%string]))
    = font_face "hack.ttf".
Proof.
  apply (LoadCustomFonts_single_font (H := demo) (H0 := fonts) scaffold0
           "hack.ttf" (font_face "hack.ttf")).
  reflexivity.
Defined.

(** A TrueType and an OpenType file: regular and bold are theirs, italic
    and bold-italic stay. *)
Lemma LoadCustomFonts_by_position_witness :
  let s' := fst (LoadCustomFonts (H := demo) (H0 := fonts) scaffold0
                   ["regular.ttf"; "bold.otf"]%string) in
  regular s' = font_face "regular.ttf" /\ bold s' = font_face "bold.otf" /\
  italic s' = demo_face /\ boldItalic s' = demo_face.
Proof.
  destruct (LoadCustomFonts_by_position (H := demo) (H0 := fonts) scaffold0
              ["regular.ttf"; "bold.otf"]%string
              [font_face "regular.ttf"; font_face "bold.otf"])
    as (_ & Hslot & Hkeep).
  - repeat constructor.
  - discriminate.
  - cbv zeta. split; [ | split; [ | split ] ].
    + exact (Hslot 0%nat _ eq_refl ltac:(cbn; lia)).
    + exact (Hslot 1%nat _ eq_refl ltac:(cbn; lia)).
    + exact (Hkeep 2 ltac:(cbn; lia)).
    + exact (Hkeep 3 ltac:(cbn; lia)).
Defined.

(** The second of three files cannot be read: the first has become the
    regular face all the same. *)
Lemma LoadCustomFonts_failure_witness :
  let r := LoadCustomFonts (H := demo) (H0 := fonts) scaffold0
             ["regular.ttf"; "missing.json"; "italic.ttf"]%string in
  snd r = Some (ErrorfW "failed to read font file missing.json"
                  (ErrExternal "no such file")) /\
  regular (fst r) = font_face "regular.ttf" /\ bold (fst r) = demo_face.
Proof.
  destruct (LoadCustomFonts_failure_keeps_earlier_faces (H := demo) (H0 := fonts)
              scaffold0 ["regular.ttf"%string] "missing.json" ["italic.ttf"%string]
              [font_face "regular.ttf"]
              (ErrorfW "failed to read font file missing.json"
                 (ErrExternal "no such file")))
    as (Herr & Hslot & Hkeep).
  - repeat constructor.
  - reflexivity.
  - cbv zeta. split; [ exact Herr | ]. split.
    + exact (Hslot 0%nat _ eq_refl ltac:(cbn; lia)).
    + exact (Hkeep 1 ltac:(cbn; lia)).
Defined.

End MoreWitnesses.
